(** * CSV import of node-sqlite3 (src/import.c)

    A shallow embedding of the field tokenizer ([import_append_char],
    [csv_read_one_field], [ascii_read_one_field]) and of the loader
    [sqlite_import], followed by the properties of the specification and by
    further properties of the code.

    Conventions of the embedding.
    - A C [int] is a [Z]; the model covers runs in which no [int]
      overflows (fields and files below 2^30 bytes).
    - The input stream [FILE *in] is the list of the bytes not read yet;
      [fgetc] yields a byte 0..255 or [EOF].  The type of a stream does not
      exclude other numbers; where a property needs bytes it says so.
    - The field buffer [z] is [None] for the null pointer and otherwise the
      list of its bytes, whose length is the size of the allocation.  A
      byte is kept as its unsigned value; the code only compares a stored
      byte with the quote and with carriage return, which read the same
      under either signedness of [char].
    - What the code prints on stderr and what it asks of the database is
      recorded, in order, as a list of [event]s.  The database, the file
      system and the allocator are not part of the file; their answers are
      taken from the records [Db] and [World].
    - The loops of the tokenizer are written by recursion on the stream;
      those of the loader take a bound on their rounds, [fuel], and the
      section on termination shows which bound is enough. *)

From Stdlib Require Import ZArith Lia Bool.
From stdpp Require Import base numbers list.

Local Open Scope Z_scope.

(** ** Outcomes *)

(** A run either returns, or stops the process on a failed allocation
    ([exit(1)] in [import_append_char]), or touches memory outside the
    buffer, or exceeds the loop bound given to the model. *)
Inductive res (A : Type) : Type :=
| Ok (a : A)
| OutOfMemory
| OutOfBounds
| OutOfFuel.

Arguments Ok {A} a.
Arguments OutOfMemory {A}.
Arguments OutOfBounds {A}.
Arguments OutOfFuel {A}.

Definition rbind {A B} (m : res A) (f : A -> res B) : res B :=
  match m with
  | Ok a => f a
  | OutOfMemory => OutOfMemory
  | OutOfBounds => OutOfBounds
  | OutOfFuel => OutOfFuel
  end.

Global Instance res_bind : MBind res := fun A B f m => rbind m f.
Global Instance res_ret : MRet res := @Ok.

(** ** Characters *)

Definition EOF : Z := -1.
Definition QUOTE : Z := 34.      (* the double quote *)
Definition CR : Z := 13.         (* carriage return *)
Definition LF : Z := 10.         (* line feed *)
Definition COMMA : Z := 44.      (* comma *)
Definition PIPE : Z := 124.      (* vertical bar *)

(** [(char)c] *)
Definition to_char (c : Z) : Z := c mod 256.

(** The string that starts at a pointer: the bytes before the first NUL. *)
Fixpoint cstr (l : list Z) : list Z :=
  match l with
  | [] => []
  | b :: l' => if b =? 0 then [] else b :: cstr l'
  end.

(** ** Events *)

Inductive msg : Type :=
| Unescaped (q : Z)               (* unescaped %c character *)
| Unterminated (q : Z)            (* unterminated %c-quoted field *)
| ShortRow (nCol found : Z)       (* expected .. found .. filling the rest with NULL *)
| LongRow (nCol found : Z)        (* expected .. found .. extras ignored *)
| InsertFailed.                   (* INSERT failed: .. *)

Inductive fatal : Type :=
| ColSepEmpty | ColSepMulti | RowSepEmpty | RowSepMulti
| CannotOpen | NoMemory | EmptyFile | CreateFailed | PrepareFailed.

Inductive closer : Type := Fclose | Pclose.

Inductive event : Type :=
| Diag (file : list Z) (line : Z) (m : msg)   (* "<file>:<line>: <message>" *)
| Error (e : fatal)
| PrepareSelect
| CreateTable (cols : list (list Z))
| PrepareInsert (nCol : Z)
| FinalizeStmt
| Begin
| Commit
| BindText (i : Z) (v : option (list Z))
| BindNull (i : Z)
| StepStmt
| ResetStmt
| Open (c : closer)               (* fopen or popen gave a stream *)
| Close (c : closer)              (* xCloser(sCtx.in) *)
| Alloc                           (* import_append_char(&sCtx, 0) allocated sCtx.z *)
| FreeBuf.                        (* sqlite3_free(sCtx.z) *)

(** ** The reader context *)

Record ImportCtx : Type := mkCtx {
  zFile : list Z;          (* name of the input file *)
  inp : list Z;            (* [in]: the bytes of the stream not read yet *)
  z : option (list Z);     (* accumulated text for a field *)
  n : Z;                   (* number of bytes in z *)
  nAlloc : Z;              (* space allocated for z[] *)
  nLine : Z;               (* current line number *)
  cTerm : Z;               (* character that ended the most recent field *)
  cColSep : Z;             (* the column separator *)
  cRowSep : Z              (* the row separator *)
}.

Definition set_inp (p : ImportCtx) (s : list Z) : ImportCtx :=
  mkCtx (zFile p) s (z p) (n p) (nAlloc p) (nLine p) (cTerm p) (cColSep p) (cRowSep p).
Definition set_buf (p : ImportCtx) (b : option (list Z)) (k a : Z) : ImportCtx :=
  mkCtx (zFile p) (inp p) b k a (nLine p) (cTerm p) (cColSep p) (cRowSep p).
Definition set_n (p : ImportCtx) (k : Z) : ImportCtx :=
  mkCtx (zFile p) (inp p) (z p) k (nAlloc p) (nLine p) (cTerm p) (cColSep p) (cRowSep p).
Definition set_nLine (p : ImportCtx) (l : Z) : ImportCtx :=
  mkCtx (zFile p) (inp p) (z p) (n p) (nAlloc p) l (cTerm p) (cColSep p) (cRowSep p).
Definition set_cTerm (p : ImportCtx) (c : Z) : ImportCtx :=
  mkCtx (zFile p) (inp p) (z p) (n p) (nAlloc p) (nLine p) c (cColSep p) (cRowSep p).

(** [fgetc]: the next byte and the rest of the stream; at the end of the
    stream [EOF], again and again. *)
Definition fgetc (s : list Z) : Z * list Z :=
  match s with
  | [] => (EOF, [])
  | b :: s' => (b, s')
  end.

Section Tokenizer.

(** Whether [sqlite3_realloc64] grants a block of the given size, and the
    value of a byte that was allocated and never written. *)
Variable realloc_ok : Z -> bool.
Variable junk : Z.

(** [sqlite3_realloc64(z, size)]: the old bytes are kept up to [size]. *)
Definition realloc (b : option (list Z)) (size : Z) : list Z :=
  resize (Z.to_nat size) junk (match b with Some l => l | None => [] end).

(** [z[k] = c] *)
Definition put_at (b : option (list Z)) (k c : Z) : res (list Z) :=
  match b with
  | None => OutOfBounds
  | Some l =>
      if (0 <=? k) && (k <? Z.of_nat (length l))
      then Ok (<[Z.to_nat k := c]> l)
      else OutOfBounds
  end.

(** [z[k]] *)
Definition get_at (b : option (list Z)) (k : Z) : res Z :=
  match b with
  | None => OutOfBounds
  | Some l =>
      if 0 <=? k then
        match l !! Z.to_nat k with
        | Some c => Ok c
        | None => OutOfBounds
        end
      else OutOfBounds
  end.

(** Append a single byte to z[]. *)
Definition import_append_char (p : ImportCtx) (c : Z) : res ImportCtx :=
  p1 ← (if n p + 1 >=? nAlloc p then
              let a := nAlloc p + (nAlloc p + 100) in
              if realloc_ok a
              then Ok (set_buf p (Some (realloc (z p) a)) (n p) a)
              else OutOfMemory
            else Ok p);
  l ← put_at (z p1) (n p1) (to_char c);
  Ok (set_buf p1 (Some l) (n p1 + 1) (nAlloc p1)).

(** [do{ p->n--; }while( p->z[p->n]!=cQuote );] with [k] the value of
    [p->n] on entry: the index of the last quote below [k].  Walking below
    index 0 leaves the buffer. *)
Fixpoint back_to_quote (l : list Z) (k : nat) : res Z :=
  match k with
  | O => OutOfBounds
  | S k' =>
      match l !! k' with
      | None => OutOfBounds
      | Some b => if b =? QUOTE then Ok (Z.of_nat k') else back_to_quote l k'
      end
  end.

Definition strip_to_quote (p : ImportCtx) : res ImportCtx :=
  match z p with
  | None => OutOfBounds
  | Some l =>
      if 0 <=? n p
      then (k ← back_to_quote l (Z.to_nat (n p)); Ok (set_n p k))
      else OutOfBounds
  end.

(** One round of the [while( 1 )] loop for a quoted field, after
    [c = fgetc(p->in)]: the loop is left ([QBreak]) or goes on ([QNext])
    with new [pc] and [ppc]. *)
Inductive qstep : Type :=
| QBreak (p : ImportCtx) (d : list event)
| QNext (p : ImportCtx) (pc ppc : Z) (d : list event).

Definition quoted_step (p : ImportCtx) (startLine pc ppc c : Z) : res qstep :=
  let cSep := cColSep p in
  let rSep := cRowSep p in
  let cQuote := QUOTE in
  let p := if c =? rSep then set_nLine p (nLine p + 1) else p in
  if (c =? cQuote) && (pc =? cQuote) then Ok (QNext p 0 ppc [])
  else if ((c =? cSep) && (pc =? cQuote))
       || ((c =? rSep) && (pc =? cQuote))
       || ((c =? rSep) && (pc =? CR) && (ppc =? cQuote))
       || ((c =? EOF) && (pc =? cQuote))
  then (p' ← strip_to_quote p;
        Ok (QBreak (set_cTerm p' c) []))
  else
    let d := if (pc =? cQuote) && negb (c =? CR)
             then [Diag (zFile p) (nLine p) (Unescaped cQuote)] else [] in
    if c =? EOF
    then Ok (QBreak (set_cTerm p c)
                    (d ++ [Diag (zFile p) startLine (Unterminated cQuote)]))
    else
      p' ← import_append_char p c;
      Ok (QNext p' c pc d).

(** The loop itself, by recursion on the stream.  At the end of the stream
    [fgetc] gives [EOF], on which a round always leaves the loop (lemma
    [quoted_step_eof]); a further round there is marked [OutOfFuel], which
    the loop never yields (lemma [quoted_loop_fuel]). *)
Fixpoint quoted_loop (s : list Z) (p : ImportCtx) (startLine pc ppc : Z)
    (d : list event) : res (ImportCtx * list event) :=
  match s with
  | [] =>
      st ← quoted_step (set_inp p []) startLine pc ppc EOF;
      match st with
      | QBreak p' d' => Ok (p', d ++ d')
      | QNext _ _ _ _ => OutOfFuel
      end
  | c :: s' =>
      st ← quoted_step (set_inp p s') startLine pc ppc c;
      match st with
      | QBreak p' d' => Ok (p', d ++ d')
      | QNext p' pc' ppc' d' => quoted_loop s' p' startLine pc' ppc' (d ++ d')
      end
  end.

(** [while( c!=EOF && c!=cSep && c!=rSep ){ import_append_char(p, c);
    c = fgetc(p->in); }], by recursion on the stream; the result carries
    the last [c].  At the end of the stream [c] becomes [EOF] and the
    test fails. *)
Fixpoint unquoted_loop (s : list Z) (p : ImportCtx) (c : Z)
    : res (ImportCtx * Z) :=
  if negb (c =? EOF) && negb (c =? cColSep p) && negb (c =? cRowSep p) then
    (p' ← import_append_char p c;
     match s with
     | [] => Ok (set_inp p' [], EOF)
     | c' :: s' => unquoted_loop s' (set_inp p' s') c'
     end)
  else Ok (p, c).

(** [if( p->z ) p->z[p->n] = 0; return p->z;] *)
Definition terminate_field (p : ImportCtx) (d : list event)
    : res (option (list Z) * ImportCtx * list event) :=
  match z p with
  | None => Ok (None, p, d)
  | Some _ =>
      l ← put_at (z p) (n p) 0;
      Ok (Some (cstr l), set_buf p (Some l) (n p) (nAlloc p), d)
  end.

(** [if( p->n>0 && p->z[p->n-1]=='\r' ) p->n--;] *)
Definition strip_cr (p : ImportCtx) : res ImportCtx :=
  if n p >? 0 then
    b ← get_at (z p) (n p - 1);
    Ok (if b =? CR then set_n p (n p - 1) else p)
  else Ok p.

(** Read a single field of CSV text.  The result is the returned pointer:
    [None] for the null pointer, otherwise the string it points to. *)
Definition csv_read_one_field (seenInterrupt : bool) (p : ImportCtx)
    : res (option (list Z) * ImportCtx * list event) :=
  let cSep := cColSep p in
  let rSep := cRowSep p in
  let p := set_n p 0 in
  let '(c, s) := fgetc (inp p) in
  let p := set_inp p s in
  if (c =? EOF) || seenInterrupt then Ok (None, set_cTerm p EOF, [])
  else if c =? QUOTE then
    ('(p', d) ← quoted_loop s p (nLine p) 0 0 [];
     terminate_field p' d)
  else
    '(p1, c1) ← unquoted_loop s p c;
    p2 ← (if c1 =? rSep
          then strip_cr (set_nLine p1 (nLine p1 + 1))
          else Ok p1);
    terminate_field (set_cTerm p2 c1) [].

(** Read a single field of ASCII delimited text. *)
Definition ascii_read_one_field (seenInterrupt : bool) (p : ImportCtx)
    : res (option (list Z) * ImportCtx * list event) :=
  let cSep := cColSep p in
  let rSep := cRowSep p in
  let p := set_n p 0 in
  let '(c, s) := fgetc (inp p) in
  let p := set_inp p s in
  if (c =? EOF) || seenInterrupt then Ok (None, set_cTerm p EOF, [])
  else
    '(p', c') ← unquoted_loop s p c;
    let p' := if c' =? rSep then set_nLine p' (nLine p' + 1) else p' in
    terminate_field (set_cTerm p' c') [].

End Tokenizer.

(** ** The loader *)

(** The subset of ShellState used by the import code.  A [char[20]] array
    holds the bytes written to it, its string ending at the first NUL. *)
Record ShellState : Type := mkShell {
  mode : Z;
  colSeparator : list Z;
  rowSeparator : list Z
}.

Definition MODE_Csv : Z := 7.
Definition MODE_Ascii : Z := 9.

Definition SEP_Row : list Z := [LF].
Definition SEP_Comma : list Z := [COMMA].
Definition SEP_CrLf : list Z := [CR; LF].

(** [sqlite3_snprintf(size, buf, text)] for a text without conversions:
    at most [size-1] bytes and the closing NUL. *)
Definition snprintf (size : nat) (text : list Z) : list Z :=
  take (size - 1) (cstr text) ++ [0].

(** String length limited to the lower 30 bits. *)
Definition strlen30 (s : list Z) : Z :=
  Z.land 0x3fffffff (Z.of_nat (length (cstr s))).

(** [strcmp(a, b)==0] *)
Definition strcmp_eq (a b : list Z) : bool := bool_decide (cstr a = cstr b).

(** [s[0]] of a C string, for a byte below 128 *)
Definition first_char (s : list Z) : Z := hd 0 s.

Definition pipe_name : list Z := [60; 112; 105; 112; 101; 62].   (* <pipe> *)

(** The function behind [xRead]. *)
Inductive reader : Type := CsvReader | AsciiReader.

(** What the surroundings answer: the allocator and the file system. *)
Record World : Type := mkWorld {
  realloc_ok : Z -> bool;               (* sqlite3_realloc64 grants the size *)
  junk : Z;                             (* a byte never written *)
  fopen : list Z -> option (list Z);    (* the bytes of a file, if it opens *)
  popen : list Z -> option (list Z);    (* the output of a command *)
  mprintf_ok : bool;                    (* sqlite3_mprintf of the SELECT text *)
  malloc_ok : bool                      (* sqlite3_malloc64 of the INSERT text *)
}.

(** What the database answers. *)
Record Db : Type := mkDb {
  select_rc : Z;                   (* first sqlite3_prepare_v2 of the SELECT *)
  no_such_table : bool;            (* its message matches "no such table: *" *)
  create_rc : list (list Z) -> Z;  (* sqlite3_exec of CREATE TABLE *)
  reselect_rc : Z;                 (* the SELECT prepared again *)
  column_count : nat;              (* sqlite3_column_count *)
  insert_rc : Z;                   (* sqlite3_prepare_v2 of the INSERT *)
  autocommit : bool;               (* sqlite3_get_autocommit *)
  reset_rc : nat -> Z              (* sqlite3_reset after the k-th step *)
}.

Definition SQLITE_OK : Z := 0.

Section Loader.

Variable w : World.
Variable db : Db.

(** [seenInterrupt] is set to 0 when the import starts and nothing in the
    file sets it again. *)
Definition xRead (r : reader) (p : ImportCtx)
    : res (option (list Z) * ImportCtx * list event) :=
  match r with
  | CsvReader => csv_read_one_field (realloc_ok w) (junk w) false p
  | AsciiReader => ascii_read_one_field (realloc_ok w) (junk w) false p
  end.

(** [while( xRead(&sCtx) ){ ...column...; if( sCtx.cTerm!=sCtx.cColSep )
    break; }]: the column names of the table to create. *)
Fixpoint read_header (fuel : nat) (r : reader) (p : ImportCtx)
    (cols : list (list Z)) (tr : list event)
    : res (ImportCtx * list (list Z) * list event) :=
  match fuel with
  | O => OutOfFuel
  | S fuel' =>
      '(v, p', d) ← xRead r p;
      match v with
      | None => Ok (p', cols, tr ++ d)
      | Some name =>
          if negb (cTerm p' =? cColSep p')
          then Ok (p', cols ++ [name], tr ++ d)
          else read_header fuel' r p' (cols ++ [name]) (tr ++ d)
      end
  end.

(** [while( i<=nCol ){ sqlite3_bind_null(pStmt, i); i++; }] *)
Fixpoint bind_nulls (fuel : nat) (nCol i : Z) (tr : list event)
    : res (Z * list event) :=
  if i <=? nCol then
    match fuel with
    | O => OutOfFuel
    | S fuel' => bind_nulls fuel' nCol (i + 1) (tr ++ [BindNull i])
    end
  else Ok (i, tr).

(** [z==0 || z[0]==0] *)
Definition null_or_empty (v : option (list Z)) : bool :=
  match v with
  | None => true
  | Some [] => true
  | Some (_ :: _) => false
  end.

(** [for(i=0; i<nCol; i++){ ... }] of one row, entered at [i]; the result
    carries the value of [i] when the loop is left. *)
Fixpoint read_columns (fuel : nat) (md : Z) (r : reader) (nCol startLine : Z)
    (i : Z) (p : ImportCtx) (tr : list event)
    : res (Z * ImportCtx * list event) :=
  if i <? nCol then
    match fuel with
    | O => OutOfFuel
    | S fuel' =>
        '(v, p', d) ← xRead r p;
        let tr := tr ++ d in
        if bool_decide (v = None) && (i =? 0) then Ok (i, p', tr)
        else if (md =? MODE_Ascii) && null_or_empty v && (i =? 0)
        then Ok (i, p', tr)
        else
          let tr := tr ++ [BindText (i + 1) v] in
          if (i <? nCol - 1) && negb (cTerm p' =? cColSep p') then
            let tr := tr ++ [Diag (zFile p') startLine (ShortRow nCol (i + 1))] in
            '(i', tr) ← bind_nulls fuel' nCol (i + 2) tr;
            read_columns fuel' md r nCol startLine (i' + 1) p' tr
          else read_columns fuel' md r nCol startLine (i + 1) p' tr
    end
  else Ok (i, p, tr).

(** [do{ xRead(&sCtx); i++; }while( sCtx.cTerm==sCtx.cColSep );] *)
Fixpoint drain (fuel : nat) (r : reader) (i : Z) (p : ImportCtx)
    (tr : list event) : res (Z * ImportCtx * list event) :=
  match fuel with
  | O => OutOfFuel
  | S fuel' =>
      '(_, p', d) ← xRead r p;
      if cTerm p' =? cColSep p'
      then drain fuel' r (i + 1) p' (tr ++ d)
      else Ok (i + 1, p', tr ++ d)
  end.

(** The body of the [do{ ... }while( sCtx.cTerm!=EOF )] loop: one row.
    [k] counts the inserts stepped so far. *)
Definition import_row (fuel : nat) (md : Z) (r : reader) (nCol : Z)
    (k : nat) (p : ImportCtx) : res (ImportCtx * nat * list event) :=
  let startLine := nLine p in
  '(i, p, tr) ← read_columns fuel md r nCol startLine 0 p [];
  '(i, p, tr) ← (if cTerm p =? cColSep p then
                   '(i, p, tr) ← drain fuel r i p tr;
                   Ok (i, p, tr ++ [Diag (zFile p) startLine (LongRow nCol i)])
                 else Ok (i, p, tr));
  if i >=? nCol then
    let rc := reset_rc db k in
    Ok (p, S k,
        tr ++ [StepStmt; ResetStmt]
           ++ (if negb (rc =? SQLITE_OK)
               then [Diag (zFile p) startLine InsertFailed] else []))
  else Ok (p, k, tr).

Fixpoint row_loop (fuel : nat) (md : Z) (r : reader) (nCol : Z)
    (k : nat) (p : ImportCtx) (tr : list event)
    : res (ImportCtx * list event) :=
  match fuel with
  | O => OutOfFuel
  | S fuel' =>
      '(p', k', d) ← import_row fuel md r nCol k p;
      if negb (cTerm p' =? EOF)
      then row_loop fuel' md r nCol k' p' (tr ++ d)
      else Ok (p', tr ++ d)
  end.

(** [if( rc && sqlite3_strglob("no such table: *", ..)==0 ){ ... }]: when
    the SELECT failed for want of the table, the table is created with the
    fields of the first row as its columns and the SELECT is prepared
    again.  The result carries the status to return at once, if any, and
    the new [rc]. *)
Definition resolve_table (fuel : nat) (rd : reader) (xCloser : closer)
    (rc : Z) (sCtx : ImportCtx) (tr : list event)
    : res (option Z * Z * ImportCtx * list event) :=
  if negb (rc =? 0) && no_such_table db then
    '(sCtx, cols, tr) ← read_header fuel rd sCtx [] tr;
    match cols with
    | [] => Ok (Some 1, rc, sCtx,
                tr ++ [FreeBuf; Close xCloser; Error EmptyFile])
    | _ :: _ =>
        let rc := create_rc db cols in
        let tr := tr ++ [CreateTable cols] in
        if negb (rc =? 0)
        then Ok (Some 1, rc, sCtx,
                 tr ++ [Error CreateFailed; FreeBuf; Close xCloser])
        else Ok (None, reselect_rc db, sCtx, tr ++ [PrepareSelect])
    end
  else Ok (None, rc, sCtx, tr).

(** [sqlite_import] from [zSql = sqlite3_mprintf(..)] on: the stream is
    open, the reader [rd] and the closer are chosen, [sCtx] is set up. *)
Definition import_stream (fuel : nat) (md : Z) (rd : reader) (xCloser : closer)
    (sCtx : ImportCtx) : res (Z * list event) :=
  if negb (mprintf_ok w) then Ok (1, [Error NoMemory; Close xCloser]) else
  let rc := select_rc db in
  let tr := [PrepareSelect] in
  sCtx ← import_append_char (realloc_ok w) (junk w) sCtx 0;
  let tr := tr ++ [Alloc] in
  '(stop, rc, sCtx, tr) ← resolve_table fuel rd xCloser rc sCtx tr;
  match stop with
  | Some status => Ok (status, tr)
  | None =>
      if negb (rc =? 0)
      then Ok (1, tr ++ [Error PrepareFailed; Close xCloser]) else
      let nCol := Z.of_nat (column_count db) in
      let tr := tr ++ [FinalizeStmt] in
      if nCol =? 0 then Ok (0, tr) else
      if negb (malloc_ok w)
      then Ok (1, tr ++ [Error NoMemory; Close xCloser]) else
      let rc := insert_rc db in
      let tr := tr ++ [PrepareInsert nCol] in
      if negb (rc =? 0)
      then Ok (1, tr ++ [Error PrepareFailed; Close xCloser]) else
      let needCommit := autocommit db in
      let tr := if needCommit then tr ++ [Begin] else tr in
      '(sCtx, tr) ← row_loop fuel md rd nCol 0 sCtx tr;
      let tr := tr ++ [Close xCloser; FreeBuf; FinalizeStmt] in
      let tr := if needCommit then tr ++ [Commit] else tr in
      Ok (0, tr)
  end.

(** [popen(zFile+1)] for a name that starts with a vertical bar, else
    [fopen(zFile)]: the stream, the name used in messages, the closer.
    (The build without SQLITE_OMIT_POPEN.) *)
Definition open_stream (zFile0 : list Z)
    : option (list Z) * list Z * closer :=
  if first_char zFile0 =? PIPE
  then (popen w (tl zFile0), pipe_name, Pclose)
  else (fopen w zFile0, zFile0, Fclose).

(** [sqlite_import] from the point where the separators and the mode are
    set in [sh]; the result is the returned status and what was done. *)
Definition import_configured (fuel : nat) (sh : ShellState) (zFile0 : list Z)
    : res (Z * list event) :=
  let nSep := strlen30 (colSeparator sh) in
  if nSep =? 0 then Ok (1, [Error ColSepEmpty]) else
  if nSep >? 1 then Ok (1, [Error ColSepMulti]) else
  let nSep := strlen30 (rowSeparator sh) in
  if nSep =? 0 then Ok (1, [Error RowSepEmpty]) else
  let '(sh, nSep) :=
    if (nSep =? 2) && (mode sh =? MODE_Csv)
       && strcmp_eq (rowSeparator sh) SEP_CrLf
    then let sh' := mkShell (mode sh) (colSeparator sh) (snprintf 20 SEP_Row) in
         (sh', strlen30 (rowSeparator sh'))
    else (sh, nSep) in
  if nSep >? 1 then Ok (1, [Error RowSepMulti]) else
  let '(stream, name, xCloser) := open_stream zFile0 in
  let rd := if mode sh =? MODE_Ascii then AsciiReader else CsvReader in
  match stream with
  | None => Ok (1, [Error CannotOpen])
  | Some bytes =>
      let sCtx := mkCtx name bytes None 0 0 1 0
                        (first_char (colSeparator sh))
                        (first_char (rowSeparator sh)) in
      '(status, tr) ← import_stream fuel (mode sh) rd xCloser sCtx;
      Ok (status, Open xCloser :: tr)
  end.

(** [sqlite_import(db, zFile, zTable)].  The table name only enters the
    SQL text, which the database answers through [db]. *)
Definition sqlite_import (fuel : nat) (zFile0 : list Z) : res (Z * list event) :=
  import_configured fuel
    (mkShell MODE_Csv (snprintf 20 SEP_Comma) (snprintf 20 SEP_CrLf)) zFile0.

End Loader.

(** What is still held after the events [tr]: whether the stream is open
    and whether the field buffer is allocated. *)
Definition held_step (h : bool * bool) (e : event) : bool * bool :=
  match e with
  | Open _ => (true, snd h)
  | Close _ => (false, snd h)
  | Alloc => (fst h, true)
  | FreeBuf => (fst h, false)
  | _ => h
  end.

Definition held (tr : list event) : bool * bool :=
  fold_left held_step tr (false, false).

(** * Vocabulary of the properties *)

(** ** The buffer *)

(** The buffer of [p] holds the text [f] in its first [n] bytes and has
    room for one byte more. *)
Definition holds (p : ImportCtx) (f : list Z) : Prop :=
  exists l, z p = Some l /\ Z.of_nat (length l) = nAlloc p
            /\ n p = Z.of_nat (length f) /\ n p < nAlloc p
            /\ take (length f) l = f.

(** The buffer is allocated and [nAlloc] is its size. *)
Definition allocated (p : ImportCtx) : Prop :=
  exists l, z p = Some l /\ Z.of_nat (length l) = nAlloc p /\ 0 < nAlloc p.

(** Only the buffer differs. *)
Definition buffer_only (p p' : ImportCtx) : Prop :=
  zFile p' = zFile p /\ cColSep p' = cColSep p /\ cRowSep p' = cRowSep p
  /\ inp p' = inp p /\ nLine p' = nLine p /\ cTerm p' = cTerm p.

(** The buffer after a read that returned [v]. *)
Definition buffer_state (v : option (list Z)) (p p' : ImportCtx) : Prop :=
  allocated p' /\ 0 <= n p' <= nAlloc p'
  /\ match v with
     | Some _ => n p' < nAlloc p' /\ get_at (z p') (n p') = Ok 0
     | None => n p' = 0 /\ z p' = z p
     end.

(** ** Reads *)

(** The fields a read leaves alone. *)
Definition same_setup (p p' : ImportCtx) : Prop :=
  zFile p' = zFile p /\ cColSep p' = cColSep p /\ cRowSep p' = cRowSep p.

(** The context after [if( c==rSep ) p->nLine++;]. *)
Definition bump (p : ImportCtx) (c : Z) : ImportCtx :=
  if c =? cRowSep p then set_nLine p (nLine p + 1) else p.

(** What [pc] and [ppc] tell about the end of the text read so far. *)
Definition quote_inv (pc ppc : Z) (f : list Z) : Prop :=
  (pc = QUOTE -> exists g, f = g ++ [QUOTE])
  /\ (pc = CR -> ppc = QUOTE -> exists g, f = g ++ [QUOTE; CR]).

(** A read moves on in the stream, or the stream is at its end. *)
Definition read_progress (p p' : ImportCtx) : Prop :=
  (length (inp p') < length (inp p))%nat
  \/ (inp p = [] /\ inp p' = [] /\ cTerm p' = EOF).

(** Some of the stream was read, or the end of the stream was met. *)
Definition moved (p p' : ImportCtx) : Prop :=
  (length (inp p') < length (inp p))%nat
  \/ ((length (inp p') <= length (inp p))%nat /\ cTerm p' = EOF).

(** What a read leaves in the context: on the null pointer the buffer as
    it was with [n = 0]; otherwise a text with a NUL behind it. *)
Definition read_result (v : option (list Z)) (p p' : ImportCtx) : Prop :=
  match v with
  | None => cTerm p' = EOF /\ n p' = 0 /\ z p' = z p /\ nAlloc p' = nAlloc p
  | Some t => exists f, holds p' f /\ t = cstr f
                        /\ get_at (z p') (n p') = Ok 0
  end.

(** A diagnostic of the tokenizer: an unterminated field with the line
    [start], or an unescaped quote with a line from [lo] to [hi]. *)
Definition tokenizer_diag (file : list Z) (start lo hi : Z) (e : event) : Prop :=
  e = Diag file start (Unterminated QUOTE)
  \/ exists line, e = Diag file line (Unescaped QUOTE) /\ lo <= line <= hi.

(** [k] calls of the reader of CSV text, one after the other. *)
Fixpoint read_fields (w : World) (k : nat) (p : ImportCtx)
    : res (list (option (list Z)) * ImportCtx * list event) :=
  match k with
  | O => Ok ([], p, [])
  | S k' =>
      '(v, p1, d1) ← xRead w CsvReader p;
      '(vs, p2, d2) ← read_fields w k' p1;
      Ok (v :: vs, p2, d1 ++ d2)
  end.

(** ** Rows *)

(** The reads of one row: reads go on while the field read last ended at
    a column separator.  Each read is listed with the pointer it returned
    and what it printed. *)
Inductive row_reads (w : World) (r : reader)
  : ImportCtx -> list (option (list Z) * list event) -> ImportCtx -> Prop :=
| row_reads_last p v p' d :
    xRead w r p = Ok (v, p', d) ->
    cTerm p' <> cColSep p' ->
    row_reads w r p [(v, d)] p'
| row_reads_more p v p1 d rs p' :
    xRead w r p = Ok (v, p1, d) ->
    cTerm p1 = cColSep p1 ->
    row_reads w r p1 rs p' ->
    row_reads w r p ((v, d) :: rs) p'.

(** The pointer returned by the first read of a row. *)
Definition first_value (rs : list (option (list Z) * list event))
    : option (list Z) :=
  match rs with
  | [] => None
  | (v, _) :: _ => v
  end.

(** What the reads print and the binding of each value, from column
    [i + 1] on. *)
Fixpoint bind_events (i : Z) (rs : list (option (list Z) * list event))
    : list event :=
  match rs with
  | [] => []
  | (v, d) :: rs' => d ++ BindText (i + 1) v :: bind_events (i + 1) rs'
  end.

(** The events of the [for] loop and of the loop behind it for a row with
    the reads [rs], against [nCol] columns: too few fields, as many as
    columns, too many. *)
Definition row_events (file : list Z) (line nCol : Z)
    (rs : list (option (list Z) * list event)) : list event :=
  let m := Z.of_nat (length rs) in
  if m <? nCol then
    bind_events 0 rs
    ++ [Diag file line (ShortRow nCol m)]
    ++ map BindNull (seqZ (m + 1) (nCol - m))
  else if m =? nCol then bind_events 0 rs
  else
    bind_events 0 (take (Z.to_nat nCol) rs)
    ++ concat (map snd (drop (Z.to_nat nCol) rs))
    ++ [Diag file line (LongRow nCol m)].

(** The step of the insert, its reset, and the report of a failure. *)
Definition insert_events (file : list Z) (line rc : Z) : list event :=
  [StepStmt; ResetStmt]
  ++ (if negb (rc =? SQLITE_OK) then [Diag file line InsertFailed] else []).

(** The messages of the loader, as against those of the tokenizer. *)
Definition loader_msg (m : msg) : bool :=
  match m with
  | ShortRow _ _ | LongRow _ _ | InsertFailed => true
  | Unescaped _ | Unterminated _ => false
  end.

(** An event of a row that began on line [start] and ended on line
    [last]: a diagnostic of the loader carries [start], one of the
    tokenizer a line from [start] to [last]. *)
Definition row_event_ok (file : list Z) (start last : Z) (e : event) : Prop :=
  match e with
  | Diag f line m =>
      f = file /\ (if loader_msg m then line = start
                   else start <= line <= last)
  | _ => True
  end.

(** The lines of the diagnostics among the events. *)
Definition diag_lines (tr : list event) : list Z :=
  omap (fun e => match e with Diag _ line _ => Some line | _ => None end) tr.

(** ** CSV text *)

(** A field as it is written: bare, or between quotes. *)
Inductive field : Type :=
| Bare (t : list Z)
| Quoted (t : list Z).

(** The value of a field. *)
Definition text (fd : field) : list Z :=
  match fd with Bare t => t | Quoted t => t end.

(** Every quote of the text written twice. *)
Fixpoint escape (t : list Z) : list Z :=
  match t with
  | [] => []
  | b :: t' => if b =? QUOTE then QUOTE :: QUOTE :: escape t'
               else b :: escape t'
  end.

(** A field as bytes of the stream. *)
Definition encode_field (fd : field) : list Z :=
  match fd with
  | Bare t => t
  | Quoted t => QUOTE :: escape t ++ [QUOTE]
  end.

(** The fields of a row with the column separator between them. *)
Fixpoint encode_row (cSep : Z) (fds : list field) : list Z :=
  match fds with
  | [] => []
  | [fd] => encode_field fd
  | fd :: fds' => encode_field fd ++ cSep :: encode_row cSep fds'
  end.

(** How a row ends: the row separator, carriage return and the row
    separator, or the end of the stream. *)
Inductive row_end : Type := EndRowSep | EndCrLf | EndStream.

(** The bytes that end the row, and the terminator the reader stores for
    the last field. *)
Definition end_bytes (rSep : Z) (e : row_end) : list Z :=
  match e with
  | EndRowSep => [rSep]
  | EndCrLf => [CR; rSep]
  | EndStream => []
  end.

Definition end_term (rSep : Z) (e : row_end) : Z :=
  match e with
  | EndStream => EOF
  | _ => rSep
  end.

(** A byte of text: not NUL. *)
Definition text_byte (b : Z) : Prop := 0 < b < 256.

(** A bare field has no separator and no carriage return in it and does
    not begin with a quote; a quoted field holds any text. *)
Definition wf_field (cSep rSep : Z) (fd : field) : Prop :=
  match fd with
  | Bare t =>
      Forall (fun b => text_byte b /\ b <> cSep /\ b <> rSep /\ b <> CR) t
      /\ hd 0 t <> QUOTE
  | Quoted t => Forall text_byte t
  end.

(** Separators that are told apart from each other, from the quote, from
    carriage return and from the end of the stream. *)
Definition wf_seps (cSep rSep : Z) : Prop :=
  cSep <> rSep /\ cSep <> QUOTE /\ rSep <> QUOTE
  /\ cSep <> CR /\ rSep <> CR /\ cSep <> EOF /\ rSep <> EOF.

(** What comes behind a field in the stream, the terminator the reader
    stores for it, and the stream left after it. *)
Inductive follows (cSep rSep : Z) : list Z -> Z -> list Z -> Prop :=
| follows_col rest : follows cSep rSep (cSep :: rest) cSep rest
| follows_row rest : follows cSep rSep (rSep :: rest) rSep rest
| follows_crlf rest : follows cSep rSep (CR :: rSep :: rest) rSep rest
| follows_eof : follows cSep rSep [] EOF [].

(** The pointer returned for a bare field: null when the stream ends
    where the field would begin. *)
Definition bare_value (t : list Z) (c : Z) : option (list Z) :=
  match t with
  | [] => if c =? EOF then None else Some []
  | _ :: _ => Some t
  end.

(** The pointer returned for a field that ends with the terminator [c]. *)
Definition field_value (fd : field) (c : Z) : option (list Z) :=
  match fd with
  | Bare t => bare_value t c
  | Quoted t => Some t
  end.

(** The pointers returned for the fields of a row. *)
Fixpoint row_values (rSep : Z) (fds : list field) (e : row_end)
    : list (option (list Z)) :=
  match fds with
  | [] => []
  | [fd] => [field_value fd (end_term rSep e)]
  | fd :: fds' => Some (text fd) :: row_values rSep fds' e
  end.

(** A read that printed nothing. *)
Definition silent (v : option (list Z)) : option (list Z) * list event :=
  (v, []).

(** ** Worlds of the examples *)

(** The reader context with which the import starts on an open stream. *)
Definition start_ctx (name bytes : list Z) : ImportCtx :=
  mkCtx name bytes None 0 0 1 0 COMMA LF.

(** A world that grants every allocation and opens every file on the
    given bytes, a database with a table of [nc] columns whose inserts
    fail or not, and a reader context with its buffer allocated. *)
Definition example_world (bytes : list Z) : World :=
  mkWorld (fun _ => true) 0 (fun _ => Some bytes) (fun _ => None) true true.

Definition example_db (nc : nat) (failing : bool) : Db :=
  mkDb 0 false (fun _ => 0) 0 nc 0 true (fun _ => if failing then 1 else 0).

Definition example_ctx (bytes : list Z) : ImportCtx :=
  mkCtx [] bytes (Some (replicate 100 0)) 0 100 1 0 COMMA LF.

(** ** The stream and the lines *)

(** How many bytes of [l] are the row separator. *)
Fixpoint count_sep (rSep : Z) (l : list Z) : Z :=
  match l with
  | [] => 0
  | b :: l' => (if b =? rSep then 1 else 0) + count_sep rSep l'
  end.

(** What a read from [p] to [p'] took from the stream: the bytes [pre],
    the last of which is the terminator unless the stream ended. *)
Definition consumed (p p' : ImportCtx) (pre : list Z) : Prop :=
  inp p = pre ++ inp p'
  /\ (cTerm p' = EOF -> inp p' = [])
  /\ (cTerm p' <> EOF -> last pre = Some (cTerm p')).

(** ** Unescaped quotes *)



(** ** Allocation *)

(** The allocator that grants every request. *)
Definition granting : Z -> bool := fun _ => true.

(** The run [m] stops on a refused allocation, or goes as the run [m']. *)
Definition refused_or {A} (m m' : res A) : Prop := m = OutOfMemory \/ m = m'.

(** ** Bare fields *)

(** The text without a carriage return at its end. *)
Fixpoint strip_last_cr (t : list Z) : list Z :=
  match t with
  | [] => []
  | [b] => if b =? CR then [] else [b]
  | b :: t' => b :: strip_last_cr t'
  end.

(** What can stand behind a bare field: a separator, or nothing when the
    stream ends. *)
Definition at_separator (cSep rSep : Z) (tail : list Z) : Prop :=
  match tail with
  | [] => True
  | x :: _ => x = cSep \/ x = rSep
  end.

(** A byte of a bare field: not NUL and not a separator. *)
Definition bare_byte (cSep rSep : Z) (b : Z) : Prop :=
  0 < b < 256 /\ b <> cSep /\ b <> rSep.

(** ** Files *)

(** The rows of a file, each with its end, as bytes of the stream. *)
Fixpoint encode_rows (cSep rSep : Z) (rows : list (list field * row_end))
    : list Z :=
  match rows with
  | [] => []
  | (fds, e) :: rows' =>
      encode_row cSep fds ++ end_bytes rSep e ++ encode_rows cSep rSep rows'
  end.

(** Rows of well-formed fields; only the last row may be ended by the end
    of the stream, and then it is not empty. *)
Fixpoint wf_rows (cSep rSep : Z) (rows : list (list field * row_end))
    : Prop :=
  match rows with
  | [] => True
  | (fds, e) :: rows' =>
      fds <> [] /\ Forall (wf_field cSep rSep) fds
      /\ (e = EndStream -> rows' = [] /\ fds <> [Bare []])
      /\ wf_rows cSep rSep rows'
  end.

(** What the row loop does for the rows of a file against [nCol] columns:
    for each row the events of its fields and of its insert.  [k] counts
    the inserts and [line] the lines before the row. *)
Fixpoint file_events (db : Db) (file : list Z) (cSep rSep nCol : Z)
    (k : nat) (line : Z) (rows : list (list field * row_end)) : list event :=
  match rows with
  | [] => []
  | (fds, e) :: rows' =>
      row_events file line nCol (map silent (row_values rSep fds e))
      ++ insert_events file line (reset_rc db k)
      ++ file_events db file cSep rSep nCol (S k)
           (line + count_sep rSep (encode_row cSep fds ++ end_bytes rSep e))
           rows'
  end.

(** ** Kinds of events *)

(** The events of a row: binds, the step and the reset of the insert,
    diagnostics. *)
Definition row_event (e : event) : bool :=
  match e with
  | Diag _ _ _ | BindText _ _ | BindNull _ | StepStmt | ResetStmt => true
  | _ => false
  end.

Definition is_diag (e : event) : bool :=
  match e with Diag _ _ _ => true | _ => false end.

Definition is_error (e : event) : bool :=
  match e with Error _ => true | _ => false end.

(** The events of the transaction and of the inserts in it. *)
Definition txn_event (e : event) : bool :=
  match e with Begin | Commit | StepStmt => true | _ => false end.

(** The events of the stream. *)
Definition stream_event (e : event) : bool :=
  match e with Open _ | Close _ => true | _ => false end.

(** The events of the field buffer. *)
Definition buffer_event (e : event) : bool :=
  match e with Alloc | FreeBuf => true | _ => false end.

(** The world in which every allocation of the field buffer is granted. *)
Definition grant (w : World) : World :=
  mkWorld granting (junk w) (fopen w) (popen w) (mprintf_ok w) (malloc_ok w).

(** ** The traces of the import *)

(** The events up to the point where the SELECT is prepared for good: the
    table was there, or it was created from the first row.  [dh] is what
    the tokenizer printed while the first row was read. *)
Inductive table_resolved : list event -> Prop :=
| resolved_found : table_resolved [PrepareSelect; Alloc]
| resolved_created dh cols :
    Forall (fun e => is_diag e = true) dh ->
    table_resolved ([PrepareSelect; Alloc] ++ dh
                    ++ [CreateTable cols; PrepareSelect]).

(** The events from there on, with the status returned. *)
Inductive after_select (db : Db) (c : closer) : Z -> list event -> Prop :=
| after_prepare_failed :
    after_select db c 1 [Error PrepareFailed; Close c]
| after_no_columns :
    column_count db = O ->
    after_select db c 0 [FinalizeStmt]
| after_no_memory :
    after_select db c 1 [FinalizeStmt; Error NoMemory; Close c]
| after_insert_failed :
    after_select db c 1
      [FinalizeStmt; PrepareInsert (Z.of_nat (column_count db));
       Error PrepareFailed; Close c]
| after_rows rows :
    Forall (fun e => row_event e = true) rows ->
    column_count db <> O ->
    after_select db c 0
      ([FinalizeStmt; PrepareInsert (Z.of_nat (column_count db))]
       ++ (if autocommit db then [Begin] else [])
       ++ rows
       ++ [Close c; FreeBuf; FinalizeStmt]
       ++ (if autocommit db then [Commit] else [])).

(** The traces of the import on an open stream, by the place at which it
    returns. *)
Inductive import_trace (db : Db) (c : closer) : Z -> list event -> Prop :=
| trace_no_memory :
    import_trace db c 1 [Error NoMemory; Close c]
| trace_empty_file dh :
    Forall (fun e => is_diag e = true) dh ->
    import_trace db c 1
      ([PrepareSelect; Alloc] ++ dh ++ [FreeBuf; Close c; Error EmptyFile])
| trace_create_failed dh cols :
    Forall (fun e => is_diag e = true) dh ->
    import_trace db c 1
      ([PrepareSelect; Alloc] ++ dh
       ++ [CreateTable cols; Error CreateFailed; FreeBuf; Close c])
| trace_prepared pre status tl :
    table_resolved pre -> after_select db c status tl ->
    import_trace db c status (pre ++ tl).

(** The events that change the rows of the table or the transaction. *)
Definition touches_rows (e : event) : bool :=
  match e with
  | BindText _ _ | BindNull _ | StepStmt | ResetStmt | Begin | Commit => true
  | _ => false
  end.

(** The closer that goes with the name of the file: a name that begins
    with a vertical bar is a command. *)
Definition closer_of (zFile0 : list Z) : closer :=
  if first_char zFile0 =? PIPE then Pclose else Fclose.

(** The reader context before the first append: no buffer yet. *)
Definition no_buffer (p : ImportCtx) : Prop :=
  z p = None /\ n p = 0 /\ nAlloc p = 0.

(** ** Diagnostics *)

(** A diagnostic names the file [file] and a line from [lo] on. *)
Definition diag_from (file : list Z) (lo : Z) (e : event) : Prop :=
  match e with
  | Diag f line _ => f = file /\ lo <= line
  | _ => True
  end.

(** The name of the input in the messages. *)
Definition message_name (zFile0 : list Z) : list Z :=
  if first_char zFile0 =? PIPE then pipe_name else zFile0.

(** * Proofs *)

(** ** The buffer *)

Lemma rbind_ok {A B} (m : res A) (f : A -> res B) (b : B) :
  m ≫= f = Ok b -> exists a, m = Ok a /\ f a = Ok b.
Proof. destruct m; simpl; intros H; try discriminate. eauto. Qed.

Lemma holds_reset p : allocated p -> holds (set_n p 0) [].
Proof.
  intros (l & Hz & Hl & Ha). exists l. simpl. repeat split; auto.
Qed.

Lemma holds_allocated p f : holds p f -> allocated p.
Proof.
  intros (l & Hz & Hl & Hn & Hlt & _). exists l. repeat split; auto. lia.
Qed.

Ltac ctx_simpl :=
  cbn [mbind res_bind rbind zFile inp z n nAlloc nLine cTerm cColSep cRowSep
       set_inp set_buf set_n set_nLine set_cTerm fst snd] in *.

Lemma take_insert_snoc (l : list Z) (k : nat) (x : Z) :
  (k < length l)%nat -> take (S k) (<[k:=x]> l) = take k l ++ [x].
Proof.
  intros Hk. rewrite (take_S_r _ _ x) by (apply list_lookup_insert_eq; lia).
  rewrite take_insert_ge by lia. reflexivity.
Qed.

Lemma store_snoc (l f : list Z) (c : Z) :
  take (length f) l = f -> (length f < length l)%nat ->
  exists l', put_at (Some l) (Z.of_nat (length f)) c = Ok l'
             /\ take (length (f ++ [c])) l' = f ++ [c]
             /\ length l' = length l
             /\ l' !! length f = Some c.
Proof.
  intros Hf Hlt. unfold put_at.
  assert (Hin : (0 <=? Z.of_nat (length f))
                && (Z.of_nat (length f) <? Z.of_nat (length l)) = true).
  { apply andb_true_iff. split; [apply Z.leb_le | apply Z.ltb_lt]; lia. }
  rewrite Hin, Nat2Z.id. eexists. split; [reflexivity|].
  rewrite length_app, length_insert. simpl.
  replace (length f + 1)%nat with (S (length f)) by lia.
  rewrite take_insert_snoc, Hf by lia.
  repeat split. apply list_lookup_insert_eq. lia.
Qed.

Section Memory.

Variable ok : Z -> bool.
Variable junk : Z.
Hypothesis granted : forall size, ok size = true.

Lemma append_holds p f c :
  holds p f ->
  exists l a,
    import_append_char ok junk p c = Ok (set_buf p (Some l) (n p + 1) a)
    /\ holds (set_buf p (Some l) (n p + 1) a) (f ++ [to_char c])
    /\ (a = nAlloc p \/ (n p + 1 >= nAlloc p /\ a = 2 * nAlloc p + 100)).
Proof.
  intros (l & Hz & Hl & Hn & Hlt & Hf).
  unfold import_append_char.
  destruct (n p + 1 >=? nAlloc p) eqn:Hge.
  - rewrite granted. unfold realloc. rewrite Hz. ctx_simpl.
    set (a := nAlloc p + (nAlloc p + 100)).
    set (l1 := resize (Z.to_nat a) junk l).
    assert (Hla : length l1 = Z.to_nat a) by apply length_resize.
    destruct (store_snoc l1 f (to_char c)) as (l' & Hst & Htk & Hlen & _).
    { unfold l1. rewrite take_resize_le, resize_le by lia. exact Hf. }
    { lia. }
    rewrite Hn, Hst. ctx_simpl.
    exists l', a. split; [reflexivity|]. split.
    + exists l'. ctx_simpl.
      split; [reflexivity|]. split; [lia|].
      split; [rewrite length_app; simpl; lia|]. split; [lia|exact Htk].
    + right. split; [|lia]. apply Z.geb_le in Hge. lia.
  - ctx_simpl. rewrite Hz.
    destruct (store_snoc l f (to_char c)) as (l' & Hst & Htk & Hlen & _);
      [exact Hf | lia |].
    rewrite Hn, Hst. ctx_simpl.
    exists l', (nAlloc p). split; [reflexivity|]. split; [|left; reflexivity].
    rewrite Z.geb_leb in Hge. apply Z.leb_gt in Hge.
    exists l'. ctx_simpl.
    split; [reflexivity|]. split; [lia|].
    split; [rewrite length_app; simpl; lia|]. split; [lia|exact Htk].
Qed.

Lemma cstr_app_nul (f rest : list Z) : cstr (f ++ 0 :: rest) = cstr f.
Proof.
  induction f as [|b f IH]; simpl; [reflexivity|].
  destruct (b =? 0); [reflexivity|]. now rewrite IH.
Qed.

Lemma cstr_id (f : list Z) : Forall (fun b => b <> 0) f -> cstr f = f.
Proof.
  induction 1 as [|b f Hb _ IH]; simpl; [reflexivity|].
  destruct (Z.eqb_spec b 0); [contradiction|]. now rewrite IH.
Qed.

(** [if( p->z ) p->z[p->n] = 0; return p->z;] on a buffer that holds [f] *)
Lemma terminate_holds p f d :
  holds p f ->
  exists l,
    terminate_field p d
      = Ok (Some (cstr f), set_buf p (Some l) (n p) (nAlloc p), d)
    /\ holds (set_buf p (Some l) (n p) (nAlloc p)) f
    /\ get_at (Some l) (n p) = Ok 0.
Proof.
  intros (l & Hz & Hl & Hn & Hlt & Hf).
  unfold terminate_field. rewrite Hz.
  destruct (store_snoc l f 0) as (l' & Hst & Htk & Hlen & Hat);
    [exact Hf | lia |].
  rewrite Hn, Hst. ctx_simpl. exists l'.
  assert (Hc : cstr l' = cstr f).
  { rewrite <- (take_drop (length (f ++ [0])) l'), Htk, <- app_assoc.
    simpl. apply cstr_app_nul. }
  rewrite Hc. split; [reflexivity|]. split.
  - exists l'. ctx_simpl. split; [reflexivity|]. split; [lia|].
    split; [lia|]. split; [lia|].
    transitivity (take (length f) (take (length (f ++ [0])) l')).
    + rewrite take_take. f_equal. rewrite length_app. simpl. lia.
    + rewrite Htk. apply take_app_length.
  - unfold get_at.
    destruct (Z.leb_spec 0 (Z.of_nat (length f))); [|lia].
    now rewrite Nat2Z.id, Hat.
Qed.

Lemma back_to_quote_spec (l f g : list Z) :
  Forall (fun b => b <> QUOTE) g ->
  take (length (f ++ QUOTE :: g)) l = f ++ QUOTE :: g ->
  back_to_quote l (length (f ++ QUOTE :: g)) = Ok (Z.of_nat (length f)).
Proof.
  induction g as [|b g IH] using rev_ind; intros Hg Htk.
  - rewrite length_app in *. simpl length in *.
    replace (length f + 1)%nat with (S (length f)) in * by lia.
    simpl.
    assert (Hat : l !! length f = Some QUOTE).
    { rewrite <- (lookup_take_lt l (S (length f))) by lia.
      rewrite Htk. apply list_lookup_middle. reflexivity. }
    rewrite Hat. reflexivity.
  - apply Forall_app in Hg as [Hg Hb]. inversion Hb as [|? ? Hb' _]; subst.
    assert (Hlen : length (f ++ QUOTE :: g ++ [b])
                   = S (length (f ++ QUOTE :: g))).
    { rewrite !length_app. simpl. rewrite length_app. simpl. lia. }
    rewrite Hlen in *. simpl.
    assert (Hat : l !! length (f ++ QUOTE :: g) = Some b).
    { rewrite <- (lookup_take_lt l (S (length (f ++ QUOTE :: g)))) by lia.
      rewrite Htk.
      replace (f ++ QUOTE :: g ++ [b]) with ((f ++ QUOTE :: g) ++ [b])
        by (rewrite <- app_assoc; reflexivity).
      apply list_lookup_middle. reflexivity. }
    rewrite Hat. destruct (Z.eqb_spec b QUOTE); [contradiction|].
    apply IH; [exact Hg|].
    transitivity (take (length (f ++ QUOTE :: g))
                       (take (S (length (f ++ QUOTE :: g))) l)).
    + rewrite take_take. f_equal. lia.
    + rewrite Htk.
      replace (f ++ QUOTE :: g ++ [b]) with ((f ++ QUOTE :: g) ++ [b])
        by (rewrite <- app_assoc; reflexivity).
      apply take_app_length.
Qed.

(** [do{ p->n--; }while( p->z[p->n]!=cQuote );] on a text that ends in a
    quote and bytes that are not *)
Lemma strip_holds p f g :
  holds p (f ++ QUOTE :: g) -> Forall (fun b => b <> QUOTE) g ->
  strip_to_quote p = Ok (set_n p (Z.of_nat (length f)))
  /\ holds (set_n p (Z.of_nat (length f))) f.
Proof.
  intros (l & Hz & Hl & Hn & Hlt & Hf) Hg.
  unfold strip_to_quote. rewrite Hz.
  destruct (Z.leb_spec 0 (n p)); [|lia].
  rewrite Hn, Nat2Z.id, (back_to_quote_spec l f g Hg Hf). ctx_simpl.
  split; [reflexivity|].
  exists l. ctx_simpl. split; [exact Hz|]. split; [lia|].
  split; [reflexivity|].
  assert (length f < length (f ++ QUOTE :: g))%nat
    by (rewrite length_app; simpl; lia).
  split; [lia|].
  transitivity (take (length f) (take (length (f ++ QUOTE :: g)) l)).
  - rewrite take_take. f_equal. lia.
  - rewrite Hf. apply take_app_length.
Qed.

(** *** Every read returns *)

Lemma holds_set_nLine p f k : holds p f -> holds (set_nLine p k) f.
Proof. intros (l & H). exists l. exact H. Qed.

Lemma holds_set_cTerm p f c : holds p f -> holds (set_cTerm p c) f.
Proof. intros (l & H). exists l. exact H. Qed.

Lemma holds_set_inp p f s : holds p f -> holds (set_inp p s) f.
Proof. intros (l & H). exists l. exact H. Qed.

Lemma holds_bump p f c : holds p f -> holds (bump p c) f.
Proof. unfold bump. destruct (c =? cRowSep p); auto using holds_set_nLine. Qed.

Lemma bump_setup p c :
  zFile (bump p c) = zFile p /\ cColSep (bump p c) = cColSep p
  /\ cRowSep (bump p c) = cRowSep p /\ inp (bump p c) = inp p
  /\ nLine p <= nLine (bump p c) <= nLine p + 1.
Proof. unfold bump. destruct (c =? cRowSep p); simpl; repeat split; lia. Qed.

Lemma quoted_step_total p startLine pc ppc c f :
  holds p f -> quote_inv pc ppc f ->
  exists st, quoted_step ok junk p startLine pc ppc c = Ok st /\
    match st with
    | QBreak p' _ =>
        (exists f', holds p' f') /\ same_setup p p' /\ inp p' = inp p
        /\ cTerm p' = c
    | QNext p' pc' ppc' _ =>
        (exists f', holds p' f' /\ quote_inv pc' ppc' f')
        /\ same_setup p p' /\ inp p' = inp p /\ c <> EOF
    end.
Proof.
  intros Hh [Hq Hcr]. unfold quoted_step. cbv zeta. fold (bump p c).
  pose proof (holds_bump p f c Hh) as Hb.
  destruct (bump_setup p c) as (Ef & Ec & Er & Ei & _).
  destruct ((c =? QUOTE) && (pc =? QUOTE)) eqn:Hdq.
  { eexists. split; [reflexivity|]. simpl.
    apply andb_true_iff in Hdq as [Hc _]. apply Z.eqb_eq in Hc.
    repeat split; auto.
    - exists f. split; [exact Hb|]. split; intros; discriminate.
    - subst c. discriminate. }
  match goal with |- context [if ?b then _ else _] => destruct b eqn:Hterm end.
  { assert (Hcase : pc = QUOTE \/ (pc = CR /\ ppc = QUOTE)).
    { repeat (apply orb_true_iff in Hterm as [Hterm|Hterm]);
        repeat (apply andb_true_iff in Hterm as [Hterm ?]);
        repeat match goal with H : (_ =? _) = true |- _ =>
                 apply Z.eqb_eq in H end; auto. }
    assert (Hs : exists g t, f = g ++ QUOTE :: t
                             /\ Forall (fun b => b <> QUOTE) t).
    { destruct Hcase as [Hp|[Hp Hpp]].
      - destruct (Hq Hp) as [g ->]. exists g, []. split; [reflexivity|constructor].
      - destruct (Hcr Hp Hpp) as [g ->]. exists g, [CR]. split; [reflexivity|].
        repeat constructor. discriminate. }
    destruct Hs as (g & t & -> & Ht).
    destruct (strip_holds (bump p c) g t Hb Ht) as [Hst Hh'].
    rewrite Hst. ctx_simpl. eexists. split; [reflexivity|]. simpl.
    repeat split; auto.
    exists g. apply holds_set_cTerm. exact Hh'. }
  destruct (c =? EOF) eqn:Heof.
  { eexists. split; [reflexivity|]. simpl. repeat split; auto.
    exists f. apply holds_set_cTerm. exact Hb. }
  destruct (append_holds (bump p c) f c Hb) as (l & a & Hap & Hh' & _).
  rewrite Hap. ctx_simpl. eexists. split; [reflexivity|]. simpl.
  repeat split; auto.
  - exists (f ++ [to_char c]). split; [exact Hh'|]. split.
    + intros ->. exists f. reflexivity.
    + intros -> Hp. destruct (Hq Hp) as [g ->]. exists g.
      rewrite <- app_assoc. reflexivity.
  - intros ->. discriminate.
Qed.

Lemma quoted_loop_total s : forall p startLine pc ppc d f,
  holds p f -> quote_inv pc ppc f ->
  exists p' d' f',
    quoted_loop ok junk s p startLine pc ppc d = Ok (p', d')
    /\ holds p' f' /\ same_setup p p'
    /\ (length (inp p') <= length s)%nat.
Proof.
  induction s as [|c s IH]; intros p startLine pc ppc d f Hh Hq; simpl.
  - destruct (quoted_step_total (set_inp p []) startLine pc ppc EOF f)
      as (st & Hst & Hpost); [apply holds_set_inp; exact Hh | exact Hq |].
    rewrite Hst. ctx_simpl. destruct st as [p' d'|p' pc' ppc' d'].
    + destruct Hpost as ((f' & Hh') & Hs & Hi & _).
      exists p', (d ++ d'), f'. split; [reflexivity|]. split; [exact Hh'|].
      split; [exact Hs|]. rewrite Hi. simpl. lia.
    + destruct Hpost as (_ & _ & _ & Hne). contradiction.
  - destruct (quoted_step_total (set_inp p s) startLine pc ppc c f)
      as (st & Hst & Hpost); [apply holds_set_inp; exact Hh | exact Hq |].
    rewrite Hst. ctx_simpl. destruct st as [p' d'|p' pc' ppc' d'].
    + destruct Hpost as ((f' & Hh') & Hs & Hi & _).
      exists p', (d ++ d'), f'. split; [reflexivity|]. split; [exact Hh'|].
      split; [exact Hs|]. rewrite Hi. simpl. lia.
    + destruct Hpost as ((f' & Hh' & Hq') & Hs & Hi & _).
      destruct (IH p' startLine pc' ppc' (d ++ d') f' Hh' Hq')
        as (p2 & d2 & f2 & Hl & Hh2 & Hs2 & Hlen).
      exists p2, d2, f2. split; [exact Hl|]. split; [exact Hh2|].
      split; [|lia].
      unfold same_setup in *. ctx_simpl. intuition congruence.
Qed.

Lemma unquoted_loop_total s : forall p c f,
  holds p f -> inp p = s ->
  exists p' c' f',
    unquoted_loop ok junk s p c = Ok (p', c')
    /\ holds p' f' /\ same_setup p p' /\ nLine p' = nLine p
    /\ (length (inp p') <= length s)%nat.
Proof.
  induction s as [|c0 s IH]; intros p c f Hh Hi; simpl.
  - destruct (negb (c =? EOF) && negb (c =? cColSep p)
              && negb (c =? cRowSep p)).
    + destruct (append_holds p f c Hh) as (l & a & Hap & Hh' & _).
      rewrite Hap. ctx_simpl. eexists _, _, _. split; [reflexivity|].
      split; [apply holds_set_inp; exact Hh'|]. repeat split. simpl. lia.
    + exists p, c, f. rewrite Hi. repeat split; auto.
  - destruct (negb (c =? EOF) && negb (c =? cColSep p)
              && negb (c =? cRowSep p)).
    + destruct (append_holds p f c Hh) as (l & a & Hap & Hh' & _).
      rewrite Hap. ctx_simpl.
      destruct (IH (set_inp (set_buf p (Some l) (n p + 1) a) s) c0
                   (f ++ [to_char c]))
        as (p2 & c2 & f2 & Hl & Hh2 & Hs2 & Hn2 & Hlen);
        [apply holds_set_inp; exact Hh' | reflexivity |].
      exists p2, c2, f2. split; [exact Hl|]. split; [exact Hh2|].
      split; [exact Hs2|]. split; [exact Hn2|]. lia.
    + exists p, c, f. rewrite Hi. repeat split; auto.
Qed.

Lemma strip_cr_holds p f :
  holds p f ->
  exists p' f', strip_cr p = Ok p' /\ holds p' f'
                /\ same_setup p p' /\ inp p' = inp p /\ nLine p' = nLine p
                /\ cTerm p' = cTerm p.
Proof.
  intros Hh. unfold strip_cr. destruct (n p >? 0) eqn:Hpos.
  2:{ exists p, f. repeat split; auto. }
  destruct Hh as (l & Hz & Hl1 & Hn & Hlt & Hf).
  apply Z.gtb_lt in Hpos. unfold get_at. rewrite Hz.
  destruct (Z.leb_spec 0 (n p - 1)); [|lia].
  destruct (lookup_lt_is_Some_2 l (Z.to_nat (n p - 1))) as [b Hb]; [lia|].
  rewrite Hb. ctx_simpl. destruct (b =? CR).
  - exists (set_n p (n p - 1)), (take (Z.to_nat (n p - 1)) f).
    split; [reflexivity|]. split; [|repeat split].
    exists l. ctx_simpl. rewrite length_take, Nat.min_l by lia.
    split; [exact Hz|]. split; [exact Hl1|]. split; [lia|].
    split; [lia|].
    rewrite <- Hf, take_take, Nat.min_l by lia. reflexivity.
  - exists p, f. split; [reflexivity|].
    split; [exists l; auto|]. repeat split.
Qed.

Lemma csv_read_total (si : bool) p :
  allocated p ->
  exists v p' d,
    csv_read_one_field ok junk si p = Ok (v, p', d)
    /\ same_setup p p' /\ read_progress p p' /\ read_result v p p'
    /\ (v = None -> si = false -> fst (fgetc (inp p)) = EOF).
Proof.
  intros Ha. pose proof (holds_reset p Ha) as H0.
  unfold csv_read_one_field. cbv zeta.
  replace (inp (set_n p 0)) with (inp p) by reflexivity.
  destruct (inp p) as [|c s] eqn:Hi; cbn [fgetc].
  { cbn [orb Z.eqb EOF]. eexists _, _, _. split; [reflexivity|].
    split; [repeat split|]. split; [right; repeat split; simpl; auto|].
    simpl. repeat split. }
  destruct ((c =? EOF) || si) eqn:He.
  { eexists _, _, _. split; [reflexivity|].
    split; [repeat split|]. split; [left; simpl; rewrite Hi; simpl; lia|].
    simpl. split; [repeat split|]. intros _ ->.
    rewrite orb_false_r in He. apply Z.eqb_eq in He. exact He. }
  destruct (c =? QUOTE).
  - destruct (quoted_loop_total s (set_inp (set_n p 0) s)
                (nLine (set_inp (set_n p 0) s)) 0 0 [] [])
      as (p1 & d1 & f1 & Hl & Hh1 & Hs1 & Hlen);
      [apply holds_set_inp; exact H0 | split; intros; discriminate |].
    rewrite Hl. ctx_simpl.
    destruct (terminate_holds p1 f1 d1 Hh1) as (l & Ht & Hh2 & Hz).
    rewrite Ht. eexists _, _, _. split; [reflexivity|].
    split; [exact Hs1|]. split; [left; simpl; rewrite Hi; simpl; lia|].
    split; [|discriminate]. exists f1. repeat split; auto.
  - destruct (unquoted_loop_total s (set_inp (set_n p 0) s) c [])
      as (p1 & c1 & f1 & Hl & Hh1 & Hs1 & Hn1 & Hlen);
      [apply holds_set_inp; exact H0 | reflexivity |].
    rewrite Hl. ctx_simpl.
    assert (Hfix : exists p2 f2,
      (if c1 =? cRowSep p
       then strip_cr (set_nLine p1 (nLine p1 + 1))
       else Ok p1) = Ok p2
      /\ holds p2 f2 /\ same_setup p1 p2 /\ inp p2 = inp p1).
    { destruct (c1 =? cRowSep p).
      2:{ exists p1, f1. repeat split; auto. }
      destruct (strip_cr_holds (set_nLine p1 (nLine p1 + 1)) f1
                  (holds_set_nLine _ _ _ Hh1))
        as (p2 & f2 & H1 & H2 & H3 & H4 & _).
      exists p2, f2. split; [exact H1|]. split; [exact H2|].
      split; [exact H3|exact H4]. }
    destruct Hfix as (p2 & f2 & Hfix & Hh2 & Hs2 & Hi2).
    rewrite Hfix. ctx_simpl.
    destruct (terminate_holds (set_cTerm p2 c1) f2 []
                (holds_set_cTerm p2 f2 c1 Hh2)) as (l & Ht & Hh3 & Hz).
    rewrite Ht. eexists _, _, _. split; [reflexivity|].
    split; [unfold same_setup in *; ctx_simpl; intuition congruence|].
    split; [left; ctx_simpl; rewrite Hi2, Hi; simpl; lia|].
    split; [|discriminate]. exists f2. repeat split; auto.
Qed.

Lemma ascii_read_total (si : bool) p :
  allocated p ->
  exists v p' d,
    ascii_read_one_field ok junk si p = Ok (v, p', d)
    /\ same_setup p p' /\ read_progress p p' /\ read_result v p p'
    /\ (v = None -> si = false -> fst (fgetc (inp p)) = EOF).
Proof.
  intros Ha. pose proof (holds_reset p Ha) as H0.
  unfold ascii_read_one_field. cbv zeta.
  replace (inp (set_n p 0)) with (inp p) by reflexivity.
  destruct (inp p) as [|c s] eqn:Hi; cbn [fgetc].
  { cbn [orb Z.eqb EOF]. eexists _, _, _. split; [reflexivity|].
    split; [repeat split|]. split; [right; repeat split; simpl; auto|].
    simpl. repeat split. }
  destruct ((c =? EOF) || si) eqn:He.
  { eexists _, _, _. split; [reflexivity|].
    split; [repeat split|]. split; [left; simpl; rewrite Hi; simpl; lia|].
    simpl. split; [repeat split|]. intros _ ->.
    rewrite orb_false_r in He. apply Z.eqb_eq in He. exact He. }
  destruct (unquoted_loop_total s (set_inp (set_n p 0) s) c [])
    as (p1 & c1 & f1 & Hl & Hh1 & Hs1 & Hn1 & Hlen);
    [apply holds_set_inp; exact H0 | reflexivity |].
  rewrite Hl. ctx_simpl.
  set (p2 := if c1 =? cRowSep p then set_nLine p1 (nLine p1 + 1) else p1).
  assert (Hh2 : holds p2 f1)
    by (unfold p2; destruct (c1 =? cRowSep p); auto using holds_set_nLine).
  assert (Hs2 : same_setup p1 p2 /\ inp p2 = inp p1)
    by (unfold p2; destruct (c1 =? cRowSep p); repeat split).
  destruct (terminate_holds (set_cTerm p2 c1) f1 []
              (holds_set_cTerm p2 f1 c1 Hh2)) as (l & Ht & Hh3 & Hz).
  rewrite Ht. eexists _, _, _. split; [reflexivity|].
  destruct Hs2 as [Hs2 Hi2].
  split; [unfold same_setup in *; ctx_simpl; intuition congruence|].
  split; [left; ctx_simpl; rewrite Hi2, Hi; simpl; lia|].
  split; [|discriminate]. exists f1. repeat split; auto.
Qed.

End Memory.

Lemma read_result_allocated v p p' :
  allocated p -> read_result v p p' -> allocated p'.
Proof.
  intros (l & Hz & Hl & Ha). destruct v as [t|]; simpl.
  - intros (f & Hh & _). eapply holds_allocated. exact Hh.
  - intros (_ & _ & Hz' & Ha'). exists l. rewrite Hz', Ha'. auto.
Qed.

(** Reads through [xRead], for a world whose allocator grants every
    request. *)
Lemma xRead_total (w : World) (r : reader) (p : ImportCtx) :
  (forall size, realloc_ok w size = true) ->
  allocated p ->
  exists v p' d,
    xRead w r p = Ok (v, p', d)
    /\ same_setup p p' /\ read_progress p p' /\ read_result v p p'
    /\ allocated p' /\ (v = None -> fst (fgetc (inp p)) = EOF).
Proof.
  intros Hg Ha.
  destruct r; simpl.
  - destruct (csv_read_total _ (junk w) Hg false p Ha)
      as (v & p' & d & H1 & H2 & H3 & H4 & H5).
    exists v, p', d. split; [exact H1|]. split; [exact H2|].
    split; [exact H3|]. split; [exact H4|].
    split; [eapply read_result_allocated; eauto|auto].
  - destruct (ascii_read_total _ (junk w) Hg false p Ha)
      as (v & p' & d & H1 & H2 & H3 & H4 & H5).
    exists v, p', d. split; [exact H1|]. split; [exact H2|].
    split; [exact H3|]. split; [exact H4|].
    split; [eapply read_result_allocated; eauto|auto].
Qed.

(** *** What a read leaves alone, and the lines of its diagnostics *)

Lemma tokenizer_diag_widen file start lo hi lo' hi' e :
  lo' <= lo -> hi <= hi' ->
  tokenizer_diag file start lo hi e -> tokenizer_diag file start lo' hi' e.
Proof.
  intros ? ? [H|(line & H & ?)]; [left; exact H|].
  right. exists line. split; [exact H|lia].
Qed.

Ltac inv_ok :=
  repeat match goal with
  | H : (_ ≫= _) = Ok _ |- _ =>
      let a := fresh "a" in let Ha := fresh "Ha" in
      apply rbind_ok in H as (a & Ha & H)
  | H : Ok _ = Ok _ |- _ => injection H as H; try subst
  | H : OutOfMemory = Ok _ |- _ => discriminate H
  | H : OutOfBounds = Ok _ |- _ => discriminate H
  | H : OutOfFuel = Ok _ |- _ => discriminate H
  end.

Section Frames.

Variable ok : Z -> bool.
Variable junk : Z.

Lemma append_frame p c p' :
  import_append_char ok junk p c = Ok p' -> buffer_only p p'.
Proof.
  unfold import_append_char. intros H. inv_ok.
  destruct (n p + 1 >=? nAlloc p); [destruct (ok _)|]; inv_ok;
    repeat split.
Qed.

Lemma strip_frame p p' : strip_to_quote p = Ok p' -> buffer_only p p'.
Proof.
  unfold strip_to_quote. intros H.
  destruct (z p); [|discriminate]. destruct (0 <=? n p); [|discriminate].
  inv_ok. repeat split.
Qed.

Lemma strip_cr_frame p p' : strip_cr p = Ok p' -> buffer_only p p'.
Proof.
  unfold strip_cr. intros H. destruct (n p >? 0); inv_ok; [|repeat split].
  destruct (_ =? CR); repeat split.
Qed.

Lemma terminate_frame p d v p' d' :
  terminate_field p d = Ok (v, p', d') -> buffer_only p p' /\ d' = d.
Proof.
  unfold terminate_field. intros H. destruct (z p); inv_ok; repeat split.
Qed.

(** At the end of the stream a round of the quoted loop leaves the
    loop. *)
Lemma quoted_step_eof p startLine pc ppc st :
  quoted_step ok junk p startLine pc ppc EOF = Ok st ->
  exists p' d, st = QBreak p' d.
Proof.
  unfold quoted_step. cbv zeta. change (EOF =? QUOTE) with false.
  rewrite Z.eqb_refl. cbn [andb]. intros H.
  match type of H with context [if ?b then _ else _] => destruct b end;
    inv_ok; eauto.
Qed.

Lemma put_at_fuel b k c : put_at b k c <> OutOfFuel.
Proof. unfold put_at. destruct b; [destruct (_ && _)|]; discriminate. Qed.

Lemma append_fuel p c : import_append_char ok junk p c <> OutOfFuel.
Proof.
  unfold import_append_char.
  destruct (n p + 1 >=? nAlloc p); [destruct (ok _)|]; ctx_simpl;
    try discriminate;
    match goal with |- context [put_at ?b ?k ?x] =>
      pose proof (put_at_fuel b k x); destruct (put_at b k x) end;
    ctx_simpl; congruence.
Qed.

Lemma back_to_quote_fuel l k : back_to_quote l k <> OutOfFuel.
Proof.
  induction k as [|k IH]; simpl; [discriminate|].
  destruct (l !! k) as [b|]; [|discriminate].
  destruct (b =? QUOTE); [discriminate|exact IH].
Qed.

Lemma strip_fuel p : strip_to_quote p <> OutOfFuel.
Proof.
  unfold strip_to_quote. destruct (z p) as [l|]; [|discriminate].
  destruct (0 <=? n p); [|discriminate].
  pose proof (back_to_quote_fuel l (Z.to_nat (n p))).
  destruct (back_to_quote l (Z.to_nat (n p))); ctx_simpl; congruence.
Qed.

Lemma quoted_step_fuel p startLine pc ppc c :
  quoted_step ok junk p startLine pc ppc c <> OutOfFuel.
Proof.
  unfold quoted_step. cbv zeta.
  destruct (_ && _); [discriminate|].
  match goal with |- context [if ?b then _ else _] => destruct b end.
  - match goal with |- context [strip_to_quote ?q] =>
      pose proof (strip_fuel q); destruct (strip_to_quote q) end;
      ctx_simpl; congruence.
  - destruct (c =? EOF); [discriminate|].
    match goal with |- context [import_append_char ok junk ?q ?x] =>
      pose proof (append_fuel q x);
      destruct (import_append_char ok junk q x) end;
      ctx_simpl; congruence.
Qed.

(** The loop of a quoted field never runs out of rounds. *)
Lemma quoted_loop_fuel s : forall p startLine pc ppc d,
  quoted_loop ok junk s p startLine pc ppc d <> OutOfFuel.
Proof.
  induction s as [|c s IH]; intros p startLine pc ppc d; cbn [quoted_loop].
  - pose proof (quoted_step_fuel (set_inp p []) startLine pc ppc EOF) as Hf.
    destruct (quoted_step ok junk (set_inp p []) startLine pc ppc EOF)
      as [st| | |] eqn:Hst; ctx_simpl; try congruence.
    apply quoted_step_eof in Hst as (p' & d' & ->). discriminate.
  - pose proof (quoted_step_fuel (set_inp p s) startLine pc ppc c) as Hf.
    destruct (quoted_step ok junk (set_inp p s) startLine pc ppc c)
      as [st| | |]; ctx_simpl; try congruence.
    destruct st; [discriminate|apply IH].
Qed.

Lemma quoted_step_frame p startLine pc ppc c st :
  quoted_step ok junk p startLine pc ppc c = Ok st ->
  exists p' d,
    (st = QBreak p' d \/ exists pc' ppc', st = QNext p' pc' ppc' d)
    /\ same_setup p p' /\ inp p' = inp p
    /\ nLine p <= nLine p' <= nLine p + 1
    /\ Forall (tokenizer_diag (zFile p) startLine (nLine p') (nLine p')) d.
Proof.
  unfold quoted_step. cbv zeta. fold (bump p c).
  destruct (bump_setup p c) as (Ef & Ec & Er & Ei & El).
  intros H.
  destruct ((c =? QUOTE) && (pc =? QUOTE)).
  { inv_ok. eexists _, _. split; [right; eauto|]. repeat split; auto; lia. }
  match type of H with context [if ?b then _ else _] => destruct b end.
  { inv_ok. apply strip_frame in Ha as (B1 & B2 & B3 & B4 & B5 & B6).
    eexists _, _. split; [left; eauto|]. unfold same_setup. ctx_simpl.
    rewrite ?B1, ?B2, ?B3, ?B4, ?B5.
    repeat split; auto; try lia. }
  set (d := if (pc =? QUOTE) && negb (c =? CR)
            then [Diag (zFile (bump p c)) (nLine (bump p c)) (Unescaped QUOTE)]
            else []) in *.
  assert (Hd : Forall (tokenizer_diag (zFile p) startLine
                         (nLine (bump p c)) (nLine (bump p c))) d).
  { unfold d. destruct (_ && _); constructor; [|constructor].
    right. eexists. rewrite Ef. split; [reflexivity|lia]. }
  destruct (c =? EOF).
  { inv_ok. eexists _, _. split; [left; eauto|]. ctx_simpl.
    unfold same_setup. repeat split; auto; try lia.
    apply Forall_app. split; [exact Hd|]. constructor; [|constructor].
    left. rewrite Ef. reflexivity. }
  inv_ok. apply append_frame in Ha as (B1 & B2 & B3 & B4 & B5 & B6).
  eexists _, _. split; [right; eauto|].
  unfold same_setup. rewrite ?B1, ?B2, ?B3, ?B4, ?B5.
  repeat split; auto; try lia.
Qed.

Lemma quoted_loop_frame s : forall p startLine pc ppc d p' d',
  quoted_loop ok junk s p startLine pc ppc d = Ok (p', d') ->
  same_setup p p' /\ nLine p <= nLine p'
  /\ exists d2, d' = d ++ d2
       /\ Forall (tokenizer_diag (zFile p) startLine (nLine p) (nLine p')) d2.
Proof.
  induction s as [|c s IH]; intros p startLine pc ppc d p' d' H; simpl in H.
  - apply rbind_ok in H as (st & Hq & H).
    apply quoted_step_frame in Hq as (p1 & d1 & Hst & Hs & Hi & Hl & Hd).
    destruct Hst as [->|(pc' & ppc' & ->)]; inv_ok.
    ctx_simpl. unfold same_setup in *. ctx_simpl.
    split; [exact Hs|]. split; [lia|]. exists d1. split; [reflexivity|].
    eapply Forall_impl; [exact Hd|]. intros e.
    apply tokenizer_diag_widen; lia.
  - apply rbind_ok in H as (st & Hq & H).
    apply quoted_step_frame in Hq as (p1 & d1 & Hst & Hs & Hi & Hl & Hd).
    unfold same_setup in *. ctx_simpl.
    destruct Hst as [->|(pc' & ppc' & ->)]; inv_ok.
    + split; [exact Hs|]. split; [lia|]. exists d1. split; [reflexivity|].
      eapply Forall_impl; [exact Hd|]. intros e.
      apply tokenizer_diag_widen; lia.
    + apply IH in H as (Hs2 & Hl2 & d2 & -> & Hd2).
      split; [intuition congruence|]. split; [lia|].
      exists (d1 ++ d2). split; [now rewrite app_assoc|].
      apply Forall_app. split.
      * eapply Forall_impl; [exact Hd|]. intros e.
        apply tokenizer_diag_widen; lia.
      * destruct Hs as (Ef & _). rewrite Ef in Hd2.
        eapply Forall_impl; [exact Hd2|]. intros e.
        apply tokenizer_diag_widen; lia.
Qed.

Lemma unquoted_loop_frame s : forall p c p' c',
  unquoted_loop ok junk s p c = Ok (p', c') ->
  same_setup p p' /\ nLine p' = nLine p.
Proof.
  induction s as [|c0 s IH]; intros p c p' c' H; simpl in H.
  - destruct (_ && _); inv_ok; [|repeat split].
    apply append_frame in Ha as (? & ? & ? & ? & ? & ?).
    repeat split; auto.
  - destruct (_ && _); inv_ok; [|repeat split].
    apply append_frame in Ha as (? & ? & ? & ? & ? & ?).
    apply IH in H as (Hs & Hl). unfold same_setup in *. ctx_simpl.
    intuition congruence.
Qed.

(** A read by [csv_read_one_field] keeps the file name and the separators,
    never lowers the line counter, and reports an unterminated field with
    the line on which the field began and an unescaped quote with the line
    at which it stands. *)
Lemma csv_read_frame si p v p' d :
  csv_read_one_field ok junk si p = Ok (v, p', d) ->
  same_setup p p' /\ nLine p <= nLine p'
  /\ Forall (tokenizer_diag (zFile p) (nLine p) (nLine p) (nLine p')) d.
Proof.
  unfold csv_read_one_field. cbv zeta.
  destruct (fgetc (inp (set_n p 0))) as [c s].
  intros H. destruct ((c =? EOF) || si).
  { inv_ok. repeat split. ctx_simpl. lia. constructor. }
  destruct (c =? QUOTE).
  - apply rbind_ok in H as ([p1 d1] & Hq & H).
    apply quoted_loop_frame in Hq as (Hs & Hl & d2 & -> & Hd).
    apply terminate_frame in H as ((? & ? & ? & ? & Hn & ?) & ->).
    unfold same_setup in *. ctx_simpl. rewrite Hn.
    split; [intuition congruence|]. split; [lia|exact Hd].
  - apply rbind_ok in H as ([p1 c1] & Hu & H).
    apply rbind_ok in H as (p2 & Hfix & H).
    apply unquoted_loop_frame in Hu as (Hs & Hl).
    apply terminate_frame in H as ((? & ? & ? & ? & Hn & ?) & ->).
    assert (Hfx : same_setup p1 p2 /\ nLine p1 <= nLine p2).
    { destruct (c1 =? cRowSep p); inv_ok; [|repeat split; lia].
      apply strip_cr_frame in Hfix as (? & ? & ? & ? & Hn2 & ?).
      ctx_simpl. repeat split; auto. lia. }
    destruct Hfx as [Hs2 Hl2].
    unfold same_setup in *. ctx_simpl. rewrite Hn.
    split; [intuition congruence|]. split; [lia|constructor].
Qed.

Lemma ascii_read_frame si p v p' d :
  ascii_read_one_field ok junk si p = Ok (v, p', d) ->
  same_setup p p' /\ nLine p <= nLine p' /\ d = [].
Proof.
  unfold ascii_read_one_field. cbv zeta.
  destruct (fgetc (inp (set_n p 0))) as [c s].
  intros H. destruct ((c =? EOF) || si).
  { inv_ok. repeat split. ctx_simpl. lia. }
  apply rbind_ok in H as ([p1 c1] & Hu & H).
  apply unquoted_loop_frame in Hu as (Hs & Hl).
  apply terminate_frame in H as ((? & ? & ? & ? & Hn & ?) & ->).
  unfold same_setup in *. ctx_simpl. rewrite Hn.
  destruct (c1 =? cRowSep p); ctx_simpl;
    (split; [intuition congruence|]); (split; [lia|reflexivity]).
Qed.

End Frames.

Lemma xRead_frame (w : World) r p v p' d :
  xRead w r p = Ok (v, p', d) ->
  same_setup p p' /\ nLine p <= nLine p'
  /\ Forall (tokenizer_diag (zFile p) (nLine p) (nLine p) (nLine p')) d.
Proof.
  destruct r; simpl; intros H.
  - eapply csv_read_frame; eauto.
  - apply ascii_read_frame in H as (? & ? & ->).
    split; [assumption|]. split; [assumption|constructor].
Qed.

(** ** Rows *)

Section Rows.

Variable w : World.
Variable db : Db.
Variable r : reader.

Lemma row_reads_setup p rs p' :
  row_reads w r p rs p' -> same_setup p p' /\ nLine p <= nLine p'.
Proof.
  induction 1 as [p v p' d Hx Ht|p v p1 d rs p' Hx Ht Hr [IHs IHl]].
  - apply xRead_frame in Hx as (Hs & Hl & _). auto.
  - apply xRead_frame in Hx as (Hs & Hl & _).
    unfold same_setup in *. split; [intuition congruence|lia].
Qed.

Lemma row_reads_nonempty p rs p' : row_reads w r p rs p' -> rs <> [].
Proof. destruct 1; discriminate. Qed.

Lemma row_reads_end p rs p' :
  row_reads w r p rs p' -> cTerm p' <> cColSep p'.
Proof. induction 1; auto. Qed.

Lemma bind_nulls_spec nCol : forall (k : nat) fuel i tr,
  nCol + 1 - i = Z.of_nat k -> (k <= fuel)%nat ->
  bind_nulls fuel nCol i tr
  = Ok (nCol + 1, tr ++ map BindNull (seqZ i (Z.of_nat k))).
Proof.
  induction k as [|k IH]; intros fuel i tr Hk Hf.
  - rewrite seqZ_nil by lia. simpl map. rewrite app_nil_r.
    destruct fuel; simpl; destruct (Z.leb_spec i nCol); try lia;
      f_equal; f_equal; lia.
  - destruct fuel as [|fuel]; [lia|]. simpl.
    destruct (Z.leb_spec i nCol); [|lia].
    rewrite (IH fuel (i + 1)) by lia.
    rewrite (seqZ_cons i) by lia. simpl. rewrite <- app_assoc. simpl.
    repeat f_equal; lia.
Qed.

(** The [for] loop on a row with fewer fields than columns. *)
Lemma read_columns_short nCol startLine p rs p' :
  row_reads w r p rs p' ->
  forall fuel i tr,
    0 <= i -> (i = 0 -> first_value rs <> None) ->
    i + Z.of_nat (length rs) < nCol -> nCol - i <= Z.of_nat fuel ->
    read_columns w fuel MODE_Csv r nCol startLine i p tr
    = Ok (nCol + 2, p',
          tr ++ bind_events i rs
             ++ [Diag (zFile p) startLine
                      (ShortRow nCol (i + Z.of_nat (length rs)))]
             ++ map BindNull (seqZ (i + Z.of_nat (length rs) + 1)
                                   (nCol - (i + Z.of_nat (length rs))))).
Proof.
  induction 1 as [p v p' d Hx Ht|p v p1 d rs p' Hx Ht Hr IH];
    intros fuel i tr Hi Hv Hlen Hfuel; simpl length in *.
  - destruct fuel as [|fuel]; [lia|]. simpl.
    destruct (Z.ltb_spec i nCol); [|lia].
    rewrite Hx. ctx_simpl.
    assert (Hbrk : bool_decide (v = None) && (i =? 0) = false).
    { destruct (Z.eqb_spec i 0); [|apply andb_false_r].
      rewrite bool_decide_eq_false_2; [reflexivity|]. apply Hv; assumption. }
    rewrite Hbrk. cbn [andb].
    destruct (Z.ltb_spec i (nCol - 1)); [|lia].
    destruct (Z.eqb_spec (cTerm p') (cColSep p')); [contradiction|].
    cbn [andb negb].
    rewrite (bind_nulls_spec nCol (Z.to_nat (nCol - 1 - i))) by lia.
    ctx_simpl.
    destruct fuel; simpl;
      (destruct (Z.ltb_spec (nCol + 1 + 1) nCol); [lia|]);
      apply xRead_frame in Hx as ((-> & _) & _);
      rewrite <- !app_assoc; simpl;
      repeat (f_equal; try lia).
  - destruct fuel as [|fuel]; [lia|]. simpl.
    destruct (Z.ltb_spec i nCol); [|lia].
    rewrite Hx. ctx_simpl.
    assert (Hbrk : bool_decide (v = None) && (i =? 0) = false).
    { destruct (Z.eqb_spec i 0); [|apply andb_false_r].
      rewrite bool_decide_eq_false_2; [reflexivity|]. apply Hv; assumption. }
    rewrite Hbrk. cbn [andb].
    rewrite Ht, Z.eqb_refl, andb_false_r.
    rewrite IH by lia.
    apply xRead_frame in Hx as ((-> & _) & _).
    rewrite <- !app_assoc. simpl.
    repeat (f_equal; try lia).
Qed.

(** The [for] loop on a row with more fields than columns: it stops
    after [nCol] fields, at a column separator, with the rest of the row
    still to read. *)
Lemma read_columns_long nCol startLine p rs p' :
  row_reads w r p rs p' ->
  forall fuel i tr,
    0 <= i < nCol -> (i = 0 -> first_value rs <> None) ->
    nCol < i + Z.of_nat (length rs) -> nCol - i <= Z.of_nat fuel ->
    exists pm,
      read_columns w fuel MODE_Csv r nCol startLine i p tr
      = Ok (nCol, pm, tr ++ bind_events i (take (Z.to_nat (nCol - i)) rs))
      /\ cTerm pm = cColSep pm
      /\ row_reads w r pm (drop (Z.to_nat (nCol - i)) rs) p'.
Proof.
  induction 1 as [p v p' d Hx Ht|p v p1 d rs p' Hx Ht Hr IH];
    intros fuel i tr Hi Hv Hlen Hfuel; simpl length in *; [lia|].
  destruct fuel as [|fuel]; [lia|]. simpl.
  destruct (Z.ltb_spec i nCol); [|lia].
  rewrite Hx. ctx_simpl.
  assert (Hbrk : bool_decide (v = None) && (i =? 0) = false).
  { destruct (Z.eqb_spec i 0); [|apply andb_false_r].
    rewrite bool_decide_eq_false_2; [reflexivity|]. apply Hv; assumption. }
  rewrite Hbrk. cbn [andb].
  rewrite Ht, Z.eqb_refl, andb_false_r.
  replace (Z.to_nat (nCol - i)) with (S (Z.to_nat (nCol - (i + 1)))) by lia.
  cbn [take drop bind_events].
  destruct (Z.eq_dec (i + 1) nCol) as [He|Hne].
  - exists p1. replace (Z.to_nat (nCol - (i + 1))) with O by lia.
    rewrite take_0, drop_0. simpl bind_events.
    split; [|split; [exact Ht|exact Hr]].
    destruct fuel; simpl; (destruct (Z.ltb_spec (i + 1) nCol); [lia|]);
      rewrite <- !app_assoc; simpl; repeat (f_equal; try lia).
  - destruct (IH fuel (i + 1) ((tr ++ d) ++ [BindText (i + 1) v]))
      as (pm & Hrc & Hc & Hrest); try lia.
    exists pm. rewrite Hrc. split; [|split; [exact Hc|exact Hrest]].
    rewrite <- !app_assoc. simpl. reflexivity.
Qed.

(** The [for] loop on a row with as many fields as columns. *)
Lemma read_columns_exact nCol startLine p rs p' :
  row_reads w r p rs p' ->
  forall fuel i tr,
    0 <= i -> (i = 0 -> first_value rs <> None) ->
    i + Z.of_nat (length rs) = nCol -> nCol - i <= Z.of_nat fuel ->
    read_columns w fuel MODE_Csv r nCol startLine i p tr
    = Ok (nCol, p', tr ++ bind_events i rs).
Proof.
  induction 1 as [p v p' d Hx Ht|p v p1 d rs p' Hx Ht Hr IH];
    intros fuel i tr Hi Hv Hlen Hfuel; simpl length in *.
  - destruct fuel as [|fuel]; [lia|]. simpl.
    destruct (Z.ltb_spec i nCol); [|lia].
    rewrite Hx. ctx_simpl.
    assert (Hbrk : bool_decide (v = None) && (i =? 0) = false).
    { destruct (Z.eqb_spec i 0); [|apply andb_false_r].
      rewrite bool_decide_eq_false_2; [reflexivity|]. apply Hv; assumption. }
    rewrite Hbrk. cbn [andb].
    destruct (Z.ltb_spec i (nCol - 1)); [lia|]. cbn [andb].
    destruct fuel; simpl; (destruct (Z.ltb_spec (i + 1) nCol); [lia|]);
      rewrite <- !app_assoc; simpl; repeat (f_equal; try lia).
  - destruct fuel as [|fuel]; [lia|]. simpl.
    destruct (Z.ltb_spec i nCol); [|lia].
    rewrite Hx. ctx_simpl.
    assert (Hbrk : bool_decide (v = None) && (i =? 0) = false).
    { destruct (Z.eqb_spec i 0); [|apply andb_false_r].
      rewrite bool_decide_eq_false_2; [reflexivity|]. apply Hv; assumption. }
    rewrite Hbrk. cbn [andb].
    rewrite Ht, Z.eqb_refl, andb_false_r.
    rewrite IH by lia.
    rewrite <- !app_assoc. simpl. reflexivity.
Qed.

(** The loop that reads and drops the fields beyond the last column. *)
Lemma drain_spec p rs p' :
  row_reads w r p rs p' ->
  forall fuel i tr,
    (length rs <= fuel)%nat ->
    drain w fuel r i p tr
    = Ok (i + Z.of_nat (length rs), p', tr ++ concat (map snd rs)).
Proof.
  induction 1 as [p v p' d Hx Ht|p v p1 d rs p' Hx Ht Hr IH];
    intros fuel i tr Hfuel; simpl length in *.
  - destruct fuel as [|fuel]; [lia|]. simpl. rewrite Hx. ctx_simpl.
    destruct (Z.eqb_spec (cTerm p') (cColSep p')); [contradiction|].
    rewrite app_nil_r. reflexivity.
  - destruct fuel as [|fuel]; [lia|]. simpl. rewrite Hx. ctx_simpl.
    rewrite Ht, Z.eqb_refl. rewrite IH by lia.
    rewrite <- app_assoc. repeat (f_equal; try lia).
Qed.

(** One round of the row loop, whatever the number of fields of the row:
    the fields are bound as far as there are columns, and the row is
    inserted. *)
Lemma import_row_reads fuel nCol k p rs p' :
  row_reads w r p rs p' ->
  first_value rs <> None ->
  0 < nCol -> nCol <= Z.of_nat fuel -> (length rs <= fuel)%nat ->
  import_row w db fuel MODE_Csv r nCol k p
  = Ok (p', S k,
        row_events (zFile p) (nLine p) nCol rs
        ++ insert_events (zFile p) (nLine p) (reset_rc db k)).
Proof.
  intros Hr Hv Hn Hf1 Hf2. unfold row_events, import_row. cbv zeta.
  pose proof (row_reads_end _ _ _ Hr) as Hend.
  destruct (row_reads_setup _ _ _ Hr) as ((Ef & _) & _).
  destruct (Z.ltb_spec (Z.of_nat (length rs)) nCol) as [Hlt|Hge].
  - (* too few fields *)
    rewrite (read_columns_short nCol (nLine p) p rs p' Hr) by (auto; lia).
    ctx_simpl.
    destruct (Z.eqb_spec (cTerm p') (cColSep p')); [contradiction|].
    ctx_simpl. destruct (Z.geb_spec (nCol + 2) nCol); [|lia].
    rewrite Ef. unfold insert_events. simpl. rewrite <- !app_assoc. simpl.
    reflexivity.
  - destruct (Z.eqb_spec (Z.of_nat (length rs)) nCol) as [Heq|Hne].
    + (* as many fields as columns *)
      rewrite (read_columns_exact nCol (nLine p) p rs p' Hr)
        by (auto; lia).
      ctx_simpl.
      destruct (Z.eqb_spec (cTerm p') (cColSep p')); [contradiction|].
      ctx_simpl. destruct (Z.geb_spec nCol nCol); [|lia].
      rewrite Ef. unfold insert_events. simpl. reflexivity.
    + (* too many fields *)
      destruct (read_columns_long nCol (nLine p) p rs p' Hr fuel 0 [])
        as (pm & Hrc & Hc & Hrest); try lia; [auto|].
      rewrite Hrc. ctx_simpl. rewrite Hc, Z.eqb_refl.
      rewrite Z.sub_0_r in *.
      rewrite (drain_spec pm _ p' Hrest) by (rewrite length_drop; lia).
      ctx_simpl. rewrite length_drop.
      destruct (Z.geb_spec (nCol + Z.of_nat (length rs - Z.to_nat nCol)) nCol);
        [|lia].
      rewrite Ef. unfold insert_events. simpl. rewrite <- !app_assoc. simpl.
      repeat (f_equal; try lia).
Qed.

End Rows.

(** The reads of a row, as calls of the reader one after the other. *)
Lemma read_fields_row (w : World) p rs p' :
  row_reads w CsvReader p rs p' ->
  read_fields w (length rs) p = Ok (map fst rs, p', concat (map snd rs)).
Proof.
  induction 1 as [p v p' d Hx Ht|p v p1 d rs p' Hx Ht Hr IH];
    cbn [read_fields length map concat fst snd].
  - rewrite Hx. ctx_simpl. rewrite app_nil_r. reflexivity.
  - rewrite Hx. ctx_simpl. rewrite IH. reflexivity.
Qed.

(** ** Well-formed CSV text *)

Lemma to_char_byte b : 0 <= b < 256 -> to_char b = b.
Proof. intros H. unfold to_char. apply Z.mod_small. exact H. Qed.

(** Decide the comparisons of characters that the hypotheses settle. *)
Ltac decide_eqb :=
  repeat match goal with
  | |- context [?a =? ?a] => rewrite (Z.eqb_refl a)
  | |- context [?a =? ?b] =>
      rewrite (proj2 (Z.eqb_neq a b))
        by (unfold QUOTE, CR, EOF in *; first [assumption | lia])
  end;
  cbn [andb orb negb].

Section Text.

Variable ok : Z -> bool.
Variable junk : Z.
Hypothesis granted : forall size, ok size = true.

(** The loop of a bare field over text without separators, up to a
    separator or the end of the stream. *)
Lemma unquoted_loop_text t : forall s p c f tail,
  holds p f -> inp p = s -> c :: s = t ++ tail ->
  Forall (fun b => 0 <= b < 256 /\ b <> cColSep p /\ b <> cRowSep p) t ->
  (tail = [] \/ exists x rest, tail = x :: rest
                               /\ (x = cColSep p \/ x = cRowSep p)) ->
  exists p',
    unquoted_loop ok junk s p c = Ok (p', hd EOF tail)
    /\ holds p' (f ++ t) /\ inp p' = tl tail
    /\ same_setup p p' /\ nLine p' = nLine p /\ cTerm p' = cTerm p.
Proof.
  induction t as [|b t IH]; intros s p c f tail Hh Hi Hst Ht Htail.
  - simpl in Hst. subst tail.
    destruct Htail as [|(x & rest & Hx & Hsep)]; [discriminate|].
    injection Hx as <- <-. simpl.
    assert (Hc : negb (c =? EOF) && negb (c =? cColSep p)
                 && negb (c =? cRowSep p) = false).
    { destruct Hsep as [->| ->]; rewrite Z.eqb_refl; simpl;
        rewrite ?andb_false_r; reflexivity. }
    destruct s; simpl; rewrite Hc; exists p; rewrite app_nil_r;
      repeat split; auto.
  - simpl in Hst. injection Hst as -> ->.
    inversion Ht as [|? ? (Hb & Hbc & Hbr) Ht']; subst.
    assert (Hc : negb (b =? EOF) && negb (b =? cColSep p)
                 && negb (b =? cRowSep p) = true).
    { destruct (Z.eqb_spec b EOF); [unfold EOF in *; lia|].
      destruct (Z.eqb_spec b (cColSep p)); [contradiction|].
      destruct (Z.eqb_spec b (cRowSep p)); [contradiction|]. reflexivity. }
    destruct (append_holds ok junk granted p f b Hh)
      as (l & a & Hap & Hh' & _).
    rewrite to_char_byte in Hh' by exact Hb.
    destruct (t ++ tail) as [|c' s'] eqn:Hs; simpl; rewrite Hc, Hap; ctx_simpl.
    + apply app_eq_nil in Hs as [-> ->]. simpl.
      eexists. split; [reflexivity|]. split; [apply holds_set_inp; exact Hh'|].
      repeat split.
    + destruct (IH s' (set_inp (set_buf p (Some l) (n p + 1) a) s') c'
                   (f ++ [b]) tail) as (p' & Hl & Hh2 & Hi2 & Hs2 & Hn2 & Hc2);
        [apply holds_set_inp; exact Hh' | reflexivity | symmetry; exact Hs
        | exact Ht' | exact Htail |].
      exists p'. rewrite <- app_assoc in Hh2. simpl in Hh2.
      split; [exact Hl|]. split; [exact Hh2|]. split; [exact Hi2|].
      split; [exact Hs2|]. split; [exact Hn2|exact Hc2].
Qed.

(** A round of the quoted loop on a byte that is not behind a lone
    quote: the byte is appended. *)
Lemma quoted_step_byte p startLine pc ppc b f :
  holds p f -> pc <> QUOTE -> ppc <> QUOTE -> 0 <= b < 256 ->
  exists p',
    quoted_step ok junk p startLine pc ppc b = Ok (QNext p' b pc [])
    /\ holds p' (f ++ [b]) /\ inp p' = inp p /\ same_setup p p'.
Proof.
  intros Hh Hpc Hppc Hb. unfold quoted_step. cbv zeta. fold (bump p b).
  pose proof (holds_bump p f b Hh) as Hbp.
  destruct (bump_setup p b) as (Ef & Ec & Er & Ei & _).
  destruct (Z.eqb_spec pc QUOTE); [contradiction|].
  destruct (Z.eqb_spec ppc QUOTE); [contradiction|].
  rewrite !andb_false_r. cbn [orb andb].
  destruct (Z.eqb_spec b EOF); [unfold EOF in *; lia|].
  destruct (append_holds ok junk granted (bump p b) f b Hbp)
    as (l & a & Hap & Hh' & _).
  rewrite to_char_byte in Hh' by exact Hb.
  rewrite Hap. ctx_simpl. eexists. split; [reflexivity|].
  split; [exact Hh'|]. unfold same_setup. ctx_simpl. auto.
Qed.

(** The round that reads the second quote of a pair. *)
Lemma quoted_step_pair p startLine ppc :
  cRowSep p <> QUOTE ->
  quoted_step ok junk p startLine QUOTE ppc QUOTE = Ok (QNext p 0 ppc []).
Proof.
  intros Hr. unfold quoted_step. cbv zeta.
  destruct (Z.eqb_spec QUOTE (cRowSep p)); [congruence|]. reflexivity.
Qed.

Lemma quoted_loop_cons c s p startLine pc ppc d :
  quoted_loop ok junk (c :: s) p startLine pc ppc d
  = (quoted_step ok junk (set_inp p s) startLine pc ppc c
     ≫= fun st => match st with
                  | QBreak p' d' => Ok (p', d ++ d')
                  | QNext p' pc' ppc' d' =>
                      quoted_loop ok junk s p' startLine pc' ppc' (d ++ d')
                  end).
Proof. reflexivity. Qed.

Lemma quoted_loop_nil p startLine pc ppc d :
  quoted_loop ok junk [] p startLine pc ppc d
  = (quoted_step ok junk (set_inp p []) startLine pc ppc EOF
     ≫= fun st => match st with
                  | QBreak p' d' => Ok (p', d ++ d')
                  | QNext _ _ _ _ => OutOfFuel
                  end).
Proof. reflexivity. Qed.

(** The round that finds a terminator behind the closing quote, with
    nothing or a carriage return between them. *)
Lemma quoted_step_end p startLine pc ppc c f g :
  wf_seps (cColSep p) (cRowSep p) ->
  holds p (f ++ QUOTE :: g) ->
  (pc = QUOTE /\ g = [] /\ (c = cColSep p \/ c = cRowSep p \/ c = EOF))
  \/ (pc = CR /\ ppc = QUOTE /\ g = [CR] /\ c = cRowSep p) ->
  exists p',
    quoted_step ok junk p startLine pc ppc c = Ok (QBreak p' [])
    /\ holds p' f /\ inp p' = inp p /\ cTerm p' = c /\ same_setup p p'.
Proof.
  intros (Hcr & Hcq & Hrq & Hcc & Hrc & Hce & Hre) Hh Hcase.
  unfold quoted_step. cbv zeta. fold (bump p c).
  pose proof (holds_bump p _ c Hh) as Hb.
  destruct (bump_setup p c) as (Ef & Ec & Er & Ei & _).
  assert (Hg : Forall (fun b => b <> QUOTE) g).
  { destruct Hcase as [(_ & -> & _)|(_ & _ & -> & _)];
      repeat constructor; discriminate. }
  destruct (strip_holds (bump p c) f g Hb Hg) as [Hs Hh'].
  assert (Hcond :
    (c =? QUOTE) && (pc =? QUOTE) = false
    /\ (c =? cColSep p) && (pc =? QUOTE) || (c =? cRowSep p) && (pc =? QUOTE)
       || (c =? cRowSep p) && (pc =? CR) && (ppc =? QUOTE)
       || (c =? EOF) && (pc =? QUOTE) = true).
  { destruct Hcase as [(-> & _ & [->|[->| ->]])|(-> & -> & _ & ->)];
      decide_eqb; rewrite ?orb_true_r; auto. }
  destruct Hcond as [-> ->]. rewrite Hs. ctx_simpl.
  eexists. split; [reflexivity|].
  split; [apply holds_set_cTerm; exact Hh'|].
  unfold same_setup. ctx_simpl. auto.
Qed.

(** The round that reads a carriage return behind the closing quote. *)
Lemma quoted_step_cr p startLine ppc f :
  wf_seps (cColSep p) (cRowSep p) ->
  holds p f ->
  exists p',
    quoted_step ok junk p startLine QUOTE ppc CR = Ok (QNext p' CR QUOTE [])
    /\ holds p' (f ++ [CR]) /\ inp p' = inp p /\ same_setup p p'.
Proof.
  intros (Hcr & Hcq & Hrq & Hcc & Hrc & Hce & Hre) Hh.
  unfold quoted_step. cbv zeta. decide_eqb.
  destruct (append_holds ok junk granted p f CR Hh) as (l & a & Hap & Hh' & _).
  rewrite Hap. ctx_simpl. eexists. split; [reflexivity|].
  split; [exact Hh'|]. unfold same_setup. ctx_simpl. auto.
Qed.

Lemma same_setup_seps p p' :
  same_setup p p' ->
  wf_seps (cColSep p) (cRowSep p) -> wf_seps (cColSep p') (cRowSep p').
Proof. intros (_ & -> & ->). auto. Qed.

Lemma same_setup_trans p1 p2 p3 :
  same_setup p1 p2 -> same_setup p2 p3 -> same_setup p1 p3.
Proof. unfold same_setup. intuition congruence. Qed.

Lemma same_setup_set_inp p s : same_setup p (set_inp p s).
Proof. repeat split. Qed.

(** The rounds behind the closing quote. *)
Lemma quoted_loop_close tail c rest : forall p startLine ppc d f,
  follows (cColSep p) (cRowSep p) tail c rest ->
  wf_seps (cColSep p) (cRowSep p) ->
  holds p (f ++ [QUOTE]) -> ppc <> QUOTE ->
  exists p',
    quoted_loop ok junk tail p startLine QUOTE ppc d = Ok (p', d)
    /\ holds p' f /\ inp p' = rest /\ cTerm p' = c /\ same_setup p p'.
Proof.
  intros p startLine ppc d f Hfo Hw Hh Hppc.
  inversion Hfo; subst.
  - rewrite quoted_loop_cons.
    destruct (quoted_step_end (set_inp p rest) startLine QUOTE ppc
                (cColSep p) f [] Hw (holds_set_inp _ _ _ Hh))
      as (p' & Hst & Hh' & Hi & Hc & Hs); [left; auto|].
    rewrite Hst. ctx_simpl. rewrite app_nil_r. exists p'. auto.
  - rewrite quoted_loop_cons.
    destruct (quoted_step_end (set_inp p rest) startLine QUOTE ppc
                (cRowSep p) f [] Hw (holds_set_inp _ _ _ Hh))
      as (p' & Hst & Hh' & Hi & Hc & Hs); [left; auto|].
    rewrite Hst. ctx_simpl. rewrite app_nil_r. exists p'. auto.
  - rewrite quoted_loop_cons.
    destruct (quoted_step_cr (set_inp p (cRowSep p :: rest)) startLine ppc
                _ Hw (holds_set_inp _ _ _ Hh))
      as (p1 & Hst & Hh1 & Hi1 & Hs1).
    rewrite Hst. ctx_simpl. rewrite app_nil_r, quoted_loop_cons.
    rewrite <- app_assoc in Hh1. simpl in Hh1.
    destruct Hs1 as (Ef & Ec & Er). ctx_simpl.
    destruct (quoted_step_end (set_inp p1 rest) startLine CR QUOTE
                (cRowSep p) f [CR]) as (p' & Hst2 & Hh' & Hi & Hc & Hs);
      [ctx_simpl; rewrite Ec, Er; exact Hw
      | apply holds_set_inp; exact Hh1
      | right; ctx_simpl; auto |].
    rewrite Hst2. ctx_simpl. rewrite app_nil_r. exists p'.
    unfold same_setup in *. ctx_simpl. intuition congruence.
  - rewrite quoted_loop_nil.
    destruct (quoted_step_end (set_inp p []) startLine QUOTE ppc
                EOF f [] Hw (holds_set_inp _ _ _ Hh))
      as (p' & Hst & Hh' & Hi & Hc & Hs); [left; auto|].
    rewrite Hst. ctx_simpl. rewrite app_nil_r. exists p'. auto.
Qed.

(** The loop of a quoted field over the escaped text, the closing quote
    and what follows it. *)
Lemma quoted_loop_text t : forall p startLine pc ppc d f tail c rest,
  follows (cColSep p) (cRowSep p) tail c rest ->
  wf_seps (cColSep p) (cRowSep p) ->
  holds p f -> pc <> QUOTE -> ppc <> QUOTE -> Forall text_byte t ->
  exists p',
    quoted_loop ok junk (escape t ++ QUOTE :: tail) p startLine pc ppc d
    = Ok (p', d)
    /\ holds p' (f ++ t) /\ inp p' = rest /\ cTerm p' = c /\ same_setup p p'.
Proof.
  induction t as [|b t IH];
    intros p startLine pc ppc d f tail c rest Hfo Hw Hh Hpc Hppc Ht.
  - cbn [escape app]. rewrite quoted_loop_cons.
    destruct (quoted_step_byte (set_inp p tail) startLine pc ppc QUOTE f)
      as (p1 & Hst & Hh1 & Hi1 & Hs1);
      [apply holds_set_inp; exact Hh | exact Hpc | exact Hppc
      | unfold QUOTE; lia |].
    rewrite Hst. ctx_simpl. rewrite app_nil_r.
    destruct Hs1 as (Ef & Ec & Er). ctx_simpl.
    destruct (quoted_loop_close tail c rest p1 startLine pc d f)
      as (p' & Hl & Hh' & Hi & Hc & Hs);
      [rewrite Ec, Er; exact Hfo | rewrite Ec, Er; exact Hw
      | exact Hh1 | exact Hpc |].
    exists p'. rewrite app_nil_r. split; [exact Hl|].
    split; [exact Hh'|]. split; [exact Hi|]. split; [exact Hc|].
    unfold same_setup in *. intuition congruence.
  - inversion Ht as [|? ? Hb Ht']; subst. cbn [escape].
    destruct (Z.eqb_spec b QUOTE) as [->|Hbq].
    + cbn [app]. rewrite quoted_loop_cons.
      destruct (quoted_step_byte
                  (set_inp p (QUOTE :: escape t ++ QUOTE :: tail))
                  startLine pc ppc QUOTE f)
        as (p1 & Hst & Hh1 & Hi1 & Hs1);
        [apply holds_set_inp; exact Hh | exact Hpc | exact Hppc
        | unfold QUOTE; lia |].
      rewrite Hst. ctx_simpl. rewrite app_nil_r, quoted_loop_cons.
      destruct Hs1 as (Ef & Ec & Er). ctx_simpl.
      rewrite quoted_step_pair
        by (ctx_simpl; rewrite Er; apply Hw).
      ctx_simpl. rewrite app_nil_r.
      destruct (IH (set_inp p1 (escape t ++ QUOTE :: tail)) startLine 0 pc d
                   (f ++ [QUOTE]) tail c rest)
        as (p' & Hl & Hh' & Hi & Hc & Hs);
        [ctx_simpl; rewrite Ec, Er; exact Hfo
        | ctx_simpl; rewrite Ec, Er; exact Hw
        | apply holds_set_inp; exact Hh1 | discriminate | exact Hpc
        | exact Ht' |].
      exists p'. rewrite <- app_assoc in Hh'. split; [exact Hl|].
      split; [exact Hh'|]. split; [exact Hi|]. split; [exact Hc|].
      unfold same_setup in *. ctx_simpl. intuition congruence.
    + cbn [app]. rewrite quoted_loop_cons.
      destruct (quoted_step_byte
                  (set_inp p (escape t ++ QUOTE :: tail))
                  startLine pc ppc b f)
        as (p1 & Hst & Hh1 & Hi1 & Hs1);
        [apply holds_set_inp; exact Hh | exact Hpc | exact Hppc
        | unfold text_byte in Hb; lia |].
      rewrite Hst. ctx_simpl. rewrite app_nil_r.
      destruct Hs1 as (Ef & Ec & Er). ctx_simpl.
      destruct (IH p1 startLine b pc d (f ++ [b]) tail c rest)
        as (p' & Hl & Hh' & Hi & Hc & Hs);
        [rewrite Ec, Er; exact Hfo | rewrite Ec, Er; exact Hw
        | exact Hh1 | exact Hbq | exact Hpc | exact Ht' |].
      exists p'. rewrite <- app_assoc in Hh'. split; [exact Hl|].
      split; [exact Hh'|]. split; [exact Hi|]. split; [exact Hc|].
      unfold same_setup in *. intuition congruence.
Qed.

Lemma holds_last p f b :
  holds p (f ++ [b]) -> n p > 0 /\ get_at (z p) (n p - 1) = Ok b.
Proof.
  intros (l & Hz & Hl & Hn & Hlt & Hf).
  rewrite length_app in *. simpl in *. split; [lia|].
  unfold get_at. rewrite Hz. destruct (Z.leb_spec 0 (n p - 1)); [|lia].
  replace (Z.to_nat (n p - 1)) with (length f) by lia.
  rewrite <- (lookup_take_lt l (length f + 1)) by lia.
  rewrite Hf, list_lookup_middle; reflexivity.
Qed.

Lemma strip_cr_drop p f :
  holds p (f ++ [CR]) ->
  strip_cr p = Ok (set_n p (n p - 1)) /\ holds (set_n p (n p - 1)) f.
Proof.
  intros Hh. destruct (holds_last p f CR Hh) as [Hpos Hld].
  unfold strip_cr. rewrite (proj2 (Z.gtb_lt (n p) 0)), Hld by lia. ctx_simpl.
  split; [reflexivity|].
  destruct Hh as (l & Hz & Hl & Hn & Hlt & Hf).
  rewrite length_app in *. simpl in *.
  exists l. ctx_simpl. split; [exact Hz|]. split; [exact Hl|].
  split; [lia|]. split; [lia|].
  transitivity (take (length f) (take (length f + 1) l)).
  - rewrite take_take, Nat.min_l by lia. reflexivity.
  - rewrite Hf. apply take_app_length.
Qed.

Lemma strip_cr_keep p f :
  holds p f -> Forall (fun b => b <> CR) f -> strip_cr p = Ok p.
Proof.
  intros Hh Hf. unfold strip_cr.
  destruct f as [|b0 f0] using rev_ind.
  - destruct Hh as (l & Hz & Hl & Hn & _). simpl in Hn.
    rewrite Hn. reflexivity.
  - destruct (holds_last p f0 b0 Hh) as [Hpos Hld].
    rewrite (proj2 (Z.gtb_lt (n p) 0)), Hld by lia. ctx_simpl.
    apply Forall_app in Hf as [_ Hb]. inversion Hb; subst.
    destruct (Z.eqb_spec b0 CR); [contradiction|reflexivity].
Qed.

Lemma csv_read_quoted p t tail c rest :
  allocated p -> wf_seps (cColSep p) (cRowSep p) -> Forall text_byte t ->
  follows (cColSep p) (cRowSep p) tail c rest ->
  inp p = QUOTE :: escape t ++ QUOTE :: tail ->
  exists p',
    csv_read_one_field ok junk false p = Ok (Some t, p', [])
    /\ inp p' = rest /\ cTerm p' = c /\ allocated p' /\ same_setup p p'.
Proof.
  intros Ha Hw Ht Hfo Hi. pose proof (holds_reset p Ha) as H0.
  unfold csv_read_one_field. cbv zeta.
  replace (inp (set_n p 0)) with (inp p) by reflexivity.
  rewrite Hi. cbn [fgetc]. change ((QUOTE =? EOF) || false) with false.
  change (QUOTE =? QUOTE) with true. cbn iota.
  destruct (quoted_loop_text t
              (set_inp (set_n p 0) (escape t ++ QUOTE :: tail))
              (nLine (set_inp (set_n p 0) (escape t ++ QUOTE :: tail)))
              0 0 [] [] tail c rest)
    as (p1 & Hl & Hh1 & Hi1 & Hc1 & Hs1);
    [exact Hfo | exact Hw | apply holds_set_inp; exact H0
    | discriminate | discriminate | exact Ht |].
  rewrite Hl. ctx_simpl. simpl in Hh1.
  destruct (terminate_holds p1 t [] Hh1) as (l & Hte & Hh2 & _).
  rewrite Hte. rewrite cstr_id
    by (eapply Forall_impl; [exact Ht|]; unfold text_byte; intros; lia).
  eexists. split; [reflexivity|]. ctx_simpl.
  split; [exact Hi1|]. split; [exact Hc1|].
  split; [eapply holds_allocated; exact Hh2|].
  unfold same_setup in *. ctx_simpl. intuition congruence.
Qed.

Lemma csv_read_bare p t tail c rest :
  allocated p -> wf_seps (cColSep p) (cRowSep p) ->
  wf_field (cColSep p) (cRowSep p) (Bare t) ->
  follows (cColSep p) (cRowSep p) tail c rest ->
  inp p = t ++ tail ->
  exists p',
    csv_read_one_field ok junk false p = Ok (bare_value t c, p', [])
    /\ inp p' = rest /\ cTerm p' = c /\ allocated p' /\ same_setup p p'.
Proof.
  intros Ha Hw [Ht Hhd] Hfo Hi. pose proof (holds_reset p Ha) as H0.
  pose proof Hw as (Hcr & Hcq & Hrq & Hcc & Hrc & Hce & Hre).
  unfold csv_read_one_field. cbv zeta.
  replace (inp (set_n p 0)) with (inp p) by reflexivity.
  destruct (inp p) as [|c0 s] eqn:Hinp.
  { (* the stream ends where the field would begin *)
    symmetry in Hi. apply app_eq_nil in Hi as [-> ->].
    inversion Hfo; subst. cbn [fgetc]. simpl.
    eexists. split; [reflexivity|]. ctx_simpl.
    repeat split; auto. }
  cbn [fgetc].
  assert (Hc0 : c0 <> EOF /\ c0 <> QUOTE).
  { destruct t as [|b t'].
    - simpl in Hi. destruct Hfo; try discriminate Hi;
        injection Hi as E1 E2; rewrite E1; split; auto; discriminate.
    - simpl in Hi. injection Hi as -> _. simpl in Hhd.
      inversion Ht as [|? ? (Hb & _) _]; subst.
      split; [unfold text_byte, EOF in *; lia|exact Hhd]. }
  destruct Hc0 as [Hne Hnq].
  rewrite (proj2 (Z.eqb_neq c0 EOF) Hne), (proj2 (Z.eqb_neq c0 QUOTE) Hnq).
  cbn [orb].
  assert (Hval : bare_value t c = Some t).
  { destruct t; [|reflexivity]. simpl.
    inversion Hfo; subst; try discriminate;
      rewrite (proj2 (Z.eqb_neq _ EOF)); auto. }
  assert (Hcs : cstr t = t).
  { apply cstr_id. eapply Forall_impl; [exact Ht|].
    unfold text_byte. intros b (? & _). lia. }
  assert (Hloop : Forall (fun b => 0 <= b < 256 /\ b <> cColSep p
                                   /\ b <> cRowSep p) t).
  { eapply Forall_impl; [exact Ht|]. unfold text_byte.
    intros b (? & ? & ? & _). repeat split; auto; lia. }
  assert (Hncr : Forall (fun b => b <> CR) t).
  { eapply Forall_impl; [exact Ht|]. intros b (_ & _ & _ & ?). auto. }
  rewrite Hval.
  inversion Hfo; subst.
  - (* a column separator follows *)
    destruct (unquoted_loop_text t s (set_inp (set_n p 0) s) c0 []
                (cColSep p :: rest))
      as (p1 & Hl & Hh1 & Hi1 & Hs1 & Hn1 & Hc1);
      [apply holds_set_inp; exact H0 | reflexivity | exact Hi | exact Hloop
      | right; eauto |].
    rewrite Hl. cbn [hd tl] in *. ctx_simpl. simpl in Hh1. decide_eqb.
    ctx_simpl.
    destruct (terminate_holds (set_cTerm p1 (cColSep p)) t []
                (holds_set_cTerm _ _ _ Hh1)) as (l & Hte & Hh2 & _).
    rewrite Hte, Hcs. eexists. split; [reflexivity|]. ctx_simpl.
    split; [exact Hi1|]. split; [reflexivity|].
    split; [eapply holds_allocated; exact Hh2|].
    unfold same_setup in *. ctx_simpl. intuition congruence.
  - (* the row separator follows *)
    destruct (unquoted_loop_text t s (set_inp (set_n p 0) s) c0 []
                (cRowSep p :: rest))
      as (p1 & Hl & Hh1 & Hi1 & Hs1 & Hn1 & Hc1);
      [apply holds_set_inp; exact H0 | reflexivity | exact Hi | exact Hloop
      | right; eauto |].
    rewrite Hl. cbn [hd tl] in *. ctx_simpl. simpl in Hh1. decide_eqb.
    ctx_simpl.
    rewrite (strip_cr_keep _ t (holds_set_nLine _ _ _ Hh1) Hncr). ctx_simpl.
    destruct (terminate_holds
                (set_cTerm (set_nLine p1 (nLine p1 + 1)) (cRowSep p)) t []
                (holds_set_cTerm _ _ _ (holds_set_nLine _ _ _ Hh1)))
      as (l & Hte & Hh2 & _).
    rewrite Hte, Hcs. eexists. split; [reflexivity|]. ctx_simpl.
    split; [exact Hi1|]. split; [reflexivity|].
    split; [eapply holds_allocated; exact Hh2|].
    unfold same_setup in *. ctx_simpl. intuition congruence.
  - (* carriage return and the row separator follow *)
    destruct (unquoted_loop_text (t ++ [CR]) s (set_inp (set_n p 0) s) c0 []
                (cRowSep p :: rest))
      as (p1 & Hl & Hh1 & Hi1 & Hs1 & Hn1 & Hc1);
      [apply holds_set_inp; exact H0 | reflexivity
      | rewrite <- app_assoc; exact Hi
      | apply Forall_app; split; [exact Hloop|];
        repeat constructor; auto; unfold CR; lia
      | right; eauto |].
    rewrite Hl. cbn [hd tl] in *. ctx_simpl. simpl in Hh1. decide_eqb.
    ctx_simpl.
    destruct (strip_cr_drop _ t (holds_set_nLine _ _ (nLine p1 + 1) Hh1))
      as [Hsc Hh2].
    rewrite Hsc. ctx_simpl.
    destruct (terminate_holds _ t [] (holds_set_cTerm _ _ (cRowSep p) Hh2))
      as (l & Hte & Hh3 & _).
    ctx_simpl. rewrite Hte, Hcs. eexists. split; [reflexivity|]. ctx_simpl.
    split; [exact Hi1|]. split; [reflexivity|].
    split; [eapply holds_allocated; exact Hh3|].
    unfold same_setup in *. ctx_simpl. intuition congruence.
  - (* the stream ends *)
    rewrite app_nil_r in Hi.
    destruct (unquoted_loop_text t s (set_inp (set_n p 0) s) c0 [] [])
      as (p1 & Hl & Hh1 & Hi1 & Hs1 & Hn1 & Hc1);
      [apply holds_set_inp; exact H0 | reflexivity
      | rewrite app_nil_r; exact Hi | exact Hloop | left; reflexivity |].
    rewrite Hl. cbn [hd tl] in *. ctx_simpl. simpl in Hh1. decide_eqb.
    ctx_simpl.
    destruct (terminate_holds (set_cTerm p1 EOF) t []
                (holds_set_cTerm _ _ _ Hh1)) as (l & Hte & Hh2 & _).
    rewrite Hte, Hcs. eexists. split; [reflexivity|]. ctx_simpl.
    split; [exact Hi1|]. split; [reflexivity|].
    split; [eapply holds_allocated; exact Hh2|].
    unfold same_setup in *. ctx_simpl. intuition congruence.
Qed.

End Text.

Lemma follows_end cSep rSep e rest :
  (e = EndStream -> rest = []) ->
  follows cSep rSep (end_bytes rSep e ++ rest) (end_term rSep e) rest.
Proof.
  destruct e; simpl; intros H; try constructor.
  rewrite H by reflexivity. constructor.
Qed.

Section WellFormedRows.

Variable w : World.
Hypothesis granted : forall size, realloc_ok w size = true.

Lemma xRead_field p fd tail c rest :
  allocated p -> wf_seps (cColSep p) (cRowSep p) ->
  wf_field (cColSep p) (cRowSep p) fd ->
  follows (cColSep p) (cRowSep p) tail c rest ->
  inp p = encode_field fd ++ tail ->
  exists p',
    xRead w CsvReader p = Ok (field_value fd c, p', [])
    /\ inp p' = rest /\ cTerm p' = c /\ allocated p' /\ same_setup p p'.
Proof.
  intros Ha Hw Hf Hfo Hi. destruct fd as [t|t]; cbn [xRead field_value].
  - apply csv_read_bare with (tail := tail); auto.
  - apply csv_read_quoted with (tail := tail); auto.
    rewrite Hi. simpl. rewrite <- app_assoc. reflexivity.
Qed.

Lemma field_value_sep fd c :
  c <> EOF -> field_value fd c = Some (text fd).
Proof.
  intros Hc. destruct fd as [[|b t]|t]; simpl; auto.
  rewrite (proj2 (Z.eqb_neq c EOF) Hc). reflexivity.
Qed.

(** The reads of a well-formed row. *)
Lemma wf_row_reads fds : forall p e rest,
  fds <> [] -> allocated p -> wf_seps (cColSep p) (cRowSep p) ->
  Forall (wf_field (cColSep p) (cRowSep p)) fds ->
  (e = EndStream -> rest = []) ->
  inp p = encode_row (cColSep p) fds ++ end_bytes (cRowSep p) e ++ rest ->
  exists p',
    row_reads w CsvReader p (map silent (row_values (cRowSep p) fds e)) p'
    /\ inp p' = rest /\ cTerm p' = end_term (cRowSep p) e
    /\ allocated p' /\ same_setup p p'.
Proof.
  induction fds as [|fd fds IH]; intros p e rest Hne Ha Hw Hf He Hi;
    [contradiction|].
  inversion Hf as [|? ? Hfd Hfds]; subst.
  pose proof Hw as (Hcr & Hcq & Hrq & Hcc & Hrc & Hce & Hre).
  destruct fds as [|fd2 fds].
  - (* the last field of the row *)
    destruct (xRead_field p fd _ _ rest Ha Hw Hfd
                (follows_end (cColSep p) (cRowSep p) e rest He) Hi)
      as (p' & Hx & Hi' & Hc' & Ha' & Hs').
    exists p'. split; [|auto].
    apply row_reads_last; [exact Hx|].
    destruct Hs' as (_ & -> & _). rewrite Hc'.
    destruct e; simpl; congruence.
  - (* a field with a column separator behind it *)
    cbn [encode_row] in Hi. rewrite <- app_assoc in Hi. cbn [app] in Hi.
    destruct (xRead_field p fd _ _ _ Ha Hw Hfd
                (follows_col (cColSep p) (cRowSep p) _) Hi)
      as (p1 & Hx & Hi1 & Hc1 & Ha1 & Hs1).
    pose proof Hs1 as (_ & Ec & Er).
    destruct (IH p1 e rest) as (p' & Hr & Hi' & Hc' & Ha' & Hs');
      [discriminate | exact Ha1 | rewrite Ec, Er; exact Hw
      | rewrite Ec, Er; exact Hfds | exact He
      | rewrite Ec, Er; exact Hi1 |].
    exists p'. rewrite Er in *.
    split; [|split; [exact Hi'|split; [exact Hc'|split; [exact Ha'|]]]].
    + change (row_values (cRowSep p) (fd :: fd2 :: fds) e)
        with (Some (text fd) :: row_values (cRowSep p) (fd2 :: fds) e).
      cbn [map]. eapply row_reads_more; [|rewrite Ec; exact Hc1|exact Hr].
      rewrite <- (field_value_sep fd (cColSep p) Hce). exact Hx.
    + eapply same_setup_trans; eauto.
Qed.

(** The values of a row are the texts of its fields, unless the stream
    ends where a bare last field would begin. *)
Lemma row_values_texts rSep fds e :
  rSep <> EOF ->
  (e = EndStream -> last fds <> Some (Bare [])) ->
  row_values rSep fds e = map (fun fd => Some (text fd)) fds.
Proof.
  intros Hr. induction fds as [|fd fds IH]; intros He; [reflexivity|].
  destruct fds as [|fd2 fds].
  - cbn [row_values map]. f_equal.
    destruct e; try (apply field_value_sep; exact Hr).
    destruct fd as [[|b t]|t]; try reflexivity.
    exfalso. apply He; reflexivity.
  - change (row_values rSep (fd :: fd2 :: fds) e)
      with (Some (text fd) :: row_values rSep (fd2 :: fds) e).
    cbn [map]. f_equal. apply IH. exact He.
Qed.

End WellFormedRows.

(** ** The loops of the loader come to an end *)

Lemma progress_moved p p' : read_progress p p' -> moved p p'.
Proof.
  intros [H|(H1 & H2 & H3)]; [left; exact H|].
  right. rewrite H1, H2. auto.
Qed.

Lemma moved_trans p1 p2 p3 : moved p1 p2 -> moved p2 p3 -> moved p1 p3.
Proof.
  unfold moved. intros [H1|[H1 E1]] [H2|[H2 E2]].
  - left. lia.
  - left. lia.
  - left. lia.
  - right. split; [lia|exact E2].
Qed.

Section Termination.

Variable w : World.
Variable db : Db.
Hypothesis granted : forall size, realloc_ok w size = true.

Lemma read_header_total r : forall fuel p cols tr,
  allocated p -> cColSep p <> EOF -> (length (inp p) < fuel)%nat ->
  exists p' cols' tr',
    read_header w fuel r p cols tr = Ok (p', cols', tr')
    /\ allocated p' /\ same_setup p p'
    /\ (length (inp p') <= length (inp p))%nat
    /\ (cols' = [] -> cols = [] /\ fst (fgetc (inp p)) = EOF).
Proof.
  induction fuel as [|fuel IH]; intros p cols tr Ha Hc Hf; [lia|].
  cbn [read_header].
  destruct (xRead_total w r p granted Ha)
    as (v & p1 & d & Hx & Hs & Hp & _ & Ha1 & Hnone).
  rewrite Hx. ctx_simpl.
  assert (Hle : (length (inp p1) <= length (inp p))%nat).
  { destruct Hp as [?|(-> & -> & _)]; lia. }
  destruct v as [name|].
  2:{ eexists _, _, _. split; [reflexivity|].
      split; [exact Ha1|]. split; [exact Hs|]. split; [exact Hle|].
      intros ->. split; [reflexivity|]. apply Hnone. reflexivity. }
  destruct (Z.eqb_spec (cTerm p1) (cColSep p1)) as [He|Hne]; cbn [negb].
  2:{ eexists _, _, _. split; [reflexivity|].
      split; [exact Ha1|]. split; [exact Hs|]. split; [exact Hle|].
      intros H. apply app_eq_nil in H as [_ H]. discriminate. }
  pose proof Hs as (_ & Ec & _).
  assert (Hlt : (length (inp p1) < length (inp p))%nat).
  { destruct Hp as [?|(_ & _ & Ht)]; [assumption|]. congruence. }
  destruct (IH p1 (cols ++ [name]) (tr ++ d))
    as (p' & cols' & tr' & Hh & Ha' & Hs' & Hl' & Hcols);
    [exact Ha1 | congruence | lia |].
  exists p', cols', tr'. split; [exact Hh|]. split; [exact Ha'|].
  split; [eapply same_setup_trans; eauto|]. split; [lia|].
  intros E. apply Hcols in E as [E _].
  apply app_eq_nil in E as [_ E]. discriminate.
Qed.

Lemma drain_total r : forall fuel i p tr,
  allocated p -> cColSep p <> EOF -> (length (inp p) < fuel)%nat ->
  exists i' p' tr',
    drain w fuel r i p tr = Ok (i', p', tr')
    /\ allocated p' /\ same_setup p p' /\ moved p p'.
Proof.
  induction fuel as [|fuel IH]; intros i p tr Ha Hc Hf; [lia|].
  cbn [drain].
  destruct (xRead_total w r p granted Ha)
    as (v & p1 & d & Hx & Hs & Hp & _ & Ha1 & _).
  rewrite Hx. ctx_simpl.
  destruct (Z.eqb_spec (cTerm p1) (cColSep p1)) as [He|Hne].
  2:{ eexists _, _, _. split; [reflexivity|].
      split; [exact Ha1|]. split; [exact Hs|]. apply progress_moved, Hp. }
  pose proof Hs as (_ & Ec & _).
  assert (Hlt : (length (inp p1) < length (inp p))%nat).
  { destruct Hp as [?|(_ & _ & Ht)]; [assumption|]. congruence. }
  destruct (IH (i + 1) p1 (tr ++ d)) as (i' & p' & tr' & Hh & Ha' & Hs' & Hm);
    [exact Ha1 | congruence | lia |].
  exists i', p', tr'. split; [exact Hh|]. split; [exact Ha'|].
  split; [eapply same_setup_trans; eauto|].
  eapply moved_trans; [apply progress_moved; exact Hp|exact Hm].
Qed.

Lemma read_columns_total md r nCol startLine : forall fuel i p tr,
  allocated p -> nCol - i <= Z.of_nat fuel ->
  exists i' p' tr',
    read_columns w fuel md r nCol startLine i p tr = Ok (i', p', tr')
    /\ allocated p' /\ same_setup p p'
    /\ ((nCol <= i /\ p' = p) \/ moved p p').
Proof.
  induction fuel as [|fuel IH]; intros i p tr Ha Hf.
  - cbn [read_columns]. destruct (Z.ltb_spec i nCol); [lia|].
    exists i, p, tr. repeat split; auto.
  - cbn [read_columns]. destruct (Z.ltb_spec i nCol).
    2:{ exists i, p, tr. repeat split; auto. }
    destruct (xRead_total w r p granted Ha)
      as (v & p1 & d & Hx & Hs & Hp & _ & Ha1 & _).
    rewrite Hx. ctx_simpl.
    pose proof (progress_moved _ _ Hp) as Hm.
    destruct (bool_decide (v = None) && (i =? 0)).
    { eexists _, _, _. split; [reflexivity|]. auto. }
    destruct ((md =? MODE_Ascii) && null_or_empty v && (i =? 0)).
    { eexists _, _, _. split; [reflexivity|]. auto. }
    assert (Hnext : forall j t, i < j ->
      exists i' p' tr',
        read_columns w fuel md r nCol startLine j p1 t = Ok (i', p', tr')
        /\ allocated p' /\ same_setup p p' /\ moved p p').
    { intros j t Hj.
      destruct (IH j p1 t Ha1) as (i' & p' & tr' & Hh & Ha' & Hs' & Hm');
        [lia|].
      exists i', p', tr'. split; [exact Hh|]. split; [exact Ha'|].
      split; [eapply same_setup_trans; eauto|].
      destruct Hm' as [[_ ->]|Hm']; [exact Hm|].
      eapply moved_trans; eauto. }
    destruct ((i <? nCol - 1) && negb (cTerm p1 =? cColSep p1)) eqn:Hshort.
    + apply andb_true_iff in Hshort as [Hi _]. apply Z.ltb_lt in Hi.
      rewrite (bind_nulls_spec nCol (Z.to_nat (nCol - 1 - i))) by lia.
      ctx_simpl.
      match goal with |- context [read_columns w fuel md r nCol startLine
                                    ?j p1 ?t] =>
        destruct (Hnext j t) as (i' & p' & tr' & Hh & Hrest) end; [lia|].
      exists i', p', tr'. split; [exact Hh|].
      destruct Hrest as (? & ? & ?). auto.
    + match goal with |- context [read_columns w fuel md r nCol startLine
                                    ?j p1 ?t] =>
        destruct (Hnext j t) as (i' & p' & tr' & Hh & Hrest) end; [lia|].
      exists i', p', tr'. split; [exact Hh|].
      destruct Hrest as (? & ? & ?). auto.
Qed.

Lemma import_row_total fuel md r nCol k p :
  allocated p -> cColSep p <> EOF -> 0 < nCol ->
  nCol <= Z.of_nat fuel -> (length (inp p) < fuel)%nat ->
  exists p' k' d,
    import_row w db fuel md r nCol k p = Ok (p', k', d)
    /\ allocated p' /\ same_setup p p' /\ moved p p'.
Proof.
  intros Ha Hc Hn Hf Hl. unfold import_row.
  destruct (read_columns_total md r nCol (nLine p) fuel 0 p [] Ha)
    as (i1 & p1 & tr1 & Hrc & Ha1 & Hs1 & Hm1); [lia|].
  destruct Hm1 as [[? _]|Hm1]; [lia|].
  rewrite Hrc. ctx_simpl.
  pose proof Hs1 as (_ & Ec & _).
  assert (Hdr : exists i2 p2 tr2,
    (if cTerm p1 =? cColSep p1
     then drain w fuel r i1 p1 tr1
          ≫= (fun '(i, p0, tr) =>
                Ok (i, p0, tr ++ [Diag (zFile p0) (nLine p) (LongRow nCol i)]))
     else Ok (i1, p1, tr1)) = Ok (i2, p2, tr2)
    /\ allocated p2 /\ same_setup p p2 /\ moved p p2).
  { destruct (cTerm p1 =? cColSep p1).
    - destruct (drain_total r fuel i1 p1 tr1 Ha1)
        as (i2 & p2 & tr2 & Hd & Ha2 & Hs2 & Hm2); [congruence| |].
      { destruct Hm1 as [?|[? _]]; lia. }
      rewrite Hd. ctx_simpl. eexists _, _, _. split; [reflexivity|].
      split; [exact Ha2|]. split; [eapply same_setup_trans; eauto|].
      eapply moved_trans; eauto.
    - exists i1, p1, tr1. auto. }
  destruct Hdr as (i2 & p2 & tr2 & Hd & Ha2 & Hs2 & Hm2).
  rewrite Hd. ctx_simpl.
  destruct (i2 >=? nCol); eexists _, _, _; (split; [reflexivity|]); auto.
Qed.

Lemma row_loop_total md r nCol : forall fuel k p tr,
  allocated p -> cColSep p <> EOF -> 0 < nCol ->
  Z.of_nat (length (inp p)) + nCol < Z.of_nat fuel ->
  exists p' tr', row_loop w db fuel md r nCol k p tr = Ok (p', tr').
Proof.
  induction fuel as [|fuel IH]; intros k p tr Ha Hc Hn Hf; [lia|].
  cbn [row_loop].
  destruct (import_row_total (S fuel) md r nCol k p Ha Hc Hn)
    as (p1 & k1 & d & Hr & Ha1 & Hs1 & Hm1); [lia|lia|].
  rewrite Hr. ctx_simpl.
  destruct (Z.eqb_spec (cTerm p1) EOF) as [He|Hne]; cbn [negb];
    [eauto|].
  destruct Hm1 as [Hlt|[_ ?]]; [|contradiction].
  pose proof Hs1 as (_ & Ec & _).
  apply IH; auto; [congruence|lia].
Qed.

End Termination.

(** ** The whole import *)

Lemma sqlite_import_unfold w db fuel zFile0 :
  sqlite_import w db fuel zFile0
  = match open_stream w zFile0 with
    | (None, _, _) => Ok (1, [Error CannotOpen])
    | (Some bytes, name, xCloser) =>
        '(status, tr) ← import_stream w db fuel MODE_Csv CsvReader xCloser
                          (start_ctx name bytes);
        Ok (status, Open xCloser :: tr)
    end.
Proof.
  unfold sqlite_import, import_configured.
  destruct (open_stream w zFile0) as [[[bytes|] name] xCloser]; reflexivity.
Qed.

(** The first append allocates the buffer. *)
Lemma first_append w name bytes :
  realloc_ok w 100 = true ->
  exists p, import_append_char (realloc_ok w) (junk w) (start_ctx name bytes) 0
            = Ok p
    /\ allocated p /\ inp p = bytes /\ zFile p = name
    /\ cColSep p = COMMA /\ cRowSep p = LF.
Proof.
  intros Hg. unfold import_append_char, start_ctx. ctx_simpl.
  change (0 + 1 >=? 0) with true. cbn iota.
  change (0 + (0 + 100)) with 100. rewrite Hg. ctx_simpl.
  unfold realloc, put_at. rewrite length_resize.
  change ((0 <=? 0) && (0 <? Z.of_nat (Z.to_nat 100))) with true.
  cbn iota. ctx_simpl. eexists. split; [reflexivity|]. ctx_simpl.
  split; [|auto].
  eexists. ctx_simpl. split; [reflexivity|].
  rewrite length_insert, length_resize. split; [reflexivity|]. lia.
Qed.

Lemma first_read_at_eof w p :
  fst (fgetc (inp p)) = EOF ->
  exists p', xRead w CsvReader p = Ok (None, p', []).
Proof.
  intros H. cbn [xRead]. unfold csv_read_one_field. cbv zeta.
  replace (inp (set_n p 0)) with (inp p) by reflexivity.
  destruct (fgetc (inp p)) as [c s]. simpl in H. subst c.
  cbn [orb Z.eqb EOF]. eauto.
Qed.

(** ** The lines of the diagnostics of a row *)

Lemma row_event_widen file start last last' e :
  last <= last' -> row_event_ok file start last e ->
  row_event_ok file start last' e.
Proof.
  intros Hl. destruct e; simpl; auto.
  intros [-> H]. split; [reflexivity|]. destruct (loader_msg m); lia.
Qed.

Lemma tokenizer_row_event file start last sl lo hi e :
  start <= sl <= last -> start <= lo -> hi <= last ->
  tokenizer_diag file sl lo hi e -> row_event_ok file start last e.
Proof.
  intros Hs Hlo Hhi [->|(line & -> & Hl)]; simpl; split; auto; lia.
Qed.

Section RowEvents.

Variable w : World.
Variable db : Db.

Lemma bind_nulls_events nCol : forall fuel i tr i' tr',
  bind_nulls fuel nCol i tr = Ok (i', tr') ->
  exists t2, tr' = tr ++ t2 /\ Forall (fun e => exists j, e = BindNull j) t2.
Proof.
  induction fuel as [|fuel IH]; intros i tr i' tr' H; cbn [bind_nulls] in H.
  - destruct (i <=? nCol); inv_ok. exists []. rewrite app_nil_r. auto.
  - destruct (i <=? nCol); inv_ok.
    + apply IH in H as (t2 & -> & Ht). exists (BindNull i :: t2).
      rewrite <- app_assoc. split; [reflexivity|]. constructor; eauto.
    + exists []. rewrite app_nil_r. auto.
Qed.

Lemma read_columns_events md r nCol start : forall fuel i p tr i' p' tr',
  read_columns w fuel md r nCol start i p tr = Ok (i', p', tr') ->
  start <= nLine p ->
  same_setup p p' /\ nLine p <= nLine p'
  /\ exists t2, tr' = tr ++ t2
       /\ Forall (row_event_ok (zFile p) start (nLine p')) t2.
Proof.
  induction fuel as [|fuel IH]; intros i p tr i' p' tr' H Hst;
    cbn [read_columns] in H.
  - destruct (i <? nCol); inv_ok. split; [repeat split|]. split; [lia|].
    exists []. rewrite app_nil_r. auto.
  - destruct (i <? nCol).
    2:{ inv_ok. split; [repeat split|]. split; [lia|].
        exists []. rewrite app_nil_r. auto. }
    apply rbind_ok in H as ([[v p1] d] & Hx & H).
    apply xRead_frame in Hx as (Hs & Hl & Hd).
    assert (Hd' : forall last, nLine p1 <= last ->
              Forall (row_event_ok (zFile p) start last) d).
    { intros last Hlast. eapply Forall_impl; [exact Hd|]. intros e.
      apply tokenizer_row_event; lia. }
    pose proof Hs as (Ef & _).
    destruct (bool_decide (v = None) && (i =? 0)).
    { inv_ok. split; [exact Hs|]. split; [exact Hl|].
      exists d. split; [reflexivity|]. apply Hd'. lia. }
    destruct ((md =? MODE_Ascii) && null_or_empty v && (i =? 0)).
    { inv_ok. split; [exact Hs|]. split; [exact Hl|].
      exists d. split; [reflexivity|]. apply Hd'. lia. }
    destruct ((i <? nCol - 1) && negb (cTerm p1 =? cColSep p1)).
    + apply rbind_ok in H as ([i2 tr2] & Hbn & H).
      apply bind_nulls_events in Hbn as (t2 & -> & Ht2).
      apply IH in H as (Hs' & Hl' & t3 & -> & Ht3); [|lia].
      split; [eapply same_setup_trans; eauto|]. split; [lia|].
      eexists. rewrite <- !app_assoc. split; [reflexivity|].
      rewrite Ef in Ht3.
      repeat (apply Forall_app; split); auto; try apply Hd'; try lia.
      * repeat constructor.
      * repeat constructor. exact Ef.
      * eapply Forall_impl; [exact Ht2|]. intros e [j ->]. exact I.
    + apply IH in H as (Hs' & Hl' & t3 & -> & Ht3); [|lia].
      split; [eapply same_setup_trans; eauto|]. split; [lia|].
      eexists. rewrite <- !app_assoc. split; [reflexivity|].
      rewrite Ef in Ht3.
      repeat (apply Forall_app; split); auto; try apply Hd'; try lia.
      repeat constructor.
Qed.

Lemma drain_events r start : forall fuel i p tr i' p' tr',
  drain w fuel r i p tr = Ok (i', p', tr') ->
  start <= nLine p ->
  same_setup p p' /\ nLine p <= nLine p'
  /\ exists t2, tr' = tr ++ t2
       /\ Forall (row_event_ok (zFile p) start (nLine p')) t2.
Proof.
  induction fuel as [|fuel IH]; intros i p tr i' p' tr' H Hst;
    cbn [drain] in H; [discriminate|].
  apply rbind_ok in H as ([[v p1] d] & Hx & H).
  apply xRead_frame in Hx as (Hs & Hl & Hd).
  assert (Hd' : forall last, nLine p1 <= last ->
            Forall (row_event_ok (zFile p) start last) d).
  { intros last Hlast. eapply Forall_impl; [exact Hd|]. intros e.
    apply tokenizer_row_event; lia. }
  pose proof Hs as (Ef & _).
  destruct (cTerm p1 =? cColSep p1).
  - apply IH in H as (Hs' & Hl' & t3 & -> & Ht3); [|lia].
    split; [eapply same_setup_trans; eauto|]. split; [lia|].
    eexists. rewrite <- !app_assoc. split; [reflexivity|].
    rewrite Ef in Ht3. apply Forall_app. split; [apply Hd'; lia|exact Ht3].
  - inv_ok. split; [exact Hs|]. split; [exact Hl|].
    exists d. split; [reflexivity|]. apply Hd'. lia.
Qed.

Lemma import_row_events fuel md r nCol k p p' k' tr :
  import_row w db fuel md r nCol k p = Ok (p', k', tr) ->
  Forall (row_event_ok (zFile p) (nLine p) (nLine p')) tr.
Proof.
  unfold import_row. intros H.
  apply rbind_ok in H as ([[i1 p1] tr1] & Hrc & H).
  apply read_columns_events in Hrc as (Hs1 & Hl1 & t1 & E1 & Ht1); [|lia].
  simpl in E1. subst tr1.
  apply rbind_ok in H as ([[i2 p2] tr2] & Hdr & H).
  assert (Hmid : same_setup p p2 /\ nLine p1 <= nLine p2
                 /\ Forall (row_event_ok (zFile p) (nLine p) (nLine p2)) tr2).
  { destruct (cTerm p1 =? cColSep p1).
    - apply rbind_ok in Hdr as ([[i3 p3] tr3] & Hd & Hdr).
      apply (drain_events r (nLine p)) in Hd
        as (Hs3 & Hl3 & t3 & -> & Ht3); [|lia].
      inv_ok. pose proof Hs1 as (Ef & _). rewrite Ef in Ht3.
      split; [eapply same_setup_trans; eauto|]. split; [lia|].
      repeat (apply Forall_app; split); auto.
      + eapply Forall_impl; [exact Ht1|]. intros e.
        apply row_event_widen. lia.
      + repeat constructor.
        destruct Hs1 as (E1 & _), Hs3 as (E3 & _). simpl. congruence.
    - inv_ok. split; [exact Hs1|]. split; [lia|exact Ht1]. }
  destruct Hmid as (Hs2 & Hl2 & Ht2). pose proof Hs2 as (Ef & _).
  destruct (i2 >=? nCol); inv_ok; [|exact Ht2].
  apply Forall_app. split; [exact Ht2|].
  do 2 (constructor; [exact I|]).
  destruct (negb _); repeat constructor; exact Ef.
Qed.

End RowEvents.

(** ** What a read takes from the stream *)

Lemma count_sep_app rSep l1 l2 :
  count_sep rSep (l1 ++ l2) = count_sep rSep l1 + count_sep rSep l2.
Proof. induction l1 as [|b l1 IH]; simpl; [reflexivity|]. rewrite IH. lia. Qed.

Lemma count_sep_none rSep l :
  Forall (fun b => b <> rSep) l -> count_sep rSep l = 0.
Proof.
  induction 1 as [|b l Hb _ IH]; simpl; [reflexivity|].
  rewrite (proj2 (Z.eqb_neq b rSep) Hb), IH. reflexivity.
Qed.

Lemma nLine_bump p c :
  nLine (bump p c) = nLine p + (if c =? cRowSep p then 1 else 0).
Proof. unfold bump. destruct (c =? cRowSep p); ctx_simpl; lia. Qed.

Section Consumed.

Variable ok : Z -> bool.
Variable junk : Z.

(** A round of the quoted loop counts the line of the byte it was given
    and leaves the stream alone; it leaves the loop on a separator or on
    the end of the stream only, which it stores as the terminator. *)
Lemma quoted_step_line p startLine pc ppc c st :
  quoted_step ok junk p startLine pc ppc c = Ok st ->
  match st with
  | QBreak p' _ =>
      nLine p' = nLine (bump p c) /\ inp p' = inp p /\ cTerm p' = c
      /\ (c = cColSep p \/ c = cRowSep p \/ c = EOF)
  | QNext p' _ _ _ =>
      nLine p' = nLine (bump p c) /\ inp p' = inp p /\ c <> EOF
  end.
Proof.
  unfold quoted_step. cbv zeta. fold (bump p c).
  destruct (bump_setup p c) as (Ef & Ec & Er & Ei & _).
  destruct ((c =? QUOTE) && (pc =? QUOTE)) eqn:Hpair.
  { intros H. inv_ok. apply andb_true_iff in Hpair as [Hc _].
    apply Z.eqb_eq in Hc. subst c. repeat split; auto; discriminate. }
  match goal with |- context [if ?b then (strip_to_quote _ ≫= _) else _] =>
    destruct b eqn:Hterm end.
  { intros H. inv_ok. apply strip_frame in Ha as (_ & _ & _ & Hi & Hl & _).
    ctx_simpl. split; [exact Hl|]. split; [congruence|]. split; [reflexivity|].
    rewrite !orb_true_iff, !andb_true_iff, !Z.eqb_eq in Hterm.
    intuition. }
  destruct (Z.eqb_spec c EOF) as [->|Hne].
  { intros H. inv_ok. ctx_simpl. repeat split; auto. }
  intros H. inv_ok. apply append_frame in Ha as (_ & _ & _ & Hi & Hl & _).
  split; [exact Hl|]. split; [congruence|exact Hne].
Qed.

Lemma quoted_loop_consumed s : forall p startLine pc ppc d p' d',
  quoted_loop ok junk s p startLine pc ppc d = Ok (p', d') ->
  Forall (fun b => b <> EOF) s -> cRowSep p <> EOF ->
  exists pre,
    s = pre ++ inp p'
    /\ nLine p' = nLine p + count_sep (cRowSep p) pre
    /\ (cTerm p' = cColSep p \/ cTerm p' = cRowSep p \/ cTerm p' = EOF)
    /\ (cTerm p' = EOF -> inp p' = [])
    /\ (cTerm p' <> EOF -> last pre = Some (cTerm p')).
Proof.
  induction s as [|c s IH]; intros p startLine pc ppc d p' d' H Hs Hr.
  - rewrite quoted_loop_nil in H. apply rbind_ok in H as (st & Hst & H).
    pose proof (quoted_step_line _ _ _ _ _ _ Hst) as Hl.
    destruct st as [p1 d1|]; [|discriminate]. injection H as <- <-.
    destruct Hl as (Hn & Hi & Hc & Hk). ctx_simpl.
    exists []. rewrite nLine_bump in Hn. ctx_simpl.
    rewrite (proj2 (Z.eqb_neq EOF (cRowSep p))) in Hn by congruence.
    simpl. repeat split; auto; try lia; try congruence.
  - rewrite quoted_loop_cons in H. apply rbind_ok in H as (st & Hst & H).
    pose proof (quoted_step_line _ _ _ _ _ _ Hst) as Hl.
    apply quoted_step_frame in Hst as (q & dq & Hq & Hsame & _).
    inversion Hs as [|? ? Hc Hs']; subst.
    destruct st as [p1 d1|p1 pc1 ppc1 d1].
    + injection H as <- <-. destruct Hl as (Hn & Hi & Hct & Hk).
      ctx_simpl. rewrite nLine_bump in Hn. ctx_simpl.
      exists [c]. simpl. rewrite Hi, Hct.
      repeat split; auto; try lia.
    + destruct Hl as (Hn & Hi & _). ctx_simpl.
      rewrite nLine_bump in Hn. ctx_simpl.
      assert (Es : same_setup p p1).
      { destruct Hq as [E|(? & ? & E)]; [discriminate E|].
        injection E as -> _. exact Hsame. }
      destruct Es as (_ & Ec & Er).
      destruct (IH p1 startLine pc1 ppc1 _ p' d' H Hs')
        as (pre & E1 & E2 & E3 & E4 & E5); [congruence|].
      exists (c :: pre). simpl. rewrite <- E1.
      split; [reflexivity|]. rewrite Er, Ec in *.
      split; [lia|]. split; [exact E3|]. split; [exact E4|].
      intros Hne. specialize (E5 Hne).
      destruct pre; [discriminate|exact E5].
Qed.

(** *** The line of an unescaped quote *)





(** The loop of a bare field stops at the first separator or at the end
    of the stream. *)
Lemma unquoted_loop_consumed s : forall p c p' c',
  unquoted_loop ok junk s p c = Ok (p', c') ->
  inp p = s -> c <> EOF -> Forall (fun b => b <> EOF) s ->
  nLine p' = nLine p /\ cTerm p' = cTerm p
  /\ exists t,
       Forall (fun b => b <> cRowSep p) t
       /\ ((c' = EOF /\ c :: s = t /\ inp p' = [])
           \/ (c' <> EOF /\ (c' = cColSep p \/ c' = cRowSep p)
               /\ c :: s = t ++ c' :: inp p')).
Proof.
  induction s as [|c1 s IH]; intros p c p' c' H Hi Hc Hs.
  - simpl in H.
    destruct (negb (c =? EOF) && negb (c =? cColSep p)
              && negb (c =? cRowSep p)) eqn:Hcond.
    + inv_ok. apply append_frame in Ha as (_ & _ & _ & _ & Hl & Ht).
      ctx_simpl. split; [exact Hl|]. split; [exact Ht|].
      exists [c]. split; [|left; auto].
      constructor; [|constructor].
      rewrite !andb_true_iff, !negb_true_iff, !Z.eqb_neq in Hcond. tauto.
    + inv_ok. split; [reflexivity|]. split; [reflexivity|].
      exists []. split; [constructor|]. right.
      rewrite !andb_false_iff, !negb_false_iff, !Z.eqb_eq in Hcond.
      rewrite Hi. simpl. intuition.
  - simpl in H.
    destruct (negb (c =? EOF) && negb (c =? cColSep p)
              && negb (c =? cRowSep p)) eqn:Hcond.
    + apply rbind_ok in H as (q & Hq & H).
      apply append_frame in Hq as (_ & Ec & Er & _ & Hl & Ht).
      inversion Hs as [|? ? Hc1 Hs']; subst.
      destruct (IH (set_inp q s) c1 p' c' H eq_refl Hc1 Hs')
        as (En & Et & t & Ht1 & Hcase).
      ctx_simpl. split; [congruence|]. split; [congruence|].
      rewrite Ec, Er in *.
      exists (c :: t). split.
      { constructor; [|exact Ht1].
        rewrite !andb_true_iff, !negb_true_iff, !Z.eqb_neq in Hcond. tauto. }
      destruct Hcase as [(E1 & E2 & E3)|(E1 & E2 & E3)].
      * left. rewrite E2. auto.
      * right. rewrite E3. auto.
    + inv_ok. split; [reflexivity|]. split; [reflexivity|].
      exists []. split; [constructor|]. right.
      rewrite !andb_false_iff, !negb_false_iff, !Z.eqb_eq in Hcond.
      rewrite Hi. simpl. intuition.
Qed.

Lemma terminate_same p d v p' d' :
  terminate_field p d = Ok (v, p', d') ->
  inp p' = inp p /\ nLine p' = nLine p /\ cTerm p' = cTerm p.
Proof.
  intros H. apply terminate_frame in H as ((_ & _ & _ & ? & ? & ?) & _). auto.
Qed.

Lemma csv_read_consumed p v p' d :
  csv_read_one_field ok junk false p = Ok (v, p', d) ->
  Forall (fun b => b <> EOF) (inp p) ->
  cRowSep p <> EOF -> cRowSep p <> QUOTE ->
  exists pre,
    consumed p p' pre
    /\ nLine p' = nLine p + count_sep (cRowSep p) pre
    /\ (cTerm p' = cColSep p \/ cTerm p' = cRowSep p \/ cTerm p' = EOF).
Proof.
  unfold csv_read_one_field, consumed. cbv zeta. intros H Hs Hr Hq.
  replace (inp (set_n p 0)) with (inp p) in H by reflexivity.
  destruct (inp p) as [|c s] eqn:Hi; cbn [fgetc] in H.
  { change ((EOF =? EOF) || false) with true in H. cbn iota in H.
    injection H as <- <- <-. ctx_simpl. exists []. simpl.
    repeat split; auto; lia. }
  inversion Hs as [|? ? Hc Hs']; subst.
  rewrite (proj2 (Z.eqb_neq c EOF) Hc) in H. cbn [orb] in H.
  destruct (Z.eqb_spec c QUOTE) as [->|Hcq].
  - apply rbind_ok in H as ((p1 & d1) & Hl & H).
    apply terminate_same in H as (Ei & En & Et).
    apply quoted_loop_consumed in Hl as (pre & E1 & E2 & E3 & E4 & E5);
      [|exact Hs'|exact Hr].
    ctx_simpl. exists (QUOTE :: pre). cbn [count_sep app].
    rewrite (proj2 (Z.eqb_neq QUOTE (cRowSep p))) by congruence.
    rewrite Ei, En, Et, <- E1. repeat split; auto.
    intros Hne. specialize (E5 Hne). destruct pre; [discriminate|exact E5].
  - apply rbind_ok in H as ((p1 & c1) & Hl & H).
    apply rbind_ok in H as (p2 & H2 & H).
    apply terminate_same in H as (Ei & En & Et). ctx_simpl.
    pose proof (unquoted_loop_frame _ _ _ _ _ _ _ Hl) as ((_ & Ec1 & Er1) & _).
    apply unquoted_loop_consumed in Hl as (En1 & _ & t & Ht & Hcase);
      [|reflexivity|exact Hc|exact Hs']. ctx_simpl.
    assert (E2 : inp p2 = inp p1 /\ cTerm p' = c1
                 /\ nLine p2 = nLine p + (if c1 =? cRowSep p then 1 else 0)).
    { destruct (c1 =? cRowSep p).
      - apply strip_cr_frame in H2 as (_ & _ & _ & E & E' & _).
        ctx_simpl. repeat split; auto; lia.
      - injection H2 as <-. repeat split; auto; lia. }
    destruct E2 as (Ei2 & Ect & En2). rewrite Ei, En, Ei2, En2, Ect.
    destruct Hcase as [(-> & E & Ei1)|(Hne & Hsep & E)].
    + exists t. rewrite E, Ei1, app_nil_r.
      rewrite (proj2 (Z.eqb_neq EOF (cRowSep p))) by congruence.
      rewrite (count_sep_none _ _ Ht).
      repeat split; auto. intros; congruence.
    + exists (t ++ [c1]). rewrite E, <- app_assoc. simpl.
      rewrite count_sep_app, (count_sep_none _ _ Ht). simpl.
      split; [split; [reflexivity|]|].
      * split; [intros; contradiction|]. intros _. apply last_snoc.
      * split; [lia|]. tauto.
Qed.

Lemma ascii_read_consumed p v p' d :
  ascii_read_one_field ok junk false p = Ok (v, p', d) ->
  Forall (fun b => b <> EOF) (inp p) -> cRowSep p <> EOF ->
  exists pre,
    consumed p p' pre
    /\ nLine p' = nLine p + count_sep (cRowSep p) pre
    /\ (cTerm p' = cColSep p \/ cTerm p' = cRowSep p \/ cTerm p' = EOF).
Proof.
  unfold ascii_read_one_field, consumed. cbv zeta. intros H Hs Hr.
  replace (inp (set_n p 0)) with (inp p) in H by reflexivity.
  destruct (inp p) as [|c s] eqn:Hi; cbn [fgetc] in H.
  { change ((EOF =? EOF) || false) with true in H. cbn iota in H.
    injection H as <- <- <-. ctx_simpl. exists []. simpl.
    repeat split; auto; lia. }
  inversion Hs as [|? ? Hc Hs']; subst.
  rewrite (proj2 (Z.eqb_neq c EOF) Hc) in H. cbn [orb] in H.
  apply rbind_ok in H as ((p1 & c1) & Hl & H).
  apply terminate_same in H as (Ei & En & Et). ctx_simpl.
  pose proof (unquoted_loop_frame _ _ _ _ _ _ _ Hl) as ((_ & Ec1 & Er1) & _).
  apply unquoted_loop_consumed in Hl as (En1 & _ & t & Ht & Hcase);
    [|reflexivity|exact Hc|exact Hs']. ctx_simpl.
  assert (E2 : inp p' = inp p1 /\ cTerm p' = c1
               /\ nLine p' = nLine p + (if c1 =? cRowSep p then 1 else 0)).
  { destruct (c1 =? cRowSep p); ctx_simpl; repeat split; auto; lia. }
  destruct E2 as (Ei2 & Ect & En2). rewrite Ei2, En2, Ect.
  destruct Hcase as [(-> & E & Ei1)|(Hne & Hsep & E)].
  + exists t. rewrite E, Ei1, app_nil_r.
    rewrite (proj2 (Z.eqb_neq EOF (cRowSep p))) by congruence.
    rewrite (count_sep_none _ _ Ht).
    repeat split; auto. intros; congruence.
  + exists (t ++ [c1]). rewrite E, <- app_assoc. simpl.
    rewrite count_sep_app, (count_sep_none _ _ Ht). simpl.
    split; [split; [reflexivity|]|].
    * split; [intros; contradiction|]. intros _. apply last_snoc.
    * split; [lia|]. tauto.
Qed.

End Consumed.

Lemma xRead_consumed (w : World) r p v p' d :
  xRead w r p = Ok (v, p', d) ->
  Forall (fun b => b <> EOF) (inp p) ->
  cRowSep p <> EOF -> (r = CsvReader -> cRowSep p <> QUOTE) ->
  exists pre,
    consumed p p' pre
    /\ nLine p' = nLine p + count_sep (cRowSep p) pre
    /\ (cTerm p' = cColSep p \/ cTerm p' = cRowSep p \/ cTerm p' = EOF).
Proof.
  destruct r; cbn [xRead]; intros H Hs Hr Hq.
  - eapply csv_read_consumed; eauto.
  - eapply ascii_read_consumed; eauto.
Qed.

(** ** Reads under an allocator that may refuse *)

Lemma refused_or_bind {A B} (m m' : res A) (f f' : A -> res B) :
  refused_or m m' -> (forall a, refused_or (f a) (f' a)) ->
  refused_or (m ≫= f) (m' ≫= f').
Proof.
  intros [->| ->] Hf; [left; reflexivity|].
  destruct m' as [a| | |]; try (right; reflexivity). apply Hf.
Qed.

Lemma refused_or_refl {A} (m : res A) : refused_or m m.
Proof. right. reflexivity. Qed.

Section Refusal.

Variable ok : Z -> bool.
Variable junk : Z.

Lemma append_refused p c :
  refused_or (import_append_char ok junk p c) (import_append_char granting junk p c).
Proof.
  unfold import_append_char.
  destruct (n p + 1 >=? nAlloc p); [|apply refused_or_refl].
  unfold granting. destruct (ok _); [apply refused_or_refl|left; reflexivity].
Qed.

Lemma quoted_step_refused p startLine pc ppc c :
  refused_or (quoted_step ok junk p startLine pc ppc c)
             (quoted_step granting junk p startLine pc ppc c).
Proof.
  unfold quoted_step. cbv zeta.
  repeat match goal with
  | |- refused_or (if ?b then _ else _) _ => destruct b
  end; try apply refused_or_refl.
  apply refused_or_bind; [apply append_refused|intros; apply refused_or_refl].
Qed.

Lemma quoted_loop_refused s : forall p startLine pc ppc d,
  refused_or (quoted_loop ok junk s p startLine pc ppc d)
             (quoted_loop granting junk s p startLine pc ppc d).
Proof.
  induction s as [|c s IH]; intros p startLine pc ppc d.
  - rewrite !quoted_loop_nil.
    apply refused_or_bind; [apply quoted_step_refused|].
    intros; apply refused_or_refl.
  - rewrite !quoted_loop_cons.
    apply refused_or_bind; [apply quoted_step_refused|].
    intros [q dq|q pc1 ppc1 dq]; [apply refused_or_refl|apply IH].
Qed.

Lemma unquoted_loop_refused s : forall p c,
  refused_or (unquoted_loop ok junk s p c) (unquoted_loop granting junk s p c).
Proof.
  induction s as [|c1 s IH]; intros p c; simpl;
    (destruct (negb (c =? EOF) && negb (c =? cColSep p)
               && negb (c =? cRowSep p)); [|apply refused_or_refl]);
    (apply refused_or_bind; [apply append_refused|]); intros q.
  - apply refused_or_refl.
  - apply IH.
Qed.

Lemma csv_read_refused si p :
  refused_or (csv_read_one_field ok junk si p)
             (csv_read_one_field granting junk si p).
Proof.
  unfold csv_read_one_field. cbv zeta.
  destruct (fgetc (inp (set_n p 0))) as [c s].
  destruct ((c =? EOF) || si); [apply refused_or_refl|].
  destruct (c =? QUOTE).
  - apply refused_or_bind; [apply quoted_loop_refused|].
    intros [q dq]. apply refused_or_refl.
  - apply refused_or_bind; [apply unquoted_loop_refused|].
    intros [q c1]. apply refused_or_refl.
Qed.

Lemma ascii_read_refused si p :
  refused_or (ascii_read_one_field ok junk si p)
             (ascii_read_one_field granting junk si p).
Proof.
  unfold ascii_read_one_field. cbv zeta.
  destruct (fgetc (inp (set_n p 0))) as [c s].
  destruct ((c =? EOF) || si); [apply refused_or_refl|].
  apply refused_or_bind; [apply unquoted_loop_refused|].
  intros [q c1]. apply refused_or_refl.
Qed.

End Refusal.

(** ** Fields as they are written, beyond the well-formed ones *)

Lemma strip_last_cr_snoc f : strip_last_cr (f ++ [CR]) = f.
Proof.
  induction f as [|b f IH]; [reflexivity|].
  cbn [app]. destruct f as [|b2 f]; [reflexivity|].
  change (strip_last_cr (b :: (b2 :: f) ++ [CR]))
    with (b :: strip_last_cr ((b2 :: f) ++ [CR])).
  rewrite IH. reflexivity.
Qed.

Lemma strip_last_cr_keep f b :
  b <> CR -> strip_last_cr (f ++ [b]) = f ++ [b].
Proof.
  intros Hb. induction f as [|b1 f IH].
  - simpl. rewrite (proj2 (Z.eqb_neq b CR) Hb). reflexivity.
  - cbn [app]. destruct f as [|b2 f].
    + simpl. rewrite (proj2 (Z.eqb_neq b CR) Hb). reflexivity.
    + change (strip_last_cr (b1 :: (b2 :: f) ++ [b]))
        with (b1 :: strip_last_cr ((b2 :: f) ++ [b])).
      rewrite IH. reflexivity.
Qed.

Lemma strip_last_cr_app_cons t1 b t2 :
  b <> CR -> strip_last_cr (t1 ++ b :: t2) = t1 ++ b :: strip_last_cr t2.
Proof.
  intros Hb. induction t1 as [|b1 t1 IH].
  - cbn [app]. destruct t2 as [|b2 t2]; [|reflexivity].
    simpl. rewrite (proj2 (Z.eqb_neq b CR) Hb). reflexivity.
  - cbn [app]. destruct (t1 ++ b :: t2) as [|x l] eqn:E.
    + destruct t1; discriminate.
    + change (strip_last_cr (b1 :: x :: l)) with (b1 :: strip_last_cr (x :: l)).
      rewrite IH. reflexivity.
Qed.

Lemma strip_last_cr_Forall (P : Z -> Prop) t :
  Forall P t -> Forall P (strip_last_cr t).
Proof.
  induction t as [|b t IH]; intros Ht; [constructor|].
  inversion Ht as [|? ? Hb Ht']; subst.
  destruct t as [|b2 t].
  - simpl. destruct (b =? CR); [constructor|exact Ht].
  - change (strip_last_cr (b :: b2 :: t))
      with (b :: strip_last_cr (b2 :: t)).
    constructor; auto.
Qed.

Section Written.

Variable ok : Z -> bool.
Variable junk : Z.
Hypothesis granted : forall size, ok size = true.

(** [if( p->n>0 && p->z[p->n-1]=='\r' ) p->n--;] on a buffer that holds
    the text [f]. *)
Lemma strip_cr_text p f :
  holds p f ->
  exists p', strip_cr p = Ok p' /\ holds p' (strip_last_cr f)
             /\ buffer_only p p'.
Proof.
  intros Hh. destruct f as [|b f] using rev_ind.
  - exists p. split; [|split; [exact Hh|repeat split]].
    unfold strip_cr. destruct Hh as (l & _ & _ & Hn & _). simpl in Hn.
    rewrite Hn. reflexivity.
  - clear IHf. destruct (Z.eq_dec b CR) as [->|Hb].
    + destruct (strip_cr_drop p f Hh) as [Hs Hh'].
      rewrite strip_last_cr_snoc. eexists. split; [exact Hs|].
      split; [exact Hh'|repeat split].
    + rewrite strip_last_cr_keep by exact Hb.
      exists p. split; [|split; [exact Hh|repeat split]].
      destruct (holds_last p f b Hh) as [Hpos Hld]. unfold strip_cr.
      rewrite (proj2 (Z.gtb_lt (n p) 0)), Hld by lia. ctx_simpl.
      rewrite (proj2 (Z.eqb_neq b CR) Hb). reflexivity.
Qed.

(** A round of the quoted loop on a byte of the text: the byte is
    appended and its line is counted. *)
Lemma quoted_step_text p startLine pc ppc b f :
  holds p f -> pc <> QUOTE -> (pc = CR -> ppc <> QUOTE) -> 0 <= b < 256 ->
  exists p',
    quoted_step ok junk p startLine pc ppc b = Ok (QNext p' b pc [])
    /\ holds p' (f ++ [b]) /\ inp p' = inp p /\ same_setup p p'
    /\ nLine p' = nLine p + (if b =? cRowSep p then 1 else 0).
Proof.
  intros Hh Hpc Hppc Hb.
  assert (Hst : exists p', quoted_step ok junk p startLine pc ppc b
                           = Ok (QNext p' b pc [])
                           /\ holds p' (f ++ [b]) /\ same_setup p p').
  { unfold quoted_step. cbv zeta. fold (bump p b).
    pose proof (holds_bump p f b Hh) as Hbp.
    destruct (bump_setup p b) as (Ef & Ec & Er & Ei & _).
    destruct (Z.eqb_spec pc QUOTE); [contradiction|].
    assert (E : (pc =? CR) && (ppc =? QUOTE) = false).
    { destruct (Z.eqb_spec pc CR) as [E|]; [|reflexivity].
      apply Hppc in E. rewrite (proj2 (Z.eqb_neq _ _) E). reflexivity. }
    rewrite !andb_false_r, <- andb_assoc, E, andb_false_r. cbn [orb andb].
    destruct (Z.eqb_spec b EOF); [unfold EOF in *; lia|].
    destruct (append_holds ok junk granted (bump p b) f b Hbp)
      as (l & a & Hap & Hh' & _).
    rewrite to_char_byte in Hh' by exact Hb.
    rewrite Hap. ctx_simpl. eexists. split; [reflexivity|].
    split; [exact Hh'|]. unfold same_setup. ctx_simpl. auto. }
  destruct Hst as (p' & Hst & Hh' & Hs). exists p'.
  pose proof (quoted_step_line _ _ _ _ _ _ _ _ Hst) as (Hn & Hi & _).
  rewrite nLine_bump in Hn. auto.
Qed.

(** The rounds of the quoted loop over a text written with its quotes
    doubled, whatever comes behind it. *)
Lemma quoted_loop_escape t : forall p startLine pc ppc d f s,
  cRowSep p <> QUOTE ->
  holds p f -> pc <> QUOTE -> (pc = CR -> ppc <> QUOTE) ->
  Forall text_byte t ->
  exists p1 pc1 ppc1,
    quoted_loop ok junk (escape t ++ s) p startLine pc ppc d
    = quoted_loop ok junk s p1 startLine pc1 ppc1 d
    /\ holds p1 (f ++ t) /\ same_setup p p1
    /\ nLine p1 = nLine p + count_sep (cRowSep p) t
    /\ pc1 <> QUOTE /\ (pc1 = CR -> ppc1 <> QUOTE).
Proof.
  induction t as [|b t IH]; intros p startLine pc ppc d f s Hrq Hh Hpc Hppc Ht.
  - exists p, pc, ppc. rewrite app_nil_r. simpl.
    repeat split; auto. lia.
  - inversion Ht as [|? ? Hb Ht']; subst. cbn [escape count_sep].
    destruct (Z.eqb_spec b QUOTE) as [->|Hbq].
    + cbn [app]. rewrite quoted_loop_cons.
      destruct (quoted_step_text
                  (set_inp p (QUOTE :: escape t ++ s))
                  startLine pc ppc QUOTE f)
        as (p1 & Hst & Hh1 & Hi1 & Hs1 & Hn1);
        [apply holds_set_inp; exact Hh | exact Hpc | exact Hppc
        | unfold QUOTE; lia |].
      rewrite Hst. ctx_simpl. rewrite app_nil_r, quoted_loop_cons.
      destruct Hs1 as (Ef & Ec & Er). ctx_simpl.
      rewrite quoted_step_pair by (ctx_simpl; rewrite Er; exact Hrq).
      ctx_simpl. rewrite app_nil_r.
      destruct (IH (set_inp p1 (escape t ++ s)) startLine 0 pc d
                   (f ++ [QUOTE]) s)
        as (p2 & pc2 & ppc2 & Hl & Hh2 & Hs2 & Hn2 & Hpc2 & Hppc2);
        [ctx_simpl; rewrite Er; exact Hrq
        | apply holds_set_inp; exact Hh1 | discriminate
        | discriminate | exact Ht' |].
      exists p2, pc2, ppc2. rewrite <- app_assoc in Hh2.
      split; [exact Hl|]. split; [exact Hh2|].
      split; [unfold same_setup in *; ctx_simpl; intuition congruence|].
      ctx_simpl. rewrite Er in Hn2.
      rewrite (proj2 (Z.eqb_neq QUOTE (cRowSep p))) in * by congruence.
      split; [lia|]. auto.
    + cbn [app]. rewrite quoted_loop_cons.
      destruct (quoted_step_text
                  (set_inp p (escape t ++ s)) startLine pc ppc b f)
        as (p1 & Hst & Hh1 & Hi1 & Hs1 & Hn1);
        [apply holds_set_inp; exact Hh | exact Hpc | exact Hppc
        | unfold text_byte in Hb; lia |].
      rewrite Hst. ctx_simpl. rewrite app_nil_r.
      destruct Hs1 as (Ef & Ec & Er). ctx_simpl.
      destruct (IH p1 startLine b pc d (f ++ [b]) s)
        as (p2 & pc2 & ppc2 & Hl & Hh2 & Hs2 & Hn2 & Hpc2 & Hppc2);
        [rewrite Er; exact Hrq | exact Hh1 | exact Hbq
        | intros _; exact Hpc | exact Ht' |].
      exists p2, pc2, ppc2. rewrite <- app_assoc in Hh2.
      split; [exact Hl|]. split; [exact Hh2|].
      split; [unfold same_setup in *; ctx_simpl; intuition congruence|].
      rewrite Er in Hn2. split; [lia|]. auto.
Qed.

End Written.

Section ReadText.

Variable ok : Z -> bool.
Variable junk : Z.
Hypothesis granted : forall size, ok size = true.

(** A field of ASCII text up to the next separator. *)
Lemma ascii_read_text (p : ImportCtx) (t tail : list Z) :
  allocated p ->
  cColSep p <> EOF -> cRowSep p <> EOF ->
  Forall (bare_byte (cColSep p) (cRowSep p)) t ->
  at_separator (cColSep p) (cRowSep p) tail ->
  inp p = t ++ tail -> inp p <> [] ->
  exists p',
    ascii_read_one_field ok junk false p = Ok (Some t, p', [])
    /\ inp p' = tl tail /\ cTerm p' = hd EOF tail
    /\ nLine p' = nLine p + (if hd EOF tail =? cRowSep p then 1 else 0).
Proof.
  intros Ha Hce Hre Ht Htail Hi Hne.
  pose proof (holds_reset p Ha) as H0.
  unfold ascii_read_one_field. cbv zeta.
  replace (inp (set_n p 0)) with (inp p) by reflexivity.
  destruct (inp p) as [|c0 s] eqn:Hinp; [contradiction|]. cbn [fgetc].
  assert (Hc0 : c0 <> EOF).
  { destruct t as [|b t'].
    - simpl in Hi. subst tail. simpl in Htail. destruct Htail; congruence.
    - simpl in Hi. injection Hi as -> _.
      inversion Ht as [|? ? (Hb & _) _]; subst. unfold EOF. lia. }
  rewrite (proj2 (Z.eqb_neq c0 EOF) Hc0). cbn [orb].
  destruct (unquoted_loop_text ok junk granted t s (set_inp (set_n p 0) s) c0 []
              tail) as (p1 & Hl & Hh1 & Hi1 & Hs1 & Hn1 & Hc1);
    [apply holds_set_inp; exact H0 | reflexivity | exact Hi
    | eapply Forall_impl; [exact Ht|]; unfold bare_byte; ctx_simpl;
      intros b (? & ? & ?); repeat split; auto; lia
    | destruct tail as [|x rest]; [left; reflexivity|right; eauto] |].
  rewrite Hl. ctx_simpl. simpl in Hh1.
  set (p2 := if hd EOF tail =? cRowSep p then set_nLine p1 (nLine p1 + 1)
             else p1).
  assert (Hh2 : holds (set_cTerm p2 (hd EOF tail)) t).
  { apply holds_set_cTerm. unfold p2.
    destruct (_ =? _); [apply holds_set_nLine|]; exact Hh1. }
  destruct (terminate_holds _ t [] Hh2) as (l & Hte & _).
  rewrite Hte. rewrite cstr_id
    by (eapply Forall_impl; [exact Ht|]; unfold bare_byte; intros; lia).
  eexists. split; [reflexivity|]. ctx_simpl. unfold p2.
  destruct (hd EOF tail =? cRowSep p); ctx_simpl; repeat split; auto; lia.
Qed.

(** A field of CSV bytes, NUL among them, that does not begin with a
    quote: the pointer returned is the string up to the first NUL. *)
Lemma csv_read_bytes (p : ImportCtx) (t tail : list Z) :
  allocated p ->
  wf_seps (cColSep p) (cRowSep p) ->
  Forall (fun b => 0 <= b < 256 /\ b <> cColSep p /\ b <> cRowSep p) t ->
  hd 0 t <> QUOTE ->
  at_separator (cColSep p) (cRowSep p) tail ->
  inp p = t ++ tail -> inp p <> [] ->
  exists p',
    csv_read_one_field ok junk false p
    = Ok (Some (cstr (if hd EOF tail =? cRowSep p then strip_last_cr t
                      else t)),
          p', [])
    /\ inp p' = tl tail /\ cTerm p' = hd EOF tail
    /\ nLine p' = nLine p + (if hd EOF tail =? cRowSep p then 1 else 0).
Proof.
  intros Ha Hw Ht Hhd Htail Hi Hne.
  pose proof Hw as (Hcr & Hcq & Hrq & Hcc & Hrc & Hce & Hre).
  pose proof (holds_reset p Ha) as H0.
  unfold csv_read_one_field. cbv zeta.
  replace (inp (set_n p 0)) with (inp p) by reflexivity.
  destruct (inp p) as [|c0 s] eqn:Hinp; [contradiction|]. cbn [fgetc].
  assert (Hc0 : c0 <> EOF /\ c0 <> QUOTE).
  { destruct t as [|b t'].
    - simpl in Hi. subst tail. simpl in Htail.
      destruct Htail; split; congruence.
    - simpl in Hi. injection Hi as -> _. simpl in Hhd.
      inversion Ht as [|? ? (Hb & _) _]; subst.
      split; [unfold EOF; lia|exact Hhd]. }
  destruct Hc0 as [Hc0 Hq0].
  rewrite (proj2 (Z.eqb_neq c0 EOF) Hc0), (proj2 (Z.eqb_neq c0 QUOTE) Hq0).
  cbn [orb].
  destruct (unquoted_loop_text ok junk granted t s (set_inp (set_n p 0) s) c0 []
              tail) as (p1 & Hl & Hh1 & Hi1 & Hs1 & Hn1 & Hc1);
    [apply holds_set_inp; exact H0 | reflexivity | exact Hi
    | exact Ht
    | destruct tail as [|x rest]; [left; reflexivity|right; eauto] |].
  rewrite Hl. ctx_simpl. simpl in Hh1.
  destruct (hd EOF tail =? cRowSep p).
  - destruct (strip_cr_text (set_nLine p1 (nLine p1 + 1)) t
                (holds_set_nLine _ _ _ Hh1))
      as (p2 & Hsc & Hh2 & (_ & _ & _ & Ei2 & En2 & _)).
    rewrite Hsc. ctx_simpl.
    destruct (terminate_holds _ _ [] (holds_set_cTerm _ _ (hd EOF tail) Hh2))
      as (l & Hte & _).
    rewrite Hte.
    eexists. split; [reflexivity|]. ctx_simpl.
    repeat split; auto; first [congruence|lia].
  - ctx_simpl.
    destruct (terminate_holds _ _ [] (holds_set_cTerm _ _ (hd EOF tail) Hh1))
      as (l & Hte & _).
    rewrite Hte.
    eexists. split; [reflexivity|]. ctx_simpl.
    repeat split; auto. lia.
Qed.

(** A field of CSV text that does not begin with a quote. *)
Lemma csv_read_text (p : ImportCtx) (t tail : list Z) :
  allocated p ->
  wf_seps (cColSep p) (cRowSep p) ->
  Forall (bare_byte (cColSep p) (cRowSep p)) t ->
  hd 0 t <> QUOTE ->
  at_separator (cColSep p) (cRowSep p) tail ->
  inp p = t ++ tail -> inp p <> [] ->
  exists p',
    csv_read_one_field ok junk false p
    = Ok (Some (if hd EOF tail =? cRowSep p then strip_last_cr t else t),
          p', [])
    /\ inp p' = tl tail /\ cTerm p' = hd EOF tail
    /\ nLine p' = nLine p + (if hd EOF tail =? cRowSep p then 1 else 0).
Proof.
  intros Ha Hw Ht Hhd Htail Hi Hne.
  destruct (csv_read_bytes p t tail Ha Hw) as (p' & Hx & Hrest); auto.
  { eapply Forall_impl; [exact Ht|]. unfold bare_byte.
    intros b (? & ? & ?). repeat split; auto; lia. }
  exists p'. split; [|exact Hrest]. rewrite Hx, cstr_id; [reflexivity|].
  destruct (_ =? _); [apply strip_last_cr_Forall|];
    (eapply Forall_impl; [exact Ht|]); unfold bare_byte; intros; lia.
Qed.

End ReadText.

(** * The properties of the specification *)

Ltac example_hyps :=
  try (intros; reflexivity);
  try (exists (replicate 100 0); repeat split; reflexivity);
  try (repeat split; discriminate);
  try (repeat first [constructor | split]; unfold text_byte;
       first [discriminate | lia | reflexivity]).

(** C1.  For a well-formed row of N fields, written with the column
    separator between them and ended by the row separator (alone or behind
    a carriage return) or by the end of the stream, N calls of the CSV
    reader return the texts of the N fields in order, print nothing, leave
    the stream behind the row, and the terminator stored by the last call
    is the row separator, or end-of-stream when the stream ended the
    row. *)
Theorem read_fields_of_row (w : World) (p : ImportCtx) (fds : list field)
    (e : row_end) (rest : list Z) :
  (forall size, realloc_ok w size = true) ->
  allocated p ->
  wf_seps (cColSep p) (cRowSep p) ->
  Forall (wf_field (cColSep p) (cRowSep p)) fds ->
  fds <> [] ->
  (e = EndStream -> rest = [] /\ last fds <> Some (Bare [])) ->
  inp p = encode_row (cColSep p) fds ++ end_bytes (cRowSep p) e ++ rest ->
  exists p',
    read_fields w (length fds) p
    = Ok (map (fun fd => Some (text fd)) fds, p', [])
    /\ cTerm p' = end_term (cRowSep p) e
    /\ inp p' = rest.
Proof.
  intros Hg Ha Hw Hf Hne He Hi.
  destruct (wf_row_reads w Hg fds p e rest Hne Ha Hw Hf) as
    (p' & Hr & Hi' & Hc' & _); [intros E; apply He; exact E | exact Hi |].
  exists p'. split; [|auto].
  apply read_fields_row in Hr.
  rewrite length_map in Hr.
  assert (El : length (row_values (cRowSep p) fds e) = length fds).
  { rewrite row_values_texts; [apply length_map|apply Hw|].
    intros E. apply He; exact E. }
  rewrite El in Hr. rewrite Hr. f_equal. f_equal.
  - f_equal. rewrite map_map. simpl.
    rewrite row_values_texts; [|apply Hw|intros E; apply He; exact E].
    rewrite map_id. reflexivity.
  - clear. induction (row_values (cRowSep p) fds e); simpl; auto.
Qed.

Lemma read_fields_of_row_witness :
  exists p',
    read_fields (example_world [])
      3 (example_ctx [49; 44; 34; 97; 44; 98; 34; 44; 13; 10; 120])
    = Ok ([Some [49]; Some [97; 44; 98]; Some []], p', [])
    /\ cTerm p' = LF /\ inp p' = [120].
Proof.
  apply (read_fields_of_row (example_world [])
           (example_ctx [49; 44; 34; 97; 44; 98; 34; 44; 13; 10; 120])
           [Bare [49]; Quoted [97; 44; 98]; Bare []] EndCrLf [120]);
    example_hyps.
Defined.

(** C2.  A quoted field -- the opening quote, the text with every quote
    written twice, the closing quote -- followed by a column separator, a
    row separator (alone or behind a carriage return) or the end of the
    stream is read by [csv_read_one_field] as one field whose value is the
    text: without the two outer quotes, each pair of quotes as one quote,
    and the column and row separators of the text kept in it. *)
Theorem quoted_field_value (ok : Z -> bool) (junk : Z) (p : ImportCtx)
    (t tail : list Z) (c : Z) (rest : list Z) :
  (forall size, ok size = true) ->
  allocated p ->
  wf_seps (cColSep p) (cRowSep p) ->
  Forall text_byte t ->
  follows (cColSep p) (cRowSep p) tail c rest ->
  inp p = QUOTE :: escape t ++ QUOTE :: tail ->
  exists p',
    csv_read_one_field ok junk false p = Ok (Some t, p', [])
    /\ cTerm p' = c /\ inp p' = rest.
Proof.
  intros Hg Ha Hw Ht Hfo Hi.
  destruct (csv_read_quoted ok junk Hg p t tail c rest Ha Hw Ht Hfo Hi)
    as (p' & Hx & Hi' & Hc' & _).
  exists p'. auto.
Qed.

(** The input of the specification: the quoted text a,b then a line feed
    then c, a doubled quote and d. *)
Lemma quoted_field_value_witness :
  exists p',
    csv_read_one_field (fun _ => true) 0 false
      (example_ctx [34; 97; 44; 98; 10; 99; 34; 34; 100; 34])
    = Ok (Some [97; 44; 98; 10; 99; 34; 100], p', [])
    /\ cTerm p' = EOF /\ inp p' = [].
Proof.
  apply (quoted_field_value (fun _ => true) 0
           (example_ctx [34; 97; 44; 98; 10; 99; 34; 34; 100; 34])
           [97; 44; 98; 10; 99; 34; 100] [] EOF []);
    example_hyps.
Defined.

(** C3 (as amended).  For a row that yields fewer fields than the table
    has columns -- the reads [rs] of the row, the first of which returns a
    field, end at a terminator other than the column separator after
    [length rs < nCol] fields -- the loader binds the fields read to the
    columns 1 .. [length rs], prints one short-row diagnostic with the line
    on which the row began and the count [length rs], binds NULL to the
    columns [length rs + 1] .. [nCol], and steps the insert; a diagnostic
    of a failed insert, with the same line, follows when the reset of the
    statement reports a failure. *)
Theorem short_row_null_filled (w : World) (db : Db) (r : reader)
    (fuel : nat) (nCol : Z) (k : nat) (p : ImportCtx)
    (rs : list (option (list Z) * list event)) (p' : ImportCtx) :
  row_reads w r p rs p' ->
  first_value rs <> None ->
  Z.of_nat (length rs) < nCol ->
  nCol <= Z.of_nat fuel ->
  import_row w db fuel MODE_Csv r nCol k p
  = Ok (p', S k,
        bind_events 0 rs
        ++ [Diag (zFile p) (nLine p) (ShortRow nCol (Z.of_nat (length rs)))]
        ++ map BindNull (seqZ (Z.of_nat (length rs) + 1)
                              (nCol - Z.of_nat (length rs)))
        ++ insert_events (zFile p) (nLine p) (reset_rc db k)).
Proof.
  intros Hr Hv Hlen Hfuel.
  assert (Hpos : (0 < length rs)%nat)
    by (destruct Hr; simpl; lia).
  rewrite (import_row_reads w db r fuel nCol k p rs p') by (auto; lia).
  unfold row_events. cbv zeta.
  destruct (Z.ltb_spec (Z.of_nat (length rs)) nCol); [|lia].
  rewrite <- !app_assoc. reflexivity.
Qed.

(** The row 1,2 against a table of four columns. *)
Lemma short_row_null_filled_witness :
  exists p',
    import_row (example_world []) (example_db 4 false) 4 MODE_Csv CsvReader
      4 0 (example_ctx [49; 44; 50])
    = Ok (p', 1%nat,
          [BindText 1 (Some [49]); BindText 2 (Some [50]);
           Diag [] 1 (ShortRow 4 2); BindNull 3; BindNull 4; StepStmt; ResetStmt]).
Proof.
  eexists.
  apply (short_row_null_filled (example_world []) (example_db 4 false)
           CsvReader 4 4 0 (example_ctx [49; 44; 50])
           [(Some [49], []); (Some [50], [])]).
  - eapply row_reads_more; [vm_compute; reflexivity | reflexivity |].
    eapply row_reads_last; [vm_compute; reflexivity | vm_compute; discriminate].
  - discriminate.
  - vm_compute. reflexivity.
  - vm_compute. discriminate.
Defined.

(** The same row when the insert fails: two diagnostics carry the line on
    which the row began. *)
Lemma short_row_second_diagnostic :
  (let run := import_row (example_world []) (example_db 4 true) 4 MODE_Csv
                CsvReader 4 0 (example_ctx [49; 44; 50]) in
   '(_, _, tr) ← run; Ok (diag_lines tr)) = Ok [1; 1].
Proof. vm_compute. reflexivity. Qed.

(** C4 (as amended).  For a row that yields more fields than the table
    has columns -- the reads [rs] of the row, up to a terminator other
    than the column separator, are more than [nCol] -- the loader binds
    the first [nCol] fields, reads the other fields to the end of the row
    and drops them (what the tokenizer prints for them is all that is left
    of them), prints one long-row diagnostic with the line on which the row
    began and the count [length rs] of the fields of the row, and steps
    the insert; a diagnostic of a failed insert, with the same line,
    follows when the reset of the statement reports a failure.
    ([long_row_of_fields] below: for a well-formed row the count is the
    number of the fields as written.) *)
Theorem long_row_extras_ignored (w : World) (db : Db) (r : reader)
    (fuel : nat) (nCol : Z) (k : nat) (p : ImportCtx)
    (rs : list (option (list Z) * list event)) (p' : ImportCtx) :
  row_reads w r p rs p' ->
  first_value rs <> None ->
  0 < nCol < Z.of_nat (length rs) ->
  (length rs <= fuel)%nat ->
  import_row w db fuel MODE_Csv r nCol k p
  = Ok (p', S k,
        bind_events 0 (take (Z.to_nat nCol) rs)
        ++ concat (map snd (drop (Z.to_nat nCol) rs))
        ++ [Diag (zFile p) (nLine p) (LongRow nCol (Z.of_nat (length rs)))]
        ++ insert_events (zFile p) (nLine p) (reset_rc db k))
  /\ cTerm p' <> cColSep p'.
Proof.
  intros Hr Hv Hlen Hfuel. split; [|eapply row_reads_end; exact Hr].
  rewrite (import_row_reads w db r fuel nCol k p rs p') by (auto; lia).
  unfold row_events. cbv zeta.
  destruct (Z.ltb_spec (Z.of_nat (length rs)) nCol); [lia|].
  destruct (Z.eqb_spec (Z.of_nat (length rs)) nCol); [lia|].
  rewrite <- !app_assoc. reflexivity.
Qed.

(** The row 1,2,3,4,5 against a table of three columns. *)
Lemma long_row_extras_ignored_witness :
  exists p',
    import_row (example_world []) (example_db 3 false) 5 MODE_Csv CsvReader
      3 0 (example_ctx [49; 44; 50; 44; 51; 44; 52; 44; 53; 10])
    = Ok (p', 1%nat,
          [BindText 1 (Some [49]); BindText 2 (Some [50]);
           BindText 3 (Some [51]); Diag [] 1 (LongRow 3 5);
           StepStmt; ResetStmt])
    /\ cTerm p' <> cColSep p'.
Proof.
  eexists.
  apply (long_row_extras_ignored (example_world []) (example_db 3 false)
           CsvReader 5 3 0
           (example_ctx [49; 44; 50; 44; 51; 44; 52; 44; 53; 10])
           [(Some [49], []); (Some [50], []); (Some [51], []);
            (Some [52], []); (Some [53], [])]).
  - do 4 (eapply row_reads_more; [vm_compute; reflexivity | reflexivity |]).
    eapply row_reads_last; [vm_compute; reflexivity | vm_compute; discriminate].
  - discriminate.
  - vm_compute. split; reflexivity.
  - vm_compute. lia.
Defined.

(** The same row when the insert fails: the long-row diagnostic is not
    the only one, a diagnostic of the failed insert follows it. *)
Lemma long_row_second_diagnostic :
  ('(_, _, tr) ← import_row (example_world []) (example_db 3 true) 5
                   MODE_Csv CsvReader 3 0
                   (example_ctx [49; 44; 50; 44; 51; 44; 52; 44; 53; 10]);
   Ok (List.filter is_diag tr))
  = Ok [Diag [] 1 (LongRow 3 5); Diag [] 1 InsertFailed].
Proof. vm_compute. reflexivity. Qed.

(** For a well-formed row of M fields against a table of [nCol] columns,
    [0 < nCol < M]: the first [nCol] texts are bound, the count of the
    diagnostic is M, and the stream is left behind the row.  A row that
    ends with a column separator and the end of the stream has an empty
    last field, which is counted. *)
Lemma long_row_of_fields (w : World) (db : Db) (fuel : nat)
    (nCol : Z) (k : nat) (p : ImportCtx) (fds : list field) (e : row_end)
    (rest : list Z) :
  (forall size, realloc_ok w size = true) ->
  allocated p ->
  wf_seps (cColSep p) (cRowSep p) ->
  Forall (wf_field (cColSep p) (cRowSep p)) fds ->
  0 < nCol < Z.of_nat (length fds) ->
  (length fds <= fuel)%nat ->
  (e = EndStream -> rest = []) ->
  inp p = encode_row (cColSep p) fds ++ end_bytes (cRowSep p) e ++ rest ->
  exists p',
    import_row w db fuel MODE_Csv CsvReader nCol k p
    = Ok (p', S k,
          bind_events 0 (map (fun fd => silent (Some (text fd)))
                             (take (Z.to_nat nCol) fds))
          ++ [Diag (zFile p) (nLine p)
                   (LongRow nCol (Z.of_nat (length fds)))]
          ++ insert_events (zFile p) (nLine p) (reset_rc db k))
    /\ inp p' = rest.
Proof.
  intros Hg Ha Hw Hf Hn Hfuel He Hi.
  assert (Hne : fds <> []) by (destruct fds; [simpl in Hn; lia|discriminate]).
  destruct (wf_row_reads w Hg fds p e rest Hne Ha Hw Hf He Hi)
    as (p' & Hr & Hi' & _).
  exists p'. split; [|exact Hi'].
  assert (Hlen : forall fs, length (row_values (cRowSep p) fs e) = length fs).
  { induction fs as [|f1 [|f2 fs] IH]; simpl in *; auto. }
  assert (Htake : forall m fs, (m < length fs)%nat ->
            take m (row_values (cRowSep p) fs e)
            = map (fun fd => Some (text fd)) (take m fs)).
  { induction m as [|m IH]; intros fs Hm; [reflexivity|].
    destruct fs as [|f1 [|f2 fs]]; simpl in Hm; try lia.
    change (row_values (cRowSep p) (f1 :: f2 :: fs) e)
      with (Some (text f1) :: row_values (cRowSep p) (f2 :: fs) e).
    cbn [take map]. f_equal. apply IH. simpl. lia. }
  assert (Hsil : forall vs, concat (map snd (map silent vs)) = []).
  { induction vs; simpl; auto. }
  rewrite (import_row_reads w db CsvReader fuel nCol k p _ p' Hr).
  - unfold row_events. cbv zeta. rewrite length_map, Hlen.
    destruct (Z.ltb_spec (Z.of_nat (length fds)) nCol); [lia|].
    destruct (Z.eqb_spec (Z.of_nat (length fds)) nCol); [lia|].
    rewrite List.firstn_map, List.skipn_map, Hsil.
    rewrite Htake by lia. rewrite map_map, <- !app_assoc. reflexivity.
  - destruct fds as [|f1 [|f2 fds]]; simpl in Hn; try lia. discriminate.
  - lia.
  - lia.
  - rewrite length_map, Hlen. exact Hfuel.
Qed.

(** The row 1,2,3 and a column separator at the end of the stream, against
    a table of three columns: four fields are counted. *)
Example trailing_separator_counted :
  ('(_, _, tr) ← import_row (example_world []) (example_db 3 false) 4
                   MODE_Csv CsvReader 3 0
                   (example_ctx [49; 44; 50; 44; 51; 44]);
   Ok tr)
  = Ok [BindText 1 (Some [49]); BindText 2 (Some [50]);
        BindText 3 (Some [51]); Diag [] 1 (LongRow 3 4);
        StepStmt; ResetStmt].
Proof. vm_compute. reflexivity. Qed.




(** C6.  When the stream opens, the texts of the statements are
    allocated, the SELECT is prepared -- at once, or after the table was
    missing, the file not empty, the table created and the SELECT prepared
    again -- and the INSERT is prepared, [sqlite_import] returns 0,
    whatever the bytes of the stream and whatever the resets of the
    inserts report. *)
Theorem import_returns_success (w : World) (db : Db) (fuel : nat)
    (zFile0 bytes name : list Z) (xCloser : closer) :
  (forall size, realloc_ok w size = true) ->
  open_stream w zFile0 = (Some bytes, name, xCloser) ->
  mprintf_ok w = true ->
  malloc_ok w = true ->
  (select_rc db = 0
   \/ (no_such_table db = true /\ fst (fgetc bytes) <> EOF
       /\ (forall cols, create_rc db cols = 0) /\ reselect_rc db = 0)) ->
  insert_rc db = 0 ->
  (length bytes + column_count db < fuel)%nat ->
  exists tr, sqlite_import w db fuel zFile0 = Ok (0, tr).
Proof.
  intros Hg Hopen Hm Hmal Hsel Hins Hf.
  rewrite sqlite_import_unfold, Hopen. unfold import_stream.
  rewrite Hm. cbn [negb].
  destruct (first_append w name bytes (Hg 100))
    as (p & Hap & Ha & Hi & _ & Hc & _).
  rewrite Hap. ctx_simpl. cbn [app].
  assert (Hce : cColSep p <> EOF) by (rewrite Hc; discriminate).
  (* the table is there, or it is created from the first row *)
  assert (Hres : exists p1 tr1,
    resolve_table w db fuel CsvReader xCloser (select_rc db) p
      [PrepareSelect; Alloc]
    = Ok (None, 0, p1, tr1)
    /\ allocated p1 /\ cColSep p1 <> EOF
    /\ (length (inp p1) <= length bytes)%nat).
  { unfold resolve_table.
    destruct (negb (select_rc db =? 0) && no_such_table db) eqn:Hcase.
    - destruct Hsel as [E|(Hnt & Hne & Hcr & Hre)].
      { rewrite E in Hcase. discriminate. }
      destruct (read_header_total w Hg CsvReader fuel p []
                  [PrepareSelect; Alloc] Ha Hce)
        as (p1 & cols & tr1 & Hh & Ha1 & Hs1 & Hl1 & Hcols);
        [rewrite Hi; lia|].
      rewrite Hh. ctx_simpl. destruct cols as [|col cols].
      { destruct Hcols as [_ E]; [reflexivity|]. rewrite Hi in E.
        contradiction. }
      rewrite Hcr, Hre. cbn [Z.eqb negb].
      eexists _, _. split; [reflexivity|]. split; [exact Ha1|].
      destruct Hs1 as (_ & -> & _). split; [exact Hce|].
      rewrite <- Hi. exact Hl1.
    - destruct Hsel as [E|(Hnt & _)].
      + rewrite E. exists p, [PrepareSelect; Alloc].
        split; [reflexivity|]. split; [exact Ha|]. split; [exact Hce|].
        rewrite Hi. lia.
      + rewrite Hnt, andb_true_r in Hcase.
        apply negb_false_iff, Z.eqb_eq in Hcase. rewrite Hcase.
        exists p, [PrepareSelect; Alloc].
        split; [reflexivity|]. split; [exact Ha|]. split; [exact Hce|].
        rewrite Hi. lia. }
  destruct Hres as (p1 & tr1 & Hres & Ha1 & Hc1 & Hl1).
  rewrite Hres. ctx_simpl. cbn [Z.eqb negb].
  destruct (Z.eqb_spec (Z.of_nat (column_count db)) 0); [eauto|].
  rewrite Hmal, Hins. cbn [Z.eqb negb].
  match goal with |- context [row_loop w db fuel MODE_Csv CsvReader ?nc 0 p1 ?t] =>
    destruct (row_loop_total w db Hg MODE_Csv CsvReader nc fuel 0 p1 t)
      as (p2 & tr2 & Hloop) end; [exact Ha1 | exact Hc1 | lia | lia |].
  rewrite Hloop. ctx_simpl. eauto.
Qed.

(** Two rows, one too short and one too long, and every insert failing. *)
Lemma import_returns_success_witness :
  exists tr,
    sqlite_import (example_world [49; 10; 50; 44; 51; 44; 52; 10])
      (example_db 2 true) 11 [102]
    = Ok (0, tr).
Proof.
  apply (import_returns_success
           (example_world [49; 10; 50; 44; 51; 44; 52; 10])
           (example_db 2 true) 11 [102]
           [49; 10; 50; 44; 51; 44; 52; 10] [102] Fclose).
  - intros; reflexivity.
  - reflexivity.
  - reflexivity.
  - reflexivity.
  - left. reflexivity.
  - reflexivity.
  - vm_compute. lia.
Defined.

(** C7, on a table name for which the SELECT cannot be prepared for a
    reason other than a missing table: [sqlite_import] closes the stream
    and returns 1 with the field buffer still allocated.  With a statement
    of no columns it returns 0 with the stream open as well. *)
Theorem prepare_failure_leaks_buffer :
  (let db := mkDb 1 false (fun _ => 0) 0 2 0 true (fun _ => 0) in
   '(status, tr) ← sqlite_import (example_world [49; 44; 50; 10]) db 10 [102];
   Ok (status, tr, held tr))
  = Ok (1, [Open Fclose; PrepareSelect; Alloc; Error PrepareFailed;
            Close Fclose], (false, true))
  /\ ('(status, tr) ← sqlite_import (example_world [49; 44; 50; 10])
                        (example_db 0 false) 10 [102];
      Ok (status, held tr))
     = Ok (0, (true, true)).
Proof. split; vm_compute; reflexivity. Qed.

(** C8.  When the stream opens, the text of the SELECT is allocated and
    the buffer granted, the SELECT fails for want of the table, and the
    first read meets the end of the stream, [sqlite_import] frees the
    buffer, closes the stream, reports the empty file and returns 1; no
    table is created. *)
Theorem empty_file_no_table (w : World) (db : Db) (fuel : nat)
    (zFile0 bytes name : list Z) (xCloser : closer) :
  open_stream w zFile0 = (Some bytes, name, xCloser) ->
  fst (fgetc bytes) = EOF ->
  mprintf_ok w = true ->
  realloc_ok w 100 = true ->
  select_rc db <> 0 ->
  no_such_table db = true ->
  (0 < fuel)%nat ->
  sqlite_import w db fuel zFile0
  = Ok (1, [Open xCloser; PrepareSelect; Alloc;
            FreeBuf; Close xCloser; Error EmptyFile]).
Proof.
  intros Hopen Heof Hm Hg Hrc Hnt Hf.
  rewrite sqlite_import_unfold, Hopen. unfold import_stream.
  rewrite Hm. cbn [negb].
  destruct (first_append w name bytes Hg) as (p & Hap & Ha & Hi & _).
  rewrite Hap. ctx_simpl.
  unfold resolve_table.
  rewrite (proj2 (Z.eqb_neq _ _) Hrc), Hnt. cbn [negb andb].
  destruct fuel as [|fuel]; [lia|]. cbn [read_header].
  destruct (first_read_at_eof w p) as (p' & Hx); [rewrite Hi; exact Heof|].
  rewrite Hx. ctx_simpl. reflexivity.
Qed.

(** An empty file and no table. *)
Lemma empty_file_no_table_witness :
  sqlite_import (example_world [])
    (mkDb 1 true (fun _ => 0) 0 2 0 true (fun _ => 0)) 1 [102]
  = Ok (1, [Open Fclose; PrepareSelect; Alloc;
            FreeBuf; Close Fclose; Error EmptyFile]).
Proof.
  apply (empty_file_no_table (example_world [])
           (mkDb 1 true (fun _ => 0) 0 2 0 true (fun _ => 0)) 1 [102]
           [] [102] Fclose).
  - reflexivity.
  - reflexivity.
  - reflexivity.
  - reflexivity.
  - discriminate.
  - reflexivity.
  - lia.
Defined.

Lemma read_result_state v p p' :
  allocated p -> read_result v p p' -> buffer_state v p p'.
Proof.
  intros Ha Hr. split; [eapply read_result_allocated; eauto|].
  destruct v as [t|]; simpl in Hr.
  - destruct Hr as (f & Hh & _ & Hld).
    destruct Hh as (l & Hz & Hl & Hn & Hlt & _).
    split; [lia|]. split; [exact Hlt|exact Hld].
  - destruct Hr as (_ & Hn & Hz & Hal).
    destruct Ha as (l & _ & _ & Hpos).
    split; [lia|]. split; [exact Hn|exact Hz].
Qed.

(** C9 (as amended).  With the buffer allocated and every allocation
    granted, a read by [csv_read_one_field] or [ascii_read_one_field]
    returns and leaves [0 <= n <= nAlloc]; when it returns a field,
    [n < nAlloc] and the byte at index [n] is NUL; when it returns the null
    pointer, at the end of the stream or on an interrupt, [n] is 0 and the
    buffer is as it was.  An append that returns leaves [nAlloc] as it was
    or, when [n + 1 >= nAlloc], at [2 * nAlloc + 100]. *)
Theorem buffer_after_read (ok : Z -> bool) (junk : Z) (si : bool)
    (p : ImportCtx) (c : Z) :
  (forall size, ok size = true) ->
  allocated p ->
  (exists v p' d, csv_read_one_field ok junk si p = Ok (v, p', d)
                  /\ buffer_state v p p')
  /\ (exists v p' d, ascii_read_one_field ok junk si p = Ok (v, p', d)
                     /\ buffer_state v p p')
  /\ (forall p', import_append_char ok junk p c = Ok p' ->
        nAlloc p' = if n p + 1 >=? nAlloc p then 2 * nAlloc p + 100
                    else nAlloc p).
Proof.
  intros Hg Ha. split; [|split].
  - destruct (csv_read_total ok junk Hg si p Ha)
      as (v & p' & d & Hx & _ & _ & Hr & _).
    exists v, p', d. split; [exact Hx|].
    apply read_result_state; assumption.
  - destruct (ascii_read_total ok junk Hg si p Ha)
      as (v & p' & d & Hx & _ & _ & Hr & _).
    exists v, p', d. split; [exact Hx|].
    apply read_result_state; assumption.
  - intros p' H. unfold import_append_char in H.
    destruct (n p + 1 >=? nAlloc p).
    + rewrite Hg in H. inv_ok. ctx_simpl. lia.
    + inv_ok. reflexivity.
Qed.

Lemma buffer_after_read_witness :
  (exists v p' d,
     csv_read_one_field (fun _ => true) 0 false (example_ctx [97; 44]) 
     = Ok (v, p', d) /\ buffer_state v (example_ctx [97; 44]) p')
  /\ (exists v p' d,
        ascii_read_one_field (fun _ => true) 0 false (example_ctx [97; 44])
        = Ok (v, p', d) /\ buffer_state v (example_ctx [97; 44]) p')
  /\ (forall p',
        import_append_char (fun _ => true) 0 (example_ctx [97; 44]) 98 = Ok p' ->
        nAlloc p' = if n (example_ctx [97; 44]) + 1
                       >=? nAlloc (example_ctx [97; 44])
                    then 2 * nAlloc (example_ctx [97; 44]) + 100
                    else nAlloc (example_ctx [97; 44])).
Proof.
  apply (buffer_after_read (fun _ => true) 0 false (example_ctx [97; 44]) 98).
  - intros; reflexivity.
  - exists (replicate 100 0). repeat split; reflexivity.
Defined.

(** The stream a: the first read returns the field a, the second returns
    the null pointer with [n = 0] and the byte a still at index 0. *)
Lemma early_return_not_terminated :
  (p0 ← import_append_char (fun _ => true) 0 (start_ctx [] [97]) 0;
   '(_, p1, _) ← csv_read_one_field (fun _ => true) 0 false p0;
   '(v, p2, _) ← csv_read_one_field (fun _ => true) 0 false p1;
   Ok (v, n p2, get_at (z p2) (n p2)))
  = Ok (None, 0, Ok 97).
Proof. vm_compute. reflexivity. Qed.

(** C10.  [sqlite_import] sets the mode to CSV, the column separator to a
    comma and the row separator to CR LF.  So the column separator has
    length 1, the row separator has length 2 and is replaced by a line
    feed of length 1, and none of the four failures of the separators is
    returned: the import is the opening of the stream followed by
    [import_stream] with the mode CSV, the reader of CSV text, the column
    separator comma and the row separator line feed.  The reader of ASCII
    text is not chosen, and the test of the row loop for an empty first
    field in ASCII mode is false. *)
Theorem hardcoded_configuration (w : World) (db : Db) (fuel : nat)
    (zFile0 : list Z) :
  let sh := mkShell MODE_Csv (snprintf 20 SEP_Comma) (snprintf 20 SEP_CrLf) in
  (strlen30 (colSeparator sh) = 1
   /\ strlen30 (rowSeparator sh) = 2
   /\ strcmp_eq (rowSeparator sh) SEP_CrLf = true
   /\ strlen30 (snprintf 20 SEP_Row) = 1
   /\ first_char (colSeparator sh) = COMMA
   /\ first_char (snprintf 20 SEP_Row) = LF)
  /\ sqlite_import w db fuel zFile0
     = match open_stream w zFile0 with
       | (None, _, _) => Ok (1, [Error CannotOpen])
       | (Some bytes, name, xCloser) =>
           '(status, tr) ← import_stream w db fuel MODE_Csv CsvReader xCloser
                             (mkCtx name bytes None 0 0 1 0 COMMA LF);
           Ok (status, Open xCloser :: tr)
       end
  /\ (forall v i,
        (mode sh =? MODE_Ascii) && null_or_empty v && (i =? 0) = false).
Proof.
  split; [|split].
  - repeat split.
  - apply sqlite_import_unfold.
  - intros v i. reflexivity.
Qed.

(** ** The loader on the inputs of the specification *)

(** The table is missing and the file holds a header and two rows, with
    CR LF at the end of each line: the table is created with the two
    columns of the header and two rows are inserted. *)
Example schema_from_header :
  sqlite_import
    (example_world [105; 100; 44; 110; 97; 109; 101; 13; 10;
                    49; 44; 97; 108; 105; 99; 101; 13; 10;
                    50; 44; 98; 111; 98; 13; 10])
    (mkDb 1 true (fun _ => 0) 0 2 0 true (fun _ => 0)) 30 [102]
  = Ok (0, [Open Fclose; PrepareSelect; Alloc;
            CreateTable [[105; 100]; [110; 97; 109; 101]]; PrepareSelect;
            FinalizeStmt; PrepareInsert 2; Begin;
            BindText 1 (Some [49]); BindText 2 (Some [97; 108; 105; 99; 101]);
            StepStmt; ResetStmt;
            BindText 1 (Some [50]); BindText 2 (Some [98; 111; 98]);
            StepStmt; ResetStmt;
            Close Fclose; FreeBuf; FinalizeStmt; Commit]).
Proof. vm_compute. reflexivity. Qed.

(** The end of the stream where a row would begin: the row is given up
    without a diagnostic and without an insert, and the loop ends. *)
Example end_of_stream_on_fresh_row :
  sqlite_import (example_world [49; 44; 50; 10]) (example_db 2 false) 10 [102]
  = Ok (0, [Open Fclose; PrepareSelect; Alloc; FinalizeStmt;
            PrepareInsert 2; Begin;
            BindText 1 (Some [49]); BindText 2 (Some [50]);
            StepStmt; ResetStmt;
            Close Fclose; FreeBuf; FinalizeStmt; Commit]).
Proof. vm_compute. reflexivity. Qed.

(** A name that begins with a vertical bar is a command: the stream comes
    from [popen] and is closed by [pclose], and the messages name the
    pipe. *)
Example pipe_is_closed_by_pclose :
  sqlite_import
    (mkWorld (fun _ => true) 0 (fun _ => None) (fun _ => Some [49])
             true true)
    (example_db 2 false) 10 [124; 108; 115]
  = Ok (0, [Open Pclose; PrepareSelect; Alloc; FinalizeStmt;
            PrepareInsert 2; Begin;
            BindText 1 (Some [49]);
            Diag pipe_name 1 (ShortRow 2 1); BindNull 2;
            StepStmt; ResetStmt;
            Close Pclose; FreeBuf; FinalizeStmt; Commit]).
Proof. vm_compute. reflexivity. Qed.

(** A quoted field that the stream ends: the diagnostic carries the line
    on which the field began, and the text read so far is the field. *)
Example unterminated_quoted_field :
  ('(v, p', d) ← csv_read_one_field (fun _ => true) 0 false
                   (example_ctx [34; 97; 10; 98]);
   Ok (v, cTerm p', nLine p', d))
  = Ok (Some [97; 10; 98], EOF, 2, [Diag [] 1 (Unterminated QUOTE)]).
Proof. vm_compute. reflexivity. Qed.

(** * Further properties of the tokenizer *)

Section QuotedEnds.

Variable ok : Z -> bool.
Variable junk : Z.
Hypothesis granted : forall size, ok size = true.

(** The round that meets the end of the stream inside the quotes. *)
Lemma quoted_step_open_end p startLine pc ppc :
  pc <> QUOTE -> cRowSep p <> EOF ->
  quoted_step ok junk p startLine pc ppc EOF
  = Ok (QBreak (set_cTerm p EOF)
               [Diag (zFile p) startLine (Unterminated QUOTE)]).
Proof.
  intros Hpc Hr. unfold quoted_step. cbv zeta.
  rewrite (proj2 (Z.eqb_neq EOF (cRowSep p))) by congruence.
  rewrite (proj2 (Z.eqb_neq pc QUOTE) Hpc).
  rewrite !andb_false_r. cbn [orb andb app]. reflexivity.
Qed.

(** The round that reads a byte of text right behind a lone quote. *)
Lemma quoted_step_unescaped p startLine ppc b f :
  holds p f -> 0 <= b < 256 ->
  b <> QUOTE -> b <> cColSep p -> b <> cRowSep p -> b <> CR ->
  exists p',
    quoted_step ok junk p startLine QUOTE ppc b
    = Ok (QNext p' b QUOTE [Diag (zFile p) (nLine p) (Unescaped QUOTE)])
    /\ holds p' (f ++ [b]) /\ same_setup p p' /\ nLine p' = nLine p.
Proof.
  intros Hh Hb Hq Hc Hr Hcr. unfold quoted_step. cbv zeta.
  rewrite (proj2 (Z.eqb_neq b (cRowSep p)) Hr),
          (proj2 (Z.eqb_neq b (cColSep p)) Hc),
          (proj2 (Z.eqb_neq b QUOTE) Hq), (proj2 (Z.eqb_neq b CR) Hcr).
  destruct (Z.eqb_spec b EOF); [unfold EOF in *; lia|].
  cbn [andb orb negb]. rewrite Z.eqb_refl. cbn [andb orb negb].
  destruct (append_holds ok junk granted p f b Hh) as (l & a & Hap & Hh' & _).
  rewrite to_char_byte in Hh' by exact Hb.
  rewrite Hap. ctx_simpl. eexists. split; [reflexivity|].
  split; [exact Hh'|]. unfold same_setup. ctx_simpl. auto.
Qed.

(** The closing quote and what follows it. *)
Lemma quoted_loop_closing tail c rest p startLine pc ppc d f :
  follows (cColSep p) (cRowSep p) tail c rest ->
  wf_seps (cColSep p) (cRowSep p) ->
  holds p f -> pc <> QUOTE -> (pc = CR -> ppc <> QUOTE) ->
  exists p',
    quoted_loop ok junk (QUOTE :: tail) p startLine pc ppc d = Ok (p', d)
    /\ holds p' f /\ inp p' = rest /\ cTerm p' = c /\ same_setup p p'.
Proof.
  intros Hfo Hw Hh Hpc Hppc. rewrite quoted_loop_cons.
  destruct (quoted_step_text ok junk granted (set_inp p tail) startLine
              pc ppc QUOTE f)
    as (p1 & Hst & Hh1 & Hi1 & Hs1 & _);
    [apply holds_set_inp; exact Hh | exact Hpc | exact Hppc
    | unfold QUOTE; lia |].
  rewrite Hst. ctx_simpl. rewrite app_nil_r.
  destruct Hs1 as (Ef & Ec & Er). ctx_simpl.
  destruct (quoted_loop_close ok junk granted tail c rest p1 startLine pc d f)
    as (p' & Hl & Hh' & Hi & Hc & Hs);
    [rewrite Ec, Er; exact Hfo | rewrite Ec, Er; exact Hw
    | exact Hh1 | exact Hpc |].
  exists p'. split; [exact Hl|]. split; [exact Hh'|].
  split; [exact Hi|]. split; [exact Hc|].
  unfold same_setup in *. intuition congruence.
Qed.

End QuotedEnds.

(** X1.  A read by [csv_read_one_field] or [ascii_read_one_field] takes a
    prefix of the stream, and the line number grows by the number of row
    separators among the bytes taken: those inside a quoted field as well as
    the one that ends the field. *)
Theorem read_counts_lines (w : World) (r : reader) (p : ImportCtx)
    (v : option (list Z)) (p' : ImportCtx) (d : list event) :
  xRead w r p = Ok (v, p', d) ->
  Forall (fun b => 0 <= b < 256) (inp p) ->
  cRowSep p <> EOF -> (r = CsvReader -> cRowSep p <> QUOTE) ->
  exists pre,
    inp p = pre ++ inp p'
    /\ nLine p' = nLine p + count_sep (cRowSep p) pre.
Proof.
  intros H Hs Hr Hq.
  destruct (xRead_consumed w r p v p' d H) as (pre & (Hi & _) & Hn & _);
    [|exact Hr|exact Hq|exists pre; auto].
  eapply Forall_impl; [exact Hs|]. unfold EOF. intros; lia.
Qed.

(** A quoted field over two lines, ended by a line feed: six bytes are
    taken and two lines are counted. *)
Lemma read_counts_lines_witness :
  exists v p' d,
    xRead (example_world []) CsvReader
      (example_ctx [34; 97; 10; 98; 34; 10; 99]) = Ok (v, p', d)
    /\ exists pre,
         [34; 97; 10; 98; 34; 10; 99] = pre ++ inp p'
         /\ nLine p' = 1 + count_sep LF pre.
Proof.
  eexists _, _, _. split; [vm_compute; reflexivity|].
  eapply (read_counts_lines (example_world []) CsvReader
            (example_ctx [34; 97; 10; 98; 34; 10; 99])).
  - vm_compute. reflexivity.
  - repeat constructor; lia.
  - discriminate.
  - discriminate.
Defined.

(** X2.  The terminator that a read stores in [cTerm] is the column
    separator, the row separator or [EOF].  When it is a separator, it is
    the byte of the stream that was read last; when it is [EOF], nothing is
    left of the stream. *)
Theorem read_terminator (w : World) (r : reader) (p : ImportCtx)
    (v : option (list Z)) (p' : ImportCtx) (d : list event) :
  xRead w r p = Ok (v, p', d) ->
  Forall (fun b => 0 <= b < 256) (inp p) ->
  cRowSep p <> EOF -> (r = CsvReader -> cRowSep p <> QUOTE) ->
  (cTerm p' = cColSep p \/ cTerm p' = cRowSep p \/ cTerm p' = EOF)
  /\ (cTerm p' = EOF -> inp p' = [])
  /\ (cTerm p' <> EOF ->
      exists pre, inp p = pre ++ cTerm p' :: inp p').
Proof.
  intros H Hs Hr Hq.
  destruct (xRead_consumed w r p v p' d H)
    as (pre & (Hi & He & Hl) & _ & Hk); [|exact Hr|exact Hq|].
  { eapply Forall_impl; [exact Hs|]. unfold EOF. intros; lia. }
  split; [exact Hk|]. split; [exact He|].
  intros Hne. specialize (Hl Hne).
  apply last_Some in Hl as (pre' & ->).
  exists pre'. rewrite Hi, <- app_assoc. reflexivity.
Qed.

(** A bare field before a comma. *)
Lemma read_terminator_witness :
  exists v p' d,
    xRead (example_world []) CsvReader (example_ctx [97; 98; 44; 99])
    = Ok (v, p', d)
    /\ (cTerm p' = COMMA \/ cTerm p' = LF \/ cTerm p' = EOF)
    /\ (cTerm p' = EOF -> inp p' = [])
    /\ (cTerm p' <> EOF ->
        exists pre, [97; 98; 44; 99] = pre ++ cTerm p' :: inp p').
Proof.
  eexists _, _, _. split; [vm_compute; reflexivity|].
  eapply (read_terminator (example_world []) CsvReader
            (example_ctx [97; 98; 44; 99])).
  - vm_compute. reflexivity.
  - repeat constructor; lia.
  - discriminate.
  - discriminate.
Defined.

(** X3.  Whatever the allocator grants or refuses, a read from a context
    with an allocated buffer either stops the process on a refused
    allocation or returns, with the buffer still allocated: no read or write
    falls outside the buffer, and the loop that walks back to the closing
    quote stops inside it. *)
Theorem read_memory_safe (ok : Z -> bool) (junk : Z) (si : bool)
    (p : ImportCtx) :
  allocated p ->
  (csv_read_one_field ok junk si p = OutOfMemory
   \/ exists v p' d,
        csv_read_one_field ok junk si p = Ok (v, p', d) /\ allocated p')
  /\ (ascii_read_one_field ok junk si p = OutOfMemory
      \/ exists v p' d,
           ascii_read_one_field ok junk si p = Ok (v, p', d) /\ allocated p').
Proof.
  intros Ha. split.
  - destruct (csv_read_refused ok junk si p) as [E|E]; [left; exact E|].
    right. rewrite E.
    destruct (csv_read_total granting junk (fun _ => eq_refl) si p Ha)
      as (v & p' & d & Hx & _ & _ & Hr & _).
    exists v, p', d. split; [exact Hx|].
    eapply read_result_allocated; eauto.
  - destruct (ascii_read_refused ok junk si p) as [E|E]; [left; exact E|].
    right. rewrite E.
    destruct (ascii_read_total granting junk (fun _ => eq_refl) si p Ha)
      as (v & p' & d & Hx & _ & _ & Hr & _).
    exists v, p', d. split; [exact Hx|].
    eapply read_result_allocated; eauto.
Qed.

(** A buffer of two bytes and an allocator that refuses to grow it: the
    quoted field that fits is read, the one that does not stops the
    process. *)
Lemma read_memory_safe_witness :
  (csv_read_one_field (fun _ => false) 0 false
     (mkCtx [] [34; 34; 44] (Some [0; 0]) 0 2 1 0 COMMA LF) = OutOfMemory
   \/ exists v p' d,
        csv_read_one_field (fun _ => false) 0 false
          (mkCtx [] [34; 34; 44] (Some [0; 0]) 0 2 1 0 COMMA LF)
        = Ok (v, p', d) /\ allocated p')
  /\ (ascii_read_one_field (fun _ => false) 0 false
        (mkCtx [] [34; 34; 44] (Some [0; 0]) 0 2 1 0 COMMA LF) = OutOfMemory
      \/ exists v p' d,
           ascii_read_one_field (fun _ => false) 0 false
             (mkCtx [] [34; 34; 44] (Some [0; 0]) 0 2 1 0 COMMA LF)
           = Ok (v, p', d) /\ allocated p').
Proof.
  apply (read_memory_safe (fun _ => false) 0 false
           (mkCtx [] [34; 34; 44] (Some [0; 0]) 0 2 1 0 COMMA LF)).
  exists [0; 0]. repeat split; reflexivity.
Defined.

(** X4.  [ascii_read_one_field] returns the bytes up to the next separator,
    or to the end of the stream, as they are: quotes and carriage returns
    are bytes of the field.  It prints nothing, stores the byte that ended
    the field, and counts a line when that byte is the row separator. *)
Theorem ascii_field_verbatim (ok : Z -> bool) (junk : Z) (p : ImportCtx)
    (t tail : list Z) :
  (forall size, ok size = true) ->
  allocated p ->
  cColSep p <> EOF -> cRowSep p <> EOF ->
  Forall (bare_byte (cColSep p) (cRowSep p)) t ->
  at_separator (cColSep p) (cRowSep p) tail ->
  inp p = t ++ tail -> inp p <> [] ->
  exists p',
    ascii_read_one_field ok junk false p = Ok (Some t, p', [])
    /\ inp p' = tl tail /\ cTerm p' = hd EOF tail
    /\ nLine p' = nLine p + (if hd EOF tail =? cRowSep p then 1 else 0).
Proof.
  intros Hg. apply ascii_read_text. exact Hg.
Qed.

(** A field with quotes and a carriage return in it, before the unit
    separator. *)
Lemma ascii_field_verbatim_witness :
  exists p',
    ascii_read_one_field (fun _ => true) 0 false
      (mkCtx [] [34; 97; 34; 13; 31; 98] (Some (replicate 100 0)) 0 100 1 0
             31 30)
    = Ok (Some [34; 97; 34; 13], p', [])
    /\ inp p' = [98] /\ cTerm p' = 31 /\ nLine p' = 1.
Proof.
  apply (ascii_field_verbatim (fun _ => true) 0
           (mkCtx [] [34; 97; 34; 13; 31; 98] (Some (replicate 100 0))
                  0 100 1 0 31 30)
           [34; 97; 34; 13] [31; 98]).
  - intros; reflexivity.
  - exists (replicate 100 0). repeat split; reflexivity.
  - discriminate.
  - discriminate.
  - repeat (constructor; [unfold bare_byte, COMMA, LF; simpl; lia|]); constructor.
  - left. reflexivity.
  - reflexivity.
  - discriminate.
Defined.

(** X5.  A field that does not begin with a quote is read by
    [csv_read_one_field] up to the next separator or the end of the stream;
    quotes further on in it are bytes of the field.  When the row separator
    ends it, one carriage return at its end is dropped; before a column
    separator or the end of the stream a carriage return stays. *)
Theorem bare_field_value (ok : Z -> bool) (junk : Z) (p : ImportCtx)
    (t tail : list Z) :
  (forall size, ok size = true) ->
  allocated p ->
  wf_seps (cColSep p) (cRowSep p) ->
  Forall (bare_byte (cColSep p) (cRowSep p)) t ->
  hd 0 t <> QUOTE ->
  at_separator (cColSep p) (cRowSep p) tail ->
  inp p = t ++ tail -> inp p <> [] ->
  exists p',
    csv_read_one_field ok junk false p
    = Ok (Some (if hd EOF tail =? cRowSep p then strip_last_cr t else t),
          p', [])
    /\ inp p' = tl tail /\ cTerm p' = hd EOF tail
    /\ nLine p' = nLine p + (if hd EOF tail =? cRowSep p then 1 else 0).
Proof.
  intros Hg. apply csv_read_text. exact Hg.
Qed.

(** The field a, a quote, b and two carriage returns before a line feed:
    one carriage return is dropped. *)
Lemma bare_field_value_witness :
  exists p',
    csv_read_one_field (fun _ => true) 0 false
      (example_ctx [97; 34; 98; 13; 13; 10; 99])
    = Ok (Some [97; 34; 98; 13], p', [])
    /\ inp p' = [99] /\ cTerm p' = LF /\ nLine p' = 2.
Proof.
  apply (bare_field_value (fun _ => true) 0
           (example_ctx [97; 34; 98; 13; 13; 10; 99])
           [97; 34; 98; 13; 13] [10; 99]).
  - intros; reflexivity.
  - exists (replicate 100 0). repeat split; reflexivity.
  - repeat split; discriminate.
  - repeat (constructor; [unfold bare_byte; simpl; unfold COMMA, LF; lia|]); constructor.
  - discriminate.
  - right. reflexivity.
  - reflexivity.
  - discriminate.
Defined.

(** X6.  A NUL byte in a field that is not quoted is read and stored like
    any other byte, but the pointer that [csv_read_one_field] returns is a C
    string: the value of the field ends before the first NUL, and the bytes
    behind it, up to the separator, are lost. *)
Theorem nul_byte_cuts_field (ok : Z -> bool) (junk : Z) (p : ImportCtx)
    (t1 t2 tail : list Z) :
  (forall size, ok size = true) ->
  allocated p ->
  wf_seps (cColSep p) (cRowSep p) ->
  cColSep p <> 0 -> cRowSep p <> 0 ->
  Forall (bare_byte (cColSep p) (cRowSep p)) t1 ->
  Forall (fun b => 0 <= b < 256 /\ b <> cColSep p /\ b <> cRowSep p) t2 ->
  hd 0 t1 <> QUOTE ->
  at_separator (cColSep p) (cRowSep p) tail ->
  inp p = t1 ++ 0 :: t2 ++ tail ->
  exists p',
    csv_read_one_field ok junk false p = Ok (Some t1, p', [])
    /\ inp p' = tl tail /\ cTerm p' = hd EOF tail.
Proof.
  intros Hg Ha Hw Hc0 Hr0 Ht1 Ht2 Hhd Htail Hi.
  pose proof Hw as (Hcr & Hcq & Hrq & Hcc & Hrc & Hce & Hre).
  destruct (csv_read_bytes ok junk Hg p (t1 ++ 0 :: t2) tail)
    as (p' & Hx & Hi' & Hc' & _);
    [exact Ha | exact Hw | | | exact Htail
    | rewrite Hi, <- app_assoc; reflexivity
    | rewrite Hi; destruct t1; discriminate |].
  - apply Forall_app. split.
    + eapply Forall_impl; [exact Ht1|]. unfold bare_byte.
      intros b (? & ? & ?). repeat split; auto; lia.
    + constructor; [|exact Ht2].
      repeat split; auto; lia.
  - destruct t1; [discriminate|exact Hhd].
  - exists p'. split; [|auto]. rewrite Hx.
    assert (Hz : cstr t1 = t1).
    { apply cstr_id. eapply Forall_impl; [exact Ht1|].
      unfold bare_byte. intros; lia. }
    destruct (hd EOF tail =? cRowSep p).
    + rewrite strip_last_cr_app_cons by discriminate.
      rewrite cstr_app_nul, Hz. reflexivity.
    + rewrite cstr_app_nul, Hz. reflexivity.
Qed.

(** The field a, b, NUL, c before a comma. *)
Lemma nul_byte_cuts_field_witness :
  exists p',
    csv_read_one_field (fun _ => true) 0 false
      (example_ctx [97; 98; 0; 99; 44; 100])
    = Ok (Some [97; 98], p', [])
    /\ inp p' = [100] /\ cTerm p' = COMMA.
Proof.
  apply (nul_byte_cuts_field (fun _ => true) 0
           (example_ctx [97; 98; 0; 99; 44; 100]) [97; 98] [99] [44; 100]).
  - intros; reflexivity.
  - exists (replicate 100 0). repeat split; reflexivity.
  - repeat split; discriminate.
  - discriminate.
  - discriminate.
  - repeat (constructor; [unfold bare_byte; simpl; unfold COMMA, LF; lia|]);
      constructor.
  - repeat (constructor; [simpl; unfold COMMA, LF; lia|]); constructor.
  - discriminate.
  - left. reflexivity.
  - reflexivity.
Defined.

(** X7.  When the stream ends inside a quoted field, [csv_read_one_field]
    returns the text read so far as the field, prints one diagnostic of an
    unterminated field with the line on which the field began, and stores
    [EOF] as the terminator; the lines of the text are counted. *)
Theorem unterminated_field_value (ok : Z -> bool) (junk : Z)
    (p : ImportCtx) (t : list Z) :
  (forall size, ok size = true) ->
  allocated p ->
  wf_seps (cColSep p) (cRowSep p) ->
  Forall text_byte t ->
  inp p = QUOTE :: escape t ->
  exists p',
    csv_read_one_field ok junk false p
    = Ok (Some t, p', [Diag (zFile p) (nLine p) (Unterminated QUOTE)])
    /\ inp p' = [] /\ cTerm p' = EOF
    /\ nLine p' = nLine p + count_sep (cRowSep p) t.
Proof.
  intros Hg Ha Hw Ht Hi.
  pose proof Hw as (Hcr & Hcq & Hrq & Hcc & Hrc & Hce & Hre).
  pose proof (holds_reset p Ha) as H0.
  unfold csv_read_one_field. cbv zeta.
  replace (inp (set_n p 0)) with (inp p) by reflexivity.
  rewrite Hi. cbn [fgetc]. change ((QUOTE =? EOF) || false) with false.
  change (QUOTE =? QUOTE) with true. cbn iota.
  rewrite <- (app_nil_r (escape t)).
  destruct (quoted_loop_escape ok junk Hg t
              (set_inp (set_n p 0) (escape t ++ []))
              (nLine (set_inp (set_n p 0) (escape t ++ [])))
              0 0 [] [] [])
    as (p1 & pc1 & ppc1 & Hl & Hh1 & (Ef & Ec & Er) & Hn1 & Hpc1 & _);
    [exact Hrq | apply holds_set_inp; exact H0 | discriminate | discriminate
    | exact Ht |].
  rewrite Hl, quoted_loop_nil. ctx_simpl.
  rewrite quoted_step_open_end by (ctx_simpl; congruence).
  ctx_simpl. simpl in Hh1.
  destruct (terminate_holds (set_cTerm (set_inp p1 []) EOF) t
              [Diag (zFile p1) (nLine p) (Unterminated QUOTE)])
    as (l & Hte & _);
    [apply holds_set_cTerm, holds_set_inp; exact Hh1|].
  cbn [app]. rewrite Hte. rewrite cstr_id
    by (eapply Forall_impl; [exact Ht|]; unfold text_byte; intros; lia).
  rewrite Ef. eexists. split; [reflexivity|]. ctx_simpl. auto.
Qed.

(** A quote, a, a line feed, b and the end of the stream. *)
Lemma unterminated_field_value_witness :
  exists p',
    csv_read_one_field (fun _ => true) 0 false (example_ctx [34; 97; 10; 98])
    = Ok (Some [97; 10; 98], p', [Diag [] 1 (Unterminated QUOTE)])
    /\ inp p' = [] /\ cTerm p' = EOF /\ nLine p' = 2.
Proof.
  apply (unterminated_field_value (fun _ => true) 0
           (example_ctx [34; 97; 10; 98]) [97; 10; 98]).
  - intros; reflexivity.
  - exists (replicate 100 0). repeat split; reflexivity.
  - repeat split; discriminate.
  - repeat (constructor; [unfold text_byte; lia|]); constructor.
  - reflexivity.
Defined.

(** X8.  A quote inside a quoted field that is followed by a byte of text --
    not a second quote, a separator or a carriage return -- stays in the
    field as it is: the field goes on to the closing quote, and one
    diagnostic of an unescaped quote is printed with the line on which the
    quote stands. *)
Theorem unescaped_quote_kept (ok : Z -> bool) (junk : Z) (p : ImportCtx)
    (t1 : list Z) (b : Z) (t2 tail : list Z) (c : Z) (rest : list Z) :
  (forall size, ok size = true) ->
  allocated p ->
  wf_seps (cColSep p) (cRowSep p) ->
  Forall text_byte t1 -> Forall text_byte t2 ->
  bare_byte (cColSep p) (cRowSep p) b -> b <> QUOTE -> b <> CR ->
  follows (cColSep p) (cRowSep p) tail c rest ->
  inp p = QUOTE :: escape t1 ++ QUOTE :: b :: escape t2 ++ QUOTE :: tail ->
  exists p',
    csv_read_one_field ok junk false p
    = Ok (Some (t1 ++ QUOTE :: b :: t2), p',
          [Diag (zFile p) (nLine p + count_sep (cRowSep p) t1)
                (Unescaped QUOTE)])
    /\ inp p' = rest /\ cTerm p' = c.
Proof.
  intros Hg Ha Hw Ht1 Ht2 (Hb & Hbc & Hbr) Hbq Hbcr Hfo Hi.
  pose proof Hw as (Hcr & Hcq & Hrq & Hcc & Hrc & Hce & Hre).
  pose proof (holds_reset p Ha) as H0.
  unfold csv_read_one_field. cbv zeta.
  replace (inp (set_n p 0)) with (inp p) by reflexivity.
  rewrite Hi. cbn [fgetc]. change ((QUOTE =? EOF) || false) with false.
  change (QUOTE =? QUOTE) with true. cbn iota.
  set (s1 := QUOTE :: b :: escape t2 ++ QUOTE :: tail).
  (* the text before the quote *)
  destruct (quoted_loop_escape ok junk Hg t1
              (set_inp (set_n p 0) (escape t1 ++ s1))
              (nLine (set_inp (set_n p 0) (escape t1 ++ s1)))
              0 0 [] [] s1)
    as (p1 & pc1 & ppc1 & Hl & Hh1 & (Ef1 & Ec1 & Er1) & Hn1 & Hpc1 & Hppc1);
    [exact Hrq | apply holds_set_inp; exact H0 | discriminate | discriminate
    | exact Ht1 |].
  rewrite Hl. ctx_simpl. simpl in Hh1. unfold s1.
  (* the quote *)
  rewrite quoted_loop_cons.
  destruct (quoted_step_text ok junk Hg
              (set_inp p1 (b :: escape t2 ++ QUOTE :: tail)) (nLine p)
              pc1 ppc1 QUOTE t1)
    as (p2 & Hst2 & Hh2 & _ & (Ef2 & Ec2 & Er2) & Hn2);
    [apply holds_set_inp; exact Hh1 | exact Hpc1 | exact Hppc1
    | unfold QUOTE; lia |].
  rewrite Hst2. ctx_simpl.
  rewrite (proj2 (Z.eqb_neq QUOTE (cRowSep p1))) in Hn2 by congruence.
  (* the byte behind it *)
  rewrite quoted_loop_cons.
  destruct (quoted_step_unescaped ok junk Hg
              (set_inp p2 (escape t2 ++ QUOTE :: tail)) (nLine p) pc1 b
              (t1 ++ [QUOTE]))
    as (p3 & Hst3 & Hh3 & (Ef3 & Ec3 & Er3) & Hn3);
    [apply holds_set_inp; exact Hh2 | lia | exact Hbq
    | ctx_simpl; congruence | ctx_simpl; congruence | exact Hbcr |].
  rewrite Hst3. ctx_simpl. cbn [app].
  (* the text behind it and the closing quote *)
  destruct (quoted_loop_escape ok junk Hg t2 p3 (nLine p) b QUOTE
              [Diag (zFile p2) (nLine p2) (Unescaped QUOTE)]
              ((t1 ++ [QUOTE]) ++ [b]) (QUOTE :: tail))
    as (p4 & pc4 & ppc4 & Hl4 & Hh4 & (Ef4 & Ec4 & Er4) & _ & Hpc4 & Hppc4);
    [congruence | exact Hh3 | exact Hbq | intros E; contradiction
    | exact Ht2 |].
  rewrite Hl4.
  destruct (quoted_loop_closing ok junk Hg tail c rest p4 (nLine p) pc4 ppc4
              [Diag (zFile p2) (nLine p2) (Unescaped QUOTE)]
              (((t1 ++ [QUOTE]) ++ [b]) ++ t2))
    as (p5 & Hl5 & Hh5 & Hi5 & Hc5 & _);
    [replace (cColSep p4) with (cColSep p) by congruence;
     replace (cRowSep p4) with (cRowSep p) by congruence; exact Hfo
    | replace (cColSep p4) with (cColSep p) by congruence;
      replace (cRowSep p4) with (cRowSep p) by congruence; exact Hw
    | exact Hh4 | exact Hpc4 | exact Hppc4 |].
  rewrite Hl5. ctx_simpl.
  destruct (terminate_holds p5 _ [Diag (zFile p2) (nLine p2) (Unescaped QUOTE)]
              Hh5) as (l & Hte & _).
  rewrite Hte.
  replace (((t1 ++ [QUOTE]) ++ [b]) ++ t2) with (t1 ++ QUOTE :: b :: t2)
    by (rewrite <- !app_assoc; reflexivity).
  rewrite cstr_id.
  - replace (zFile p2) with (zFile p) by congruence.
    replace (nLine p2) with (nLine p + count_sep (cRowSep p) t1)
      by (clear -Hn1 Hn2; lia).
    eexists. split; [reflexivity|]. ctx_simpl.
    split; [exact Hi5|exact Hc5].
  - apply Forall_app. split.
    + eapply Forall_impl; [exact Ht1|]. clear. unfold text_byte. intros; lia.
    + constructor; [discriminate|]. constructor; [clear -Hb; lia|].
      eapply Forall_impl; [exact Ht2|]. clear. unfold text_byte. intros; lia.
Qed.

(** The field a, line feed, a quote, b between quotes, before a comma. *)
Lemma unescaped_quote_kept_witness :
  exists p',
    csv_read_one_field (fun _ => true) 0 false
      (example_ctx [34; 97; 10; 34; 98; 34; 44; 120])
    = Ok (Some [97; 10; 34; 98], p',
          [Diag [] 2 (Unescaped QUOTE)])
    /\ inp p' = [120] /\ cTerm p' = COMMA.
Proof.
  apply (unescaped_quote_kept (fun _ => true) 0
           (example_ctx [34; 97; 10; 34; 98; 34; 44; 120])
           [97; 10] 98 [] [44; 120] COMMA [120]).
  - intros; reflexivity.
  - exists (replicate 100 0). repeat split; reflexivity.
  - repeat split; discriminate.
  - repeat (constructor; [unfold text_byte; lia|]); constructor.
  - constructor.
  - unfold bare_byte. simpl. unfold COMMA, LF. lia.
  - discriminate.
  - discriminate.
  - constructor.
  - reflexivity.
Defined.

(** X9.  [import_append_char] on a buffer that holds the text [f] -- or on a
    context without a buffer, for the empty text -- leaves a buffer that
    holds [f] followed by the byte [(char)c], also when the buffer had to
    grow, and changes nothing else in the context.  It stops the process
    only when the buffer is full and the allocator refuses the new size. *)
Theorem append_char_spec (ok : Z -> bool) (junk : Z) (p : ImportCtx)
    (f : list Z) (c : Z) :
  holds p f \/ (no_buffer p /\ f = []) ->
  (n p + 1 >= nAlloc p /\ ok (2 * nAlloc p + 100) = false
   /\ import_append_char ok junk p c = OutOfMemory)
  \/ exists p',
       import_append_char ok junk p c = Ok p'
       /\ holds p' (f ++ [c mod 256]) /\ buffer_only p p'.
Proof.
  intros Hp.
  assert (Hgr : exists p',
            import_append_char granting junk p c = Ok p'
            /\ holds p' (f ++ [c mod 256])).
  { destruct Hp as [Hh|((Hz & Hn & Ha) & ->)].
    - destruct (append_holds granting junk (fun _ => eq_refl) p f c Hh)
        as (l & a & Hap & Hh' & _).
      eexists. split; [exact Hap|exact Hh'].
    - unfold import_append_char. rewrite Hn, Ha, Hz. cbn [Z.add Z.geb Z.compare].
      unfold granting, realloc, put_at.
      change (0 + 1 >=? 0) with true. cbn iota. ctx_simpl.
      rewrite length_resize.
      change ((0 <=? 0) && (0 <? Z.of_nat (Z.to_nat (0 + (0 + 100)))))
        with true.
      cbn iota. ctx_simpl. eexists. split; [reflexivity|].
      eexists. ctx_simpl. split; [reflexivity|].
      split; [rewrite length_insert, length_resize; reflexivity|].
      repeat split; reflexivity. }
  destruct Hgr as (p' & Hap & Hh').
  destruct (append_refused ok junk p c) as [E|E].
  - left. unfold import_append_char in E.
    destruct (Z.geb_spec (n p + 1) (nAlloc p)) as [Hge|Hlt].
    + replace (nAlloc p + (nAlloc p + 100)) with (2 * nAlloc p + 100) in E
        by lia.
      destruct (ok (2 * nAlloc p + 100)) eqn:Hok.
      * exfalso. unfold import_append_char in Hap.
        destruct (Z.geb_spec (n p + 1) (nAlloc p)); [|lia].
        unfold granting in Hap.
        replace (nAlloc p + (nAlloc p + 100)) with (2 * nAlloc p + 100)
          in Hap by lia.
        rewrite Hap in E. discriminate.
      * split; [lia|]. split; [reflexivity|].
        unfold import_append_char.
        destruct (Z.geb_spec (n p + 1) (nAlloc p)); [|lia].
        replace (nAlloc p + (nAlloc p + 100)) with (2 * nAlloc p + 100)
          by lia.
        rewrite Hok. reflexivity.
    + exfalso. unfold import_append_char in Hap.
      destruct (Z.geb_spec (n p + 1) (nAlloc p)); [lia|].
      rewrite Hap in E. discriminate.
  - right. exists p'. rewrite E. split; [exact Hap|]. split; [exact Hh'|].
    eapply append_frame. exact Hap.
Qed.

(** The third byte of a buffer of three bytes: the buffer grows to 106
    bytes and keeps the two bytes it held. *)
Lemma append_char_spec_witness :
  (2 + 1 >= 3 /\ true = false
   /\ import_append_char (fun _ => true) 0
        (mkCtx [] [] (Some [97; 98; 0]) 2 3 1 0 COMMA LF) 355 = OutOfMemory)
  \/ exists p',
       import_append_char (fun _ => true) 0
         (mkCtx [] [] (Some [97; 98; 0]) 2 3 1 0 COMMA LF) 355 = Ok p'
       /\ holds p' ([97; 98] ++ [99])
       /\ buffer_only (mkCtx [] [] (Some [97; 98; 0]) 2 3 1 0 COMMA LF) p'.
Proof.
  apply (append_char_spec (fun _ => true) 0
           (mkCtx [] [] (Some [97; 98; 0]) 2 3 1 0 COMMA LF) [97; 98] 355).
  left. exists [97; 98; 0]. repeat split; reflexivity.
Defined.

(** X10.  [strlen30] returns the number of the bytes before the first NUL,
    whatever stands behind it, as long as that number is below 2^30; in
    general it returns that number modulo 2^30, so that the result is never
    negative. *)
Theorem strlen30_spec (s rest : list Z) :
  Forall (fun b => b <> 0) s ->
  strlen30 (s ++ 0 :: rest) = Z.of_nat (length s) mod 2 ^ 30
  /\ 0 <= strlen30 (s ++ 0 :: rest) < 2 ^ 30
  /\ (Z.of_nat (length s) < 2 ^ 30 ->
      strlen30 (s ++ 0 :: rest) = Z.of_nat (length s)).
Proof.
  intros Hs. unfold strlen30.
  rewrite cstr_app_nul, (cstr_id s Hs).
  change 0x3fffffff with (Z.ones 30).
  rewrite Z.land_comm, Z.land_ones by lia.
  split; [reflexivity|]. split; [apply Z.mod_pos_bound; lia|].
  intros Hlt. apply Z.mod_small. lia.
Qed.

(** The row separator CR LF in its array of 20 bytes. *)
Lemma strlen30_spec_witness :
  strlen30 ([13; 10] ++ 0 :: replicate 17 0) = 2 mod 2 ^ 30
  /\ 0 <= strlen30 ([13; 10] ++ 0 :: replicate 17 0) < 2 ^ 30
  /\ (2 < 2 ^ 30 -> strlen30 ([13; 10] ++ 0 :: replicate 17 0) = 2).
Proof.
  apply (strlen30_spec [13; 10] (replicate 17 0)).
  repeat (constructor; [discriminate|]). constructor.
Defined.

(** ** Rows and files *)

Lemma bind_events_app i rs1 rs2 :
  bind_events i (rs1 ++ rs2)
  = bind_events i rs1 ++ bind_events (i + Z.of_nat (length rs1)) rs2.
Proof.
  revert i. induction rs1 as [|[v d] rs1 IH]; intros i.
  - simpl. rewrite Z.add_0_r. reflexivity.
  - cbn [app bind_events length]. rewrite IH, <- app_assoc. cbn [app].
    replace (i + Z.of_nat (S (length rs1))) with (i + 1 + Z.of_nat (length rs1))
      by lia.
    reflexivity.
Qed.

Lemma row_values_length rSep fds e :
  length (row_values rSep fds e) = length fds.
Proof. induction fds as [|f1 [|f2 fs] IH]; simpl in *; auto. Qed.

Lemma row_values_snoc rSep fds fd e :
  fds <> [] ->
  row_values rSep (fds ++ [fd]) e
  = map (fun f => Some (text f)) fds ++ [field_value fd (end_term rSep e)].
Proof.
  induction fds as [|f1 fds IH]; intros Hne; [contradiction|].
  destruct fds as [|f2 fds]; [reflexivity|].
  change (row_values rSep ((f1 :: f2 :: fds) ++ [fd]) e)
    with (Some (text f1) :: row_values rSep ((f2 :: fds) ++ [fd]) e).
  rewrite IH by discriminate. reflexivity.
Qed.

Lemma encode_row_snoc cSep fds fd :
  fds <> [] ->
  encode_row cSep (fds ++ [fd]) = encode_row cSep fds ++ cSep :: encode_field fd.
Proof.
  induction fds as [|f1 fds IH]; intros Hne; [contradiction|].
  destruct fds as [|f2 fds]; [reflexivity|].
  change (encode_row cSep ((f1 :: f2 :: fds) ++ [fd]))
    with (encode_field f1 ++ cSep :: encode_row cSep ((f2 :: fds) ++ [fd])).
  rewrite IH by discriminate.
  change (encode_row cSep (f1 :: f2 :: fds))
    with (encode_field f1 ++ cSep :: encode_row cSep (f2 :: fds)).
  rewrite <- app_assoc. reflexivity.
Qed.

(** The first read of a well-formed row returns a field, unless the row
    is an empty field at the end of the stream. *)
Lemma row_values_first rSep fds e :
  rSep <> EOF -> fds <> [] -> (e = EndStream -> fds <> [Bare []]) ->
  first_value (map silent (row_values rSep fds e)) <> None.
Proof.
  intros Hr Hne He. destruct fds as [|f1 [|f2 fds]]; [contradiction| |].
  - cbn. destruct f1 as [[|b t]|t]; cbn; try discriminate.
    destruct e; cbn; try (rewrite (proj2 (Z.eqb_neq rSep EOF) Hr));
      try discriminate.
    exfalso. apply He; reflexivity.
  - discriminate.
Qed.

Section RowsOfFile.

Variable w : World.
Variable db : Db.

(** At the end of the stream a round of the row loop reads once, binds
    nothing and steps no insert. *)
Lemma import_row_at_end fuel md r nCol k p :
  inp p = [] -> cColSep p <> EOF -> 0 < nCol -> (0 < fuel)%nat ->
  import_row w db fuel md r nCol k p
  = Ok (set_cTerm (set_inp (set_n p 0) []) EOF, k, []).
Proof.
  intros Hi Hc Hn Hf. unfold import_row. cbv zeta.
  destruct fuel as [|fuel]; [lia|]. cbn [read_columns].
  destruct (Z.ltb_spec 0 nCol); [|lia].
  assert (Hx : xRead w r p = Ok (None, set_cTerm (set_inp (set_n p 0) []) EOF, [])).
  { destruct r; cbn [xRead];
      unfold csv_read_one_field, ascii_read_one_field; cbv zeta;
      replace (inp (set_n p 0)) with (inp p) by reflexivity;
      rewrite Hi; reflexivity. }
  rewrite Hx. ctx_simpl. cbn [app andb].
  rewrite bool_decide_eq_true_2 by reflexivity. cbn [andb Z.eqb].
  ctx_simpl. rewrite (proj2 (Z.eqb_neq EOF (cColSep p))) by auto.
  ctx_simpl. destruct (Z.geb_spec 0 nCol); [lia|]. reflexivity.
Qed.

(** The reads of a row take the bytes of the row from the stream and
    count its lines. *)
Lemma row_reads_consumed r p rs p' :
  row_reads w r p rs p' ->
  Forall (fun b => b <> EOF) (inp p) ->
  cRowSep p <> EOF -> (r = CsvReader -> cRowSep p <> QUOTE) ->
  exists pre,
    inp p = pre ++ inp p'
    /\ nLine p' = nLine p + count_sep (cRowSep p) pre.
Proof.
  induction 1 as [p v p' d Hx Ht|p v p1 d rs p' Hx Ht Hr IH];
    intros Hs Hre Hrq.
  - destruct (xRead_consumed w r p v p' d Hx Hs Hre Hrq)
      as (pre & (Hi & _) & Hn & _).
    exists pre. auto.
  - destruct (xRead_consumed w r p v p1 d Hx Hs Hre Hrq)
      as (pre & (Hi & _) & Hn & _).
    apply xRead_frame in Hx as ((_ & _ & Er) & _).
    destruct IH as (pre2 & Hi2 & Hn2);
      [|congruence|intros E; rewrite Er; auto|].
    { rewrite Hi in Hs. apply Forall_app in Hs. tauto. }
    exists (pre ++ pre2). rewrite count_sep_app, <- app_assoc, <- Hi2.
    split; [exact Hi|]. rewrite Er in Hn2. lia.
Qed.

End RowsOfFile.

Lemma escape_no_eof t :
  Forall text_byte t -> Forall (fun b => b <> EOF) (escape t).
Proof.
  induction 1 as [|b t Hb _ IH]; [constructor|]. cbn [escape].
  destruct (b =? QUOTE); repeat (constructor; [discriminate|]);
    try exact IH.
  constructor; [unfold text_byte, EOF in *; lia|exact IH].
Qed.

Lemma encode_field_no_eof cSep rSep fd :
  wf_field cSep rSep fd -> Forall (fun b => b <> EOF) (encode_field fd).
Proof.
  destruct fd as [t|t]; cbn [wf_field encode_field].
  - intros [Ht _]. eapply Forall_impl; [exact Ht|].
    unfold text_byte, EOF. intros b Hb. lia.
  - intros Ht. constructor; [discriminate|].
    apply Forall_app. split; [apply escape_no_eof; exact Ht|].
    constructor; [discriminate|constructor].
Qed.

Lemma encode_row_no_eof cSep rSep fds :
  cSep <> EOF -> Forall (wf_field cSep rSep) fds ->
  Forall (fun b => b <> EOF) (encode_row cSep fds).
Proof.
  intros Hc. induction 1 as [|fd fds Hfd _ IH]; [constructor|].
  destruct fds as [|fd2 fds]; [eapply encode_field_no_eof; exact Hfd|].
  change (encode_row cSep (fd :: fd2 :: fds))
    with (encode_field fd ++ cSep :: encode_row cSep (fd2 :: fds)).
  apply Forall_app. split; [eapply encode_field_no_eof; exact Hfd|].
  constructor; [exact Hc|exact IH].
Qed.

Lemma end_bytes_no_eof rSep e :
  rSep <> EOF -> Forall (fun b => b <> EOF) (end_bytes rSep e).
Proof.
  intros Hr. destruct e; cbn [end_bytes];
    repeat (constructor; [first [exact Hr|discriminate]|]); constructor.
Qed.

Lemma encode_rows_no_eof cSep rSep rows :
  cSep <> EOF -> rSep <> EOF -> wf_rows cSep rSep rows ->
  Forall (fun b => b <> EOF) (encode_rows cSep rSep rows).
Proof.
  intros Hc Hr. induction rows as [|[fds e] rows IH]; [constructor|].
  cbn [wf_rows encode_rows]. intros (_ & Hf & _ & Hw).
  apply Forall_app. split; [eapply encode_row_no_eof; eauto|].
  apply Forall_app. split; [apply end_bytes_no_eof; exact Hr|auto].
Qed.

(** A row has at most one field more than it has bytes. *)
Lemma encode_row_length cSep fds :
  (length fds <= length (encode_row cSep fds) + 1)%nat.
Proof.
  induction fds as [|fd fds IH]; [simpl; lia|].
  destruct fds as [|fd2 fds]; [simpl; lia|].
  change (encode_row cSep (fd :: fd2 :: fds))
    with (encode_field fd ++ cSep :: encode_row cSep (fd2 :: fds)).
  rewrite length_app. cbn [length] in *. lia.
Qed.

Section Files.

Variable w : World.
Variable db : Db.
Hypothesis granted : forall size, realloc_ok w size = true.

(** The row loop over the rows of a file. *)
Lemma row_loop_file nCol : forall rows fuel k p tr,
  allocated p -> wf_seps (cColSep p) (cRowSep p) ->
  wf_rows (cColSep p) (cRowSep p) rows -> 0 < nCol ->
  inp p = encode_rows (cColSep p) (cRowSep p) rows ->
  Z.of_nat (length (inp p)) + nCol < Z.of_nat fuel ->
  exists p',
    row_loop w db fuel MODE_Csv CsvReader nCol k p tr
    = Ok (p', tr ++ file_events db (zFile p) (cColSep p) (cRowSep p) nCol
                      k (nLine p) rows)
    /\ inp p' = [] /\ cTerm p' = EOF.
Proof.
  induction rows as [|[fds e] rows IH]; intros fuel k p tr Ha Hw Hrows Hn Hi Hf.
  - cbn [encode_rows file_events] in *.
    destruct fuel as [|fuel]; [lia|]. cbn [row_loop].
    rewrite (import_row_at_end w db (S fuel) MODE_Csv CsvReader nCol k p)
      by (auto; try lia; apply Hw).
    ctx_simpl. cbn [Z.eqb negb]. eexists. split; [reflexivity|].
    ctx_simpl. auto.
  - cbn [encode_rows file_events wf_rows] in *.
    destruct Hrows as (Hne & Hfds & He & Hrows).
    pose proof Hw as (Hcr & Hcq & Hrq & Hcc & Hrc & Hce & Hre).
    destruct (wf_row_reads w granted fds p e
                (encode_rows (cColSep p) (cRowSep p) rows) Hne Ha Hw Hfds)
      as (p1 & Hr & Hi1 & Hc1 & Ha1 & Hs1);
      [intros E; destruct (He E) as [-> _]; reflexivity | exact Hi |].
    pose proof (encode_row_length (cColSep p) fds) as Hlen.
    rewrite Hi, !length_app in Hf.
    destruct fuel as [|fuel]; [lia|]. cbn [row_loop].
    rewrite (import_row_reads w db CsvReader (S fuel) nCol k p _ p1 Hr);
      [|apply row_values_first; auto; intros E; apply He; exact E
       |exact Hn|lia|rewrite length_map, row_values_length; lia].
    ctx_simpl. rewrite Hc1.
    destruct (row_reads_consumed w CsvReader p _ p1 Hr)
      as (pre & Hpre & Hline); [|exact Hre|intros _; exact Hrq|].
    { rewrite Hi. apply Forall_app. split.
      - eapply encode_row_no_eof; eauto.
      - apply Forall_app. split; [apply end_bytes_no_eof; exact Hre|].
        apply encode_rows_no_eof; auto. }
    rewrite Hi, Hi1, app_assoc in Hpre. apply app_inv_tail in Hpre.
    rewrite <- Hpre in Hline.
    destruct Hs1 as (Ef & Ec & Er).
    destruct (Z.eq_dec (end_term (cRowSep p) e) EOF) as [Ee|Ee].
    + (* the stream ended the row *)
      assert (e = EndStream) as ->
        by (destruct e; simpl in Ee; congruence).
      destruct (He eq_refl) as [-> _]. cbn [file_events encode_rows] in *.
      rewrite Ee. cbn [Z.eqb negb]. exists p1.
      rewrite app_nil_r. split; [reflexivity|]. split; [exact Hi1|].
      rewrite Hc1. exact Ee.
    + rewrite (proj2 (Z.eqb_neq _ _) Ee). cbn [negb].
      assert (Hend : (0 < length (end_bytes (cRowSep p) e))%nat).
      { destruct e; [simpl; lia|simpl; lia|exfalso; apply Ee; reflexivity]. }
      destruct (IH fuel (S k) p1
                  (tr ++ row_events (zFile p) (nLine p) nCol
                           (map silent (row_values (cRowSep p) fds e))
                         ++ insert_events (zFile p) (nLine p) (reset_rc db k)))
        as (p' & Hl & Hi' & Hc'); [exact Ha1 | rewrite Ec, Er; exact Hw
        | rewrite Ec, Er; exact Hrows | exact Hn | rewrite Ec, Er; exact Hi1
        | rewrite Hi1; lia |].
      exists p'. rewrite Hl, Ef, Ec, Er, Hline, <- !app_assoc.
      split; [reflexivity|]. auto.
Qed.

(** The loop that reads the names of the columns, over the reads of a row
    that all return a field. *)
Lemma read_header_row r p rs p' :
  row_reads w r p rs p' ->
  forall fuel cols tr,
    Forall (fun x => fst x <> None) rs -> (length rs <= fuel)%nat ->
    read_header w fuel r p cols tr
    = Ok (p', cols ++ omap fst rs, tr ++ concat (map snd rs)).
Proof.
  induction 1 as [p v p' d Hx Ht|p v p1 d rs p' Hx Ht Hr IH];
    intros fuel cols tr Hv Hf; cbn [length] in Hf;
    (destruct fuel as [|fuel]; [lia|]); cbn [read_header];
    rewrite Hx; ctx_simpl;
    inversion Hv as [|? ? Hv1 Hv2]; subst; cbn [fst] in Hv1;
    (destruct v as [name|]; [|contradiction]);
    cbn [omap map concat fst snd option_bind mbind].
  - rewrite (proj2 (Z.eqb_neq _ _) Ht). cbn [negb].
    rewrite app_nil_r. reflexivity.
  - rewrite Ht, Z.eqb_refl. cbn [negb].
    rewrite IH by (auto; lia). rewrite <- !app_assoc. reflexivity.
Qed.

(** The table is created from the first row of the stream. *)
Lemma resolve_table_header (fuel : nat)
    (c : closer) (rc : Z) (p : ImportCtx) (tr : list event)
    (fds : list field) (e : row_end) (rest : list Z) :
  allocated p ->
  wf_seps (cColSep p) (cRowSep p) ->
  Forall (wf_field (cColSep p) (cRowSep p)) fds ->
  fds <> [] ->
  (e = EndStream -> rest = [] /\ last fds <> Some (Bare [])) ->
  Forall (fun b => b <> EOF) rest ->
  inp p = encode_row (cColSep p) fds ++ end_bytes (cRowSep p) e ++ rest ->
  rc <> 0 -> no_such_table db = true ->
  create_rc db (map text fds) = 0 ->
  (length fds <= fuel)%nat ->
  exists p',
    resolve_table w db fuel CsvReader c rc p tr
    = Ok (None, reselect_rc db, p',
          tr ++ [CreateTable (map text fds); PrepareSelect])
    /\ inp p' = rest
    /\ nLine p' = nLine p
                  + count_sep (cRowSep p)
                      (encode_row (cColSep p) fds ++ end_bytes (cRowSep p) e)
    /\ allocated p' /\ same_setup p p'.
Proof.
  intros Ha Hw Hf Hne He Hrest Hi Hrc Hnt Hcr Hfuel.
  pose proof Hw as (_ & _ & Hrq & _ & _ & Hce & Hre).
  destruct (wf_row_reads w granted fds p e rest Hne Ha Hw Hf)
    as (p' & Hr & Hi' & _ & Ha' & Hs'); [intros E; apply He; exact E | exact Hi |].
  rewrite row_values_texts in Hr
    by (auto; intros E; apply He; exact E).
  destruct (row_reads_consumed w CsvReader p _ p' Hr)
    as (pre & Hpre & Hline); [|exact Hre|intros _; exact Hrq|].
  { rewrite Hi. apply Forall_app. split.
    - eapply encode_row_no_eof; eauto.
    - apply Forall_app. split; [apply end_bytes_no_eof; exact Hre|].
      exact Hrest. }
  rewrite Hi, Hi', app_assoc in Hpre. apply app_inv_tail in Hpre.
  exists p'. split; [|split; [exact Hi'|split; [rewrite Hpre; exact Hline|auto]]].
  unfold resolve_table.
  rewrite (proj2 (Z.eqb_neq rc 0) Hrc), Hnt. cbn [negb andb].
  rewrite (read_header_row CsvReader p _ p' Hr).
  - ctx_simpl.
    assert (Ecols : omap fst (map silent (map (fun fd => Some (text fd)) fds))
                    = map text fds).
    { clear. induction fds as [|fd fds IH]; [reflexivity|].
      simpl. f_equal. exact IH. }
    assert (Ed : concat (map snd (map silent
                   (map (fun fd => Some (text fd)) fds))) = []).
    { clear. induction fds as [|fd fds IH]; [reflexivity|]. exact IH. }
    cbn [app]. rewrite Ecols, Ed, app_nil_r.
    destruct (map text fds) as [|col cols] eqn:Em.
    { destruct fds; [contradiction|discriminate]. }
    rewrite Hcr. cbn [Z.eqb negb]. rewrite <- app_assoc. reflexivity.
  - clear. induction fds; constructor; auto; discriminate.
  - rewrite !length_map. exact Hfuel.
Qed.

End Files.

(** ** The kinds of the events *)

Lemma tokenizer_diag_kind file start lo hi e :
  tokenizer_diag file start lo hi e -> is_diag e = true.
Proof. intros [->|(line & -> & _)]; reflexivity. Qed.

Lemma diag_row_event e : is_diag e = true -> row_event e = true.
Proof. destruct e; simpl; auto. Qed.

Section Kinds.

Variable w : World.
Variable db : Db.

Lemma xRead_diags r p v p' d :
  xRead w r p = Ok (v, p', d) -> Forall (fun e => is_diag e = true) d.
Proof.
  intros H. apply xRead_frame in H as (_ & _ & Hd).
  eapply Forall_impl; [exact Hd|]. intros e. apply tokenizer_diag_kind.
Qed.

Lemma read_header_diags r : forall fuel p cols tr p' cols' tr',
  read_header w fuel r p cols tr = Ok (p', cols', tr') ->
  exists dh, tr' = tr ++ dh /\ Forall (fun e => is_diag e = true) dh.
Proof.
  induction fuel as [|fuel IH]; intros p cols tr p' cols' tr' H;
    cbn [read_header] in H; [discriminate|].
  apply rbind_ok in H as ([[v p1] d] & Hx & H).
  apply xRead_diags in Hx.
  destruct v as [name|]; [|inv_ok; eauto].
  destruct (negb (cTerm p1 =? cColSep p1)); [inv_ok; eauto|].
  apply IH in H as (dh & -> & Hdh). exists (d ++ dh).
  rewrite app_assoc. split; [reflexivity|]. apply Forall_app. auto.
Qed.

Lemma read_columns_kinds md r nCol start : forall fuel i p tr i' p' tr',
  read_columns w fuel md r nCol start i p tr = Ok (i', p', tr') ->
  exists t2, tr' = tr ++ t2 /\ Forall (fun e => row_event e = true) t2.
Proof.
  induction fuel as [|fuel IH]; intros i p tr i' p' tr' H;
    cbn [read_columns] in H.
  - destruct (i <? nCol); inv_ok. exists []. rewrite app_nil_r. auto.
  - destruct (i <? nCol).
    2:{ inv_ok. exists []. rewrite app_nil_r. auto. }
    apply rbind_ok in H as ([[v p1] d] & Hx & H).
    apply xRead_diags in Hx.
    assert (Hd : Forall (fun e => row_event e = true) d).
    { eapply Forall_impl; [exact Hx|]. apply diag_row_event. }
    destruct (bool_decide (v = None) && (i =? 0)); [inv_ok; eauto|].
    destruct ((md =? MODE_Ascii) && null_or_empty v && (i =? 0));
      [inv_ok; eauto|].
    destruct ((i <? nCol - 1) && negb (cTerm p1 =? cColSep p1)).
    + apply rbind_ok in H as ([i2 tr2] & Hbn & H).
      apply bind_nulls_events in Hbn as (t2 & -> & Ht2).
      apply IH in H as (t3 & -> & Ht3).
      eexists. rewrite <- !app_assoc. split; [reflexivity|].
      repeat (apply Forall_app; split); auto;
        try (repeat constructor; fail).
      eapply Forall_impl; [exact Ht2|]. intros e [j ->]. reflexivity.
    + apply IH in H as (t3 & -> & Ht3).
      eexists. rewrite <- !app_assoc. split; [reflexivity|].
      repeat (apply Forall_app; split); auto;
        try (repeat constructor; fail).
Qed.

Lemma drain_kinds r : forall fuel i p tr i' p' tr',
  drain w fuel r i p tr = Ok (i', p', tr') ->
  exists t2, tr' = tr ++ t2 /\ Forall (fun e => row_event e = true) t2.
Proof.
  induction fuel as [|fuel IH]; intros i p tr i' p' tr' H;
    cbn [drain] in H; [discriminate|].
  apply rbind_ok in H as ([[v p1] d] & Hx & H).
  apply xRead_diags in Hx.
  assert (Hd : Forall (fun e => row_event e = true) d).
  { eapply Forall_impl; [exact Hx|]. apply diag_row_event. }
  destruct (cTerm p1 =? cColSep p1); [|inv_ok; eauto].
  apply IH in H as (t3 & -> & Ht3).
  eexists. rewrite <- !app_assoc. split; [reflexivity|].
  apply Forall_app. auto.
Qed.

Lemma import_row_kinds fuel md r nCol k p p' k' tr :
  import_row w db fuel md r nCol k p = Ok (p', k', tr) ->
  Forall (fun e => row_event e = true) tr.
Proof.
  unfold import_row. intros H.
  apply rbind_ok in H as ([[i1 p1] tr1] & Hrc & H).
  apply read_columns_kinds in Hrc as (t1 & E1 & Ht1).
  simpl in E1. subst tr1.
  apply rbind_ok in H as ([[i2 p2] tr2] & Hdr & H).
  assert (Hmid : Forall (fun e => row_event e = true) tr2).
  { destruct (cTerm p1 =? cColSep p1); [|inv_ok; exact Ht1].
    apply rbind_ok in Hdr as ([[i3 p3] tr3] & Hd & Hdr).
    apply drain_kinds in Hd as (t3 & -> & Ht3). inv_ok.
    repeat (apply Forall_app; split); auto;
      try (repeat constructor; fail). }
  destruct (i2 >=? nCol); inv_ok; [|exact Hmid].
  apply Forall_app. split; [exact Hmid|].
  do 2 (constructor; [reflexivity|]).
  destruct (negb _); repeat constructor.
Qed.

Lemma row_loop_kinds md r nCol : forall fuel k p tr p' tr',
  row_loop w db fuel md r nCol k p tr = Ok (p', tr') ->
  exists rows, tr' = tr ++ rows /\ Forall (fun e => row_event e = true) rows.
Proof.
  induction fuel as [|fuel IH]; intros k p tr p' tr' H;
    cbn [row_loop] in H; [discriminate|].
  apply rbind_ok in H as ([[p1 k1] d] & Hr & H).
  apply import_row_kinds in Hr.
  destruct (negb (cTerm p1 =? EOF)); [|inv_ok; eauto].
  apply IH in H as (rows & -> & Hrows). exists (d ++ rows).
  rewrite app_assoc. split; [reflexivity|]. apply Forall_app. auto.
Qed.

(** The trace of the import on an open stream. *)
Lemma import_stream_trace fuel md rd c sCtx status tr :
  import_stream w db fuel md rd c sCtx = Ok (status, tr) ->
  import_trace db c status tr.
Proof.
  unfold import_stream. intros H.
  destruct (negb (mprintf_ok w)); [inv_ok; constructor|].
  apply rbind_ok in H as (p & _ & H). cbn [app] in H.
  apply rbind_ok in H as ([[[stop rc] p1] tr1] & Hres & H).
  assert (Hcase :
    (exists status0, stop = Some status0 /\ import_trace db c status0 tr1)
    \/ (stop = None /\ table_resolved tr1)).
  { unfold resolve_table in Hres.
    destruct (negb (select_rc db =? 0) && no_such_table db).
    - apply rbind_ok in Hres as ([[p2 cols] tr2] & Hh & Hres).
      apply read_header_diags in Hh as (dh & -> & Hdh).
      destruct cols as [|col cols].
      + inv_ok. left. eexists. split; [reflexivity|].
        rewrite <- ?app_assoc. apply trace_empty_file. exact Hdh.
      + destruct (negb (create_rc db (col :: cols) =? 0)); inv_ok.
        * left. eexists. split; [reflexivity|].
          rewrite <- ?app_assoc. cbn [app].
          apply (trace_create_failed db c dh (col :: cols) Hdh).
        * right. split; [reflexivity|].
          rewrite <- ?app_assoc. cbn [app].
          apply (resolved_created dh (col :: cols) Hdh).
    - inv_ok. right. split; [reflexivity|]. constructor. }
  destruct Hcase as [(status0 & -> & Ht)|(-> & Hpre)]; [inv_ok; exact Ht|].
  destruct (negb (rc =? 0)).
  { inv_ok. apply trace_prepared; [exact Hpre|constructor]. }
  destruct (Z.eqb_spec (Z.of_nat (column_count db)) 0) as [E|E].
  { inv_ok. apply trace_prepared; [exact Hpre|].
    apply after_no_columns. lia. }
  destruct (negb (malloc_ok w)).
  { inv_ok. rewrite <- ?app_assoc.
    apply trace_prepared; [exact Hpre|constructor]. }
  destruct (negb (insert_rc db =? 0)).
  { inv_ok. rewrite <- ?app_assoc.
    apply trace_prepared; [exact Hpre|constructor]. }
  apply rbind_ok in H as ([p2 tr2] & Hloop & H).
  apply row_loop_kinds in Hloop as (rows & -> & Hrows).
  inv_ok.
  match goal with |- import_trace _ _ _ ?t => replace t
    with (tr1 ++ ([FinalizeStmt; PrepareInsert (Z.of_nat (column_count db))]
                  ++ (if autocommit db then [Begin] else [])
                  ++ rows
                  ++ [Close c; FreeBuf; FinalizeStmt]
                  ++ (if autocommit db then [Commit] else []))) end.
  - apply trace_prepared; [exact Hpre|]. apply after_rows; [exact Hrows|lia].
  - destruct (autocommit db); rewrite <- ?app_assoc; cbn [app];
      rewrite <- ?app_assoc; reflexivity.
Qed.

End Kinds.

Lemma sqlite_import_trace w db fuel zFile0 status tr :
  sqlite_import w db fuel zFile0 = Ok (status, tr) ->
  (status = 1 /\ tr = [Error CannotOpen])
  \/ exists tr0,
       tr = Open (snd (open_stream w zFile0)) :: tr0
       /\ import_trace db (snd (open_stream w zFile0)) status tr0.
Proof.
  rewrite sqlite_import_unfold.
  destruct (open_stream w zFile0) as [[[bytes|] name] c]; cbn [snd].
  - intros H. apply rbind_ok in H as ([st t] & Hs & H). inv_ok.
    right. exists t. split; [reflexivity|].
    eapply import_stream_trace. exact Hs.
  - intros H. inv_ok. left. auto.
Qed.

(** ** The loader under an allocator that may refuse *)

Section LoaderRefusal.

Variable w : World.
Variable db : Db.

Lemma xRead_refused r p : refused_or (xRead w r p) (xRead (grant w) r p).
Proof.
  destruct r; cbn [xRead grant realloc_ok junk].
  - apply csv_read_refused.
  - apply ascii_read_refused.
Qed.

Lemma read_header_refused r : forall fuel p cols tr,
  refused_or (read_header w fuel r p cols tr)
             (read_header (grant w) fuel r p cols tr).
Proof.
  induction fuel as [|fuel IH]; intros p cols tr; cbn [read_header];
    [apply refused_or_refl|].
  apply refused_or_bind; [apply xRead_refused|].
  intros [[[name|] p1] d]; [|apply refused_or_refl].
  destruct (negb (cTerm p1 =? cColSep p1)); [apply refused_or_refl|apply IH].
Qed.

Lemma read_columns_refused md r nCol start : forall fuel i p tr,
  refused_or (read_columns w fuel md r nCol start i p tr)
             (read_columns (grant w) fuel md r nCol start i p tr).
Proof.
  induction fuel as [|fuel IH]; intros i p tr; cbn [read_columns];
    [apply refused_or_refl|].
  destruct (i <? nCol); [|apply refused_or_refl].
  apply refused_or_bind; [apply xRead_refused|].
  intros [[v p1] d]. cbv zeta.
  destruct (bool_decide (v = None) && (i =? 0)); [apply refused_or_refl|].
  destruct ((md =? MODE_Ascii) && null_or_empty v && (i =? 0));
    [apply refused_or_refl|].
  destruct ((i <? nCol - 1) && negb (cTerm p1 =? cColSep p1)); [|apply IH].
  apply refused_or_bind; [apply refused_or_refl|].
  intros [i2 tr2]. apply IH.
Qed.

Lemma drain_refused r : forall fuel i p tr,
  refused_or (drain w fuel r i p tr) (drain (grant w) fuel r i p tr).
Proof.
  induction fuel as [|fuel IH]; intros i p tr; cbn [drain];
    [apply refused_or_refl|].
  apply refused_or_bind; [apply xRead_refused|].
  intros [[v p1] d].
  destruct (cTerm p1 =? cColSep p1); [apply IH|apply refused_or_refl].
Qed.

Lemma import_row_refused fuel md r nCol k p :
  refused_or (import_row w db fuel md r nCol k p)
             (import_row (grant w) db fuel md r nCol k p).
Proof.
  unfold import_row. cbv zeta.
  apply refused_or_bind; [apply read_columns_refused|].
  intros [[i1 p1] tr1].
  apply refused_or_bind; [|intros; apply refused_or_refl].
  destruct (cTerm p1 =? cColSep p1); [|apply refused_or_refl].
  apply refused_or_bind; [apply drain_refused|intros; apply refused_or_refl].
Qed.

Lemma row_loop_refused md r nCol : forall fuel k p tr,
  refused_or (row_loop w db fuel md r nCol k p tr)
             (row_loop (grant w) db fuel md r nCol k p tr).
Proof.
  induction fuel as [|fuel IH]; intros k p tr; cbn [row_loop];
    [apply refused_or_refl|].
  apply refused_or_bind; [apply import_row_refused|].
  intros [[p1 k1] d].
  destruct (negb (cTerm p1 =? EOF)); [apply IH|apply refused_or_refl].
Qed.

Lemma import_stream_refused fuel md rd c sCtx :
  refused_or (import_stream w db fuel md rd c sCtx)
             (import_stream (grant w) db fuel md rd c sCtx).
Proof.
  unfold import_stream. cbn [grant mprintf_ok malloc_ok realloc_ok junk].
  destruct (negb (mprintf_ok w)); [apply refused_or_refl|]. cbv zeta.
  apply refused_or_bind; [apply append_refused|]. intros p.
  apply refused_or_bind.
  - unfold resolve_table.
    destruct (negb (select_rc db =? 0) && no_such_table db);
      [|apply refused_or_refl].
    apply refused_or_bind; [apply read_header_refused|].
    intros; apply refused_or_refl.
  - intros [[[stop rc] p1] tr1]. destruct stop; [apply refused_or_refl|].
    destruct (negb (rc =? 0)); [apply refused_or_refl|].
    destruct (Z.of_nat (column_count db) =? 0); [apply refused_or_refl|].
    destruct (negb (malloc_ok w)); [apply refused_or_refl|].
    destruct (negb (insert_rc db =? 0)); [apply refused_or_refl|].
    apply refused_or_bind; [apply row_loop_refused|].
    intros; apply refused_or_refl.
Qed.

Lemma sqlite_import_refused fuel zFile0 :
  refused_or (sqlite_import w db fuel zFile0)
             (sqlite_import (grant w) db fuel zFile0).
Proof.
  rewrite !sqlite_import_unfold.
  change (open_stream (grant w) zFile0) with (open_stream w zFile0).
  destruct (open_stream w zFile0) as [[[bytes|] name] c];
    [|apply refused_or_refl].
  apply refused_or_bind; [apply import_stream_refused|].
  intros; apply refused_or_refl.
Qed.

End LoaderRefusal.

(** ** The import returns *)

Section ImportTotal.

Variable w : World.
Variable db : Db.
Hypothesis granted : forall size, realloc_ok w size = true.

Lemma resolve_table_total fuel rd c rc p tr :
  allocated p -> cColSep p <> EOF -> (length (inp p) < fuel)%nat ->
  exists stop rc' p' tr',
    resolve_table w db fuel rd c rc p tr = Ok (stop, rc', p', tr')
    /\ allocated p' /\ same_setup p p'
    /\ (length (inp p') <= length (inp p))%nat.
Proof.
  intros Ha Hc Hf. unfold resolve_table.
  destruct (negb (rc =? 0) && no_such_table db).
  - destruct (read_header_total w granted rd fuel p [] tr Ha Hc Hf)
      as (p1 & cols & tr1 & Hh & Ha1 & Hs1 & Hl1 & _).
    rewrite Hh. ctx_simpl. destruct cols as [|col cols].
    + eexists _, _, _, _. split; [reflexivity|]. auto.
    + destruct (negb (create_rc db (col :: cols) =? 0));
        eexists _, _, _, _; (split; [reflexivity|]); auto.
  - eexists _, _, _, _. split; [reflexivity|].
    split; [exact Ha|]. split; [repeat split|lia].
Qed.

Lemma import_stream_total fuel c name bytes :
  (length bytes + column_count db < fuel)%nat ->
  exists status tr,
    import_stream w db fuel MODE_Csv CsvReader c (start_ctx name bytes)
    = Ok (status, tr).
Proof.
  intros Hf. unfold import_stream.
  destruct (negb (mprintf_ok w)); [eauto|]. cbv zeta.
  destruct (first_append w name bytes (granted 100))
    as (p & Hap & Ha & Hi & _ & Hc & _).
  rewrite Hap. ctx_simpl. cbn [app].
  assert (Hce : cColSep p <> EOF) by (rewrite Hc; discriminate).
  destruct (resolve_table_total fuel CsvReader c (select_rc db) p
              [PrepareSelect; Alloc] Ha Hce)
    as (stop & rc & p1 & tr1 & Hres & Ha1 & (_ & Ec & _) & Hl1);
    [rewrite Hi; lia|].
  rewrite Hres. ctx_simpl. destruct stop; [eauto|].
  destruct (negb (rc =? 0)); [eauto|].
  destruct (Z.eqb_spec (Z.of_nat (column_count db)) 0); [eauto|].
  destruct (negb (malloc_ok w)); [eauto|].
  destruct (negb (insert_rc db =? 0)); [eauto|].
  match goal with |- context [row_loop w db fuel MODE_Csv CsvReader ?nc 0 p1 ?t] =>
    destruct (row_loop_total w db granted MODE_Csv CsvReader nc fuel 0 p1 t)
      as (p2 & tr2 & Hloop) end;
    [exact Ha1 | congruence | lia | rewrite Hi in Hl1; lia |].
  rewrite Hloop. ctx_simpl. eauto.
Qed.

End ImportTotal.

(** ** The row loop reads the stream to its end *)

Section ReadsAll.

Variable w : World.
Variable db : Db.

Lemma xRead_end r p v p' d :
  xRead w r p = Ok (v, p', d) ->
  Forall (fun b => b <> EOF) (inp p) ->
  cRowSep p <> EOF -> (r = CsvReader -> cRowSep p <> QUOTE) ->
  (cTerm p' = EOF -> inp p' = [])
  /\ Forall (fun b => b <> EOF) (inp p') /\ same_setup p p'.
Proof.
  intros H Hs Hr Hq.
  destruct (xRead_consumed w r p v p' d H Hs Hr Hq)
    as (pre & (Hi & He & _) & _).
  split; [exact He|]. split.
  - rewrite Hi in Hs. apply Forall_app in Hs. tauto.
  - apply xRead_frame in H. tauto.
Qed.

Lemma read_columns_end md r nCol start : forall fuel i p tr i' p' tr',
  read_columns w fuel md r nCol start i p tr = Ok (i', p', tr') ->
  Forall (fun b => b <> EOF) (inp p) ->
  cRowSep p <> EOF -> (r = CsvReader -> cRowSep p <> QUOTE) ->
  i < nCol \/ (cTerm p = EOF -> inp p = []) ->
  (cTerm p' = EOF -> inp p' = [])
  /\ Forall (fun b => b <> EOF) (inp p') /\ same_setup p p'.
Proof.
  induction fuel as [|fuel IH]; intros i p tr i' p' tr' H Hs Hr Hq Hi;
    cbn [read_columns] in H.
  - destruct (Z.ltb_spec i nCol); inv_ok.
    destruct Hi as [?|Hi]; [lia|]. repeat split; auto.
  - destruct (Z.ltb_spec i nCol).
    2:{ inv_ok. destruct Hi as [?|Hi]; [lia|]. repeat split; auto. }
    apply rbind_ok in H as ([[v p1] d] & Hx & H).
    apply xRead_end in Hx as (He1 & Hs1 & Hset1); auto.
    pose proof Hset1 as (_ & _ & Er).
    assert (Hnext : forall j t,
      read_columns w fuel md r nCol start j p1 t = Ok (i', p', tr') ->
      (cTerm p' = EOF -> inp p' = [])
      /\ Forall (fun b => b <> EOF) (inp p') /\ same_setup p p').
    { intros j t Hj.
      apply IH in Hj as (? & ? & ?); auto; try congruence.
      - split; [assumption|]. split; [assumption|].
        eapply same_setup_trans; eauto.
      - intros E. rewrite Er. auto. }
    destruct (bool_decide (v = None) && (i =? 0)); [inv_ok; auto|].
    destruct ((md =? MODE_Ascii) && null_or_empty v && (i =? 0));
      [inv_ok; auto|].
    destruct ((i <? nCol - 1) && negb (cTerm p1 =? cColSep p1)).
    + apply rbind_ok in H as ([i2 tr2] & _ & H). eapply Hnext; eauto.
    + eapply Hnext; eauto.
Qed.

Lemma drain_end r : forall fuel i p tr i' p' tr',
  drain w fuel r i p tr = Ok (i', p', tr') ->
  Forall (fun b => b <> EOF) (inp p) ->
  cRowSep p <> EOF -> (r = CsvReader -> cRowSep p <> QUOTE) ->
  (cTerm p' = EOF -> inp p' = [])
  /\ Forall (fun b => b <> EOF) (inp p') /\ same_setup p p'.
Proof.
  induction fuel as [|fuel IH]; intros i p tr i' p' tr' H Hs Hr Hq;
    cbn [drain] in H; [discriminate|].
  apply rbind_ok in H as ([[v p1] d] & Hx & H).
  apply xRead_end in Hx as (He1 & Hs1 & Hset1); auto.
  pose proof Hset1 as (_ & _ & Er).
  destruct (cTerm p1 =? cColSep p1); [|inv_ok; auto].
  apply IH in H as (? & ? & ?); auto; try congruence.
  - split; [assumption|]. split; [assumption|].
    eapply same_setup_trans; eauto.
  - intros E. rewrite Er. auto.
Qed.

Lemma import_row_end fuel md r nCol k p p' k' tr :
  import_row w db fuel md r nCol k p = Ok (p', k', tr) ->
  0 < nCol ->
  Forall (fun b => b <> EOF) (inp p) ->
  cRowSep p <> EOF -> (r = CsvReader -> cRowSep p <> QUOTE) ->
  (cTerm p' = EOF -> inp p' = [])
  /\ Forall (fun b => b <> EOF) (inp p') /\ same_setup p p'.
Proof.
  unfold import_row. intros H Hn Hs Hr Hq.
  apply rbind_ok in H as ([[i1 p1] tr1] & Hrc & H).
  apply read_columns_end in Hrc as (He1 & Hs1 & Hset1); auto.
  pose proof Hset1 as (_ & _ & Er).
  apply rbind_ok in H as ([[i2 p2] tr2] & Hdr & H).
  assert (Hmid : (cTerm p2 = EOF -> inp p2 = [])
                 /\ Forall (fun b => b <> EOF) (inp p2) /\ same_setup p p2).
  { destruct (cTerm p1 =? cColSep p1); [|inv_ok; auto].
    apply rbind_ok in Hdr as ([[i3 p3] tr3] & Hd & Hdr). inv_ok.
    apply drain_end in Hd as (? & ? & ?); auto; try congruence.
    - split; [assumption|]. split; [assumption|].
      eapply same_setup_trans; eauto.
    - intros E. rewrite Er. auto. }
  destruct (i2 >=? nCol); inv_ok; exact Hmid.
Qed.

Lemma row_loop_end md r nCol : forall fuel k p tr p' tr',
  row_loop w db fuel md r nCol k p tr = Ok (p', tr') ->
  0 < nCol ->
  Forall (fun b => b <> EOF) (inp p) ->
  cRowSep p <> EOF -> (r = CsvReader -> cRowSep p <> QUOTE) ->
  inp p' = [] /\ cTerm p' = EOF.
Proof.
  induction fuel as [|fuel IH]; intros k p tr p' tr' H Hn Hs Hr Hq;
    cbn [row_loop] in H; [discriminate|].
  apply rbind_ok in H as ([[p1 k1] d] & Hrow & H).
  apply import_row_end in Hrow as (He1 & Hs1 & (_ & _ & Er)); auto.
  destruct (Z.eqb_spec (cTerm p1) EOF) as [E|E]; cbn [negb] in H.
  - inv_ok. auto.
  - eapply IH; eauto; try congruence. intros E2. rewrite Er. auto.
Qed.

End ReadsAll.

(** ** Views of a trace *)

Lemma diags_no_error dh :
  Forall (fun e => is_diag e = true) dh ->
  ~ Exists (fun e => is_error e = true) dh.
Proof.
  intros H Hex. apply Exists_exists in Hex as (e & Hin & He).
  rewrite Forall_forall in H. specialize (H e Hin).
  destruct e; discriminate.
Qed.

Lemma rows_no_error rows :
  Forall (fun e => row_event e = true) rows ->
  ~ Exists (fun e => is_error e = true) rows.
Proof.
  intros H Hex. apply Exists_exists in Hex as (e & Hin & He).
  rewrite Forall_forall in H. specialize (H e Hin).
  destruct e; discriminate.
Qed.

Lemma diags_touch_nothing dh :
  Forall (fun e => is_diag e = true) dh ->
  Forall (fun e => touches_rows e = false) dh.
Proof.
  intros H. eapply Forall_impl; [exact H|].
  intros e; destruct e; simpl; congruence.
Qed.

Lemma filter_diags (f : event -> bool) dh :
  (forall file line m, f (Diag file line m) = false) ->
  Forall (fun e => is_diag e = true) dh -> List.filter f dh = [].
Proof.
  intros Hf. induction 1 as [|e dh He _ IH]; [reflexivity|].
  destruct e; try discriminate. cbn [List.filter]. rewrite Hf. exact IH.
Qed.

Lemma filter_rows_txn rows :
  Forall (fun e => row_event e = true) rows ->
  exists k, List.filter txn_event rows = replicate k StepStmt.
Proof.
  induction 1 as [|e rows He _ (k & IH)]; [exists O; reflexivity|].
  destruct e; try discriminate; cbn [List.filter txn_event];
    try (exists k; exact IH).
  exists (S k). rewrite IH. reflexivity.
Qed.

Lemma filter_rows_other (f : event -> bool) rows :
  (forall e, row_event e = true -> f e = false) ->
  Forall (fun e => row_event e = true) rows -> List.filter f rows = [].
Proof.
  intros Hf. induction 1 as [|e rows He _ IH]; [reflexivity|].
  cbn [List.filter]. rewrite (Hf e He). exact IH.
Qed.

Lemma open_stream_closer w zFile0 :
  snd (open_stream w zFile0) = closer_of zFile0.
Proof.
  unfold open_stream, closer_of.
  destruct (first_char zFile0 =? PIPE); reflexivity.
Qed.

(** ** The file and the lines of the diagnostics *)

Lemma diag_from_le file lo lo' e :
  lo' <= lo -> diag_from file lo e -> diag_from file lo' e.
Proof. destruct e; simpl; auto. intros ? [? ?]. split; [auto|lia]. Qed.

Lemma tokenizer_diag_from file start lo hi e :
  tokenizer_diag file start lo hi e -> diag_from file (Z.min start lo) e.
Proof.
  intros [->|(line & -> & Hl)]; simpl; split; auto; lia.
Qed.

Lemma row_event_from file start last e :
  row_event_ok file start last e -> diag_from file start e.
Proof.
  destruct e as [f line m| | | | | | | | | | | | | | |]; simpl; auto.
  intros [-> H]. split; [reflexivity|]. destruct (loader_msg m); lia.
Qed.

Section DiagnosticsOfImport.

Variable w : World.
Variable db : Db.

Lemma xRead_from r p v p' d :
  xRead w r p = Ok (v, p', d) ->
  same_setup p p' /\ nLine p <= nLine p'
  /\ Forall (diag_from (zFile p) (nLine p)) d.
Proof.
  intros H. apply xRead_frame in H as (Hs & Hl & Hd).
  split; [exact Hs|]. split; [exact Hl|].
  eapply Forall_impl; [exact Hd|]. intros e He.
  apply tokenizer_diag_from in He. rewrite Z.min_id in He. exact He.
Qed.

Lemma read_header_from r : forall fuel p cols tr p' cols' tr',
  read_header w fuel r p cols tr = Ok (p', cols', tr') ->
  same_setup p p' /\ nLine p <= nLine p'
  /\ exists dh, tr' = tr ++ dh /\ Forall (diag_from (zFile p) (nLine p)) dh.
Proof.
  induction fuel as [|fuel IH]; intros p cols tr p' cols' tr' H;
    cbn [read_header] in H; [discriminate|].
  apply rbind_ok in H as ([[v p1] d] & Hx & H).
  apply xRead_from in Hx as (Hs & Hl & Hd).
  destruct v as [name|]; [|inv_ok; eauto].
  destruct (negb (cTerm p1 =? cColSep p1)); [inv_ok; eauto|].
  apply IH in H as (Hs' & Hl' & dh & -> & Hdh). pose proof Hs as (Ef & _).
  split; [eapply same_setup_trans; eauto|]. split; [lia|].
  exists (d ++ dh). rewrite app_assoc. split; [reflexivity|].
  apply Forall_app. split; [exact Hd|].
  eapply Forall_impl; [exact Hdh|]. intros e. rewrite Ef.
  apply diag_from_le. exact Hl.
Qed.

Lemma import_row_from fuel md r nCol k p p' k' tr :
  import_row w db fuel md r nCol k p = Ok (p', k', tr) ->
  same_setup p p' /\ nLine p <= nLine p'
  /\ Forall (diag_from (zFile p) (nLine p)) tr.
Proof.
  intros H.
  assert (Hev : Forall (diag_from (zFile p) (nLine p)) tr).
  { apply import_row_events in H. eapply Forall_impl; [exact H|].
    intros e. apply row_event_from. }
  split; [|split; [|exact Hev]]; unfold import_row in H;
    apply rbind_ok in H as ([[i1 p1] tr1] & Hrc & H);
    apply read_columns_events in Hrc as (Hs1 & Hl1 & _); try lia;
    apply rbind_ok in H as ([[i2 p2] tr2] & Hdr & H);
    (assert (Hmid : same_setup p p2 /\ nLine p <= nLine p2);
     [destruct (cTerm p1 =? cColSep p1);
      [apply rbind_ok in Hdr as ([[i3 p3] tr3] & Hd & Hdr);
       apply (drain_events w r (nLine p1)) in Hd as (Hs3 & Hl3 & _);
       [|lia]; inv_ok;
       split; [eapply same_setup_trans; eauto|lia]
      |inv_ok; auto]|]);
    destruct (i2 >=? nCol); inv_ok; tauto.
Qed.

Lemma row_loop_from md r nCol : forall fuel k p tr p' tr',
  row_loop w db fuel md r nCol k p tr = Ok (p', tr') ->
  exists rows, tr' = tr ++ rows
               /\ Forall (diag_from (zFile p) (nLine p)) rows.
Proof.
  induction fuel as [|fuel IH]; intros k p tr p' tr' H;
    cbn [row_loop] in H; [discriminate|].
  apply rbind_ok in H as ([[p1 k1] d] & Hr & H).
  apply import_row_from in Hr as ((Ef & _) & Hl & Hd).
  destruct (negb (cTerm p1 =? EOF)); [|inv_ok; eauto].
  apply IH in H as (rows & -> & Hrows). exists (d ++ rows).
  rewrite app_assoc. split; [reflexivity|]. apply Forall_app.
  split; [exact Hd|]. eapply Forall_impl; [exact Hrows|].
  intros e. rewrite Ef. apply diag_from_le. exact Hl.
Qed.

Lemma import_stream_from fuel md rd c sCtx status tr :
  import_stream w db fuel md rd c sCtx = Ok (status, tr) ->
  Forall (diag_from (zFile sCtx) (nLine sCtx)) tr.
Proof.
  unfold import_stream. intros H.
  destruct (negb (mprintf_ok w)); [inv_ok; repeat constructor|].
  apply rbind_ok in H as (p & Hap & H). cbn [app] in H.
  apply append_frame in Hap as (Ef & _ & _ & _ & El & _).
  rewrite <- Ef, <- El.
  apply rbind_ok in H as ([[[stop rc] p1] tr1] & Hres & H).
  assert (Hpre : Forall (diag_from (zFile p) (nLine p)) tr1
                 /\ zFile p1 = zFile p /\ nLine p <= nLine p1).
  { unfold resolve_table in Hres.
    destruct (negb (select_rc db =? 0) && no_such_table db).
    - apply rbind_ok in Hres as ([[p2 cols] tr2] & Hh & Hres).
      apply read_header_from in Hh as ((Ef2 & _) & Hl2 & dh & -> & Hdh).
      assert (Hall : forall t, Forall (diag_from (zFile p) (nLine p)) t ->
                Forall (diag_from (zFile p) (nLine p))
                  (([PrepareSelect; Alloc] ++ dh) ++ t)).
      { intros t Ht. repeat (apply Forall_app; split); auto.
        repeat constructor. }
      destruct cols as [|col cols];
        [|destruct (negb (create_rc db (col :: cols) =? 0))]; inv_ok;
        (split; [|auto]); rewrite <- ?app_assoc;
        repeat (apply Hall || (apply Forall_app; split));
        repeat constructor.
    - inv_ok. split; [repeat constructor|split; [reflexivity|lia]]. }
  destruct Hpre as (Hpre & Ef1 & Hl1).
  destruct stop; [inv_ok; exact Hpre|].
  destruct (negb (rc =? 0)).
  { inv_ok. apply Forall_app. split; [exact Hpre|repeat constructor]. }
  destruct (Z.of_nat (column_count db) =? 0).
  { inv_ok. apply Forall_app. split; [exact Hpre|repeat constructor]. }
  destruct (negb (malloc_ok w)).
  { inv_ok. repeat (apply Forall_app; split); auto; repeat constructor. }
  destruct (negb (insert_rc db =? 0)).
  { inv_ok. repeat (apply Forall_app; split); auto; repeat constructor. }
  apply rbind_ok in H as ([p2 tr2] & Hloop & H).
  apply row_loop_from in Hloop as (rows & -> & Hrows).
  assert (Hrows' : Forall (diag_from (zFile p) (nLine p)) rows).
  { eapply Forall_impl; [exact Hrows|]. intros e. rewrite Ef1.
    apply diag_from_le. exact Hl1. }
  inv_ok. destruct (autocommit db);
    repeat (apply Forall_app; split); auto; repeat constructor.
Qed.

End DiagnosticsOfImport.

(** * Further properties of the loader *)

(** X11.  For a row that yields as many fields as the table has columns, the
    loader binds the fields to the columns 1 ..  [nCol] in order and steps
    the insert; it prints no diagnostic of its own, unless the reset of the
    insert reports a failure. *)
Theorem exact_row_inserted (w : World) (db : Db) (r : reader)
    (fuel : nat) (nCol : Z) (k : nat) (p : ImportCtx)
    (rs : list (option (list Z) * list event)) (p' : ImportCtx) :
  row_reads w r p rs p' ->
  first_value rs <> None ->
  Z.of_nat (length rs) = nCol ->
  (length rs <= fuel)%nat ->
  import_row w db fuel MODE_Csv r nCol k p
  = Ok (p', S k,
        bind_events 0 rs
        ++ insert_events (zFile p) (nLine p) (reset_rc db k)).
Proof.
  intros Hr Hv Hlen Hfuel.
  assert (Hpos : (0 < length rs)%nat) by (destruct Hr; simpl; lia).
  rewrite (import_row_reads w db r fuel nCol k p rs p') by (auto; lia).
  unfold row_events. cbv zeta.
  destruct (Z.ltb_spec (Z.of_nat (length rs)) nCol); [lia|].
  destruct (Z.eqb_spec (Z.of_nat (length rs)) nCol); [|lia].
  reflexivity.
Qed.

(** The row a,b against a table of two columns. *)
Lemma exact_row_inserted_witness :
  exists p',
    import_row (example_world []) (example_db 2 false) 2 MODE_Csv CsvReader
      2 0 (example_ctx [97; 44; 98; 10])
    = Ok (p', 1%nat,
          [BindText 1 (Some [97]); BindText 2 (Some [98]);
           StepStmt; ResetStmt]).
Proof.
  eexists.
  apply (exact_row_inserted (example_world []) (example_db 2 false)
           CsvReader 2 2 0 (example_ctx [97; 44; 98; 10])
           [(Some [97], []); (Some [98], [])]).
  - eapply row_reads_more; [vm_compute; reflexivity | reflexivity |].
    eapply row_reads_last; [vm_compute; reflexivity | vm_compute; discriminate].
  - discriminate.
  - reflexivity.
  - vm_compute. lia.
Defined.

(** X12.  A row that ends with a column separator has an empty last field.
    When the row separator follows, the field is read as the empty string
    and bound as such; when the stream ends there, the read returns the null
    pointer and the column is bound to NULL. *)
Theorem empty_last_field (w : World) (db : Db) (fuel : nat) (k : nat)
    (p : ImportCtx) (fds : list field) (e : row_end) (rest : list Z) :
  (forall size, realloc_ok w size = true) ->
  allocated p ->
  wf_seps (cColSep p) (cRowSep p) ->
  Forall (wf_field (cColSep p) (cRowSep p)) fds ->
  fds <> [] ->
  (e = EndStream -> rest = []) ->
  inp p = encode_row (cColSep p) fds
          ++ cColSep p :: end_bytes (cRowSep p) e ++ rest ->
  (length fds < fuel)%nat ->
  exists p',
    import_row w db fuel MODE_Csv CsvReader (Z.of_nat (length fds) + 1) k p
    = Ok (p', S k,
          bind_events 0 (map (fun fd => silent (Some (text fd))) fds)
          ++ [BindText (Z.of_nat (length fds) + 1)
                (match e with EndStream => None | _ => Some [] end)]
          ++ insert_events (zFile p) (nLine p) (reset_rc db k))
    /\ inp p' = rest.
Proof.
  intros Hg Ha Hw Hf Hne He Hi.
  pose proof Hw as (Hcr & Hcq & Hrq & Hcc & Hrc & Hce & Hre).
  intros Hfuel.
  destruct (wf_row_reads w Hg (fds ++ [Bare []]) p e rest)
    as (p' & Hr & Hi' & _);
    [destruct fds; discriminate | exact Ha | exact Hw
    | apply Forall_app; split; [exact Hf|];
      repeat constructor; simpl; discriminate
    | exact He
    | rewrite encode_row_snoc by exact Hne; rewrite <- app_assoc; exact Hi |].
  exists p'. split; [|exact Hi'].
  rewrite row_values_snoc in Hr by exact Hne.
  rewrite (import_row_reads w db CsvReader fuel _ k p _ p' Hr).
  - unfold row_events. cbv zeta.
    rewrite !length_map, length_app, length_map. cbn [length].
    destruct (Z.ltb_spec (Z.of_nat (length fds + 1))
                         (Z.of_nat (length fds) + 1)); [lia|].
    destruct (Z.eqb_spec (Z.of_nat (length fds + 1))
                         (Z.of_nat (length fds) + 1)); [|lia].
    rewrite map_app, bind_events_app, map_map, length_map, <- app_assoc.
    do 2 f_equal. cbn [map silent bind_events app]. do 2 f_equal.
    destruct e; cbn [field_value bare_value end_term];
      rewrite ?(proj2 (Z.eqb_neq (cRowSep p) EOF)) by exact Hre; reflexivity.
  - destruct fds as [|fd fds]; [contradiction|]. discriminate.
  - lia.
  - lia.
  - rewrite !length_map, length_app, length_map. cbn [length]. lia.
Qed.

(** The rows 1,2, -- with the comma at the end -- before a line feed and
    before the end of the stream, against a table of three columns. *)
Lemma empty_last_field_witness :
  (exists p',
     import_row (example_world []) (example_db 3 false) 3 MODE_Csv CsvReader
       3 0 (example_ctx [49; 44; 50; 44; 10; 120])
     = Ok (p', 1%nat,
           [BindText 1 (Some [49]); BindText 2 (Some [50]);
            BindText 3 (Some []); StepStmt; ResetStmt])
     /\ inp p' = [120])
  /\ (exists p',
        import_row (example_world []) (example_db 3 false) 3 MODE_Csv
          CsvReader 3 0 (example_ctx [49; 44; 50; 44])
        = Ok (p', 1%nat,
              [BindText 1 (Some [49]); BindText 2 (Some [50]);
               BindText 3 None; StepStmt; ResetStmt])
        /\ inp p' = []).
Proof.
  split.
  - apply (empty_last_field (example_world []) (example_db 3 false) 3 0
             (example_ctx [49; 44; 50; 44; 10; 120])
             [Bare [49]; Bare [50]] EndRowSep [120]);
      example_hyps; try discriminate; simpl; lia.
  - apply (empty_last_field (example_world []) (example_db 3 false) 3 0
             (example_ctx [49; 44; 50; 44])
             [Bare [49]; Bare [50]] EndStream []);
      example_hyps; try discriminate; simpl; lia.
Defined.

(** X13.  Over a file of well-formed rows, each ended by the row separator
    (alone or behind a carriage return) and the last one possibly by the end
    of the stream, the row loop does for each row in turn what it does for a
    row of its number of fields -- too few, as many as columns, too many --
    with the line on which the row begins in its diagnostics, and then ends:
    an end of the stream behind the last row separator gives no further row. *)
Theorem rows_of_file_loaded (w : World) (db : Db) (fuel : nat) (nCol : Z)
    (k : nat) (p : ImportCtx) (rows : list (list field * row_end)) :
  (forall size, realloc_ok w size = true) ->
  allocated p ->
  wf_seps (cColSep p) (cRowSep p) ->
  wf_rows (cColSep p) (cRowSep p) rows ->
  0 < nCol ->
  inp p = encode_rows (cColSep p) (cRowSep p) rows ->
  Z.of_nat (length (inp p)) + nCol < Z.of_nat fuel ->
  exists p',
    row_loop w db fuel MODE_Csv CsvReader nCol k p []
    = Ok (p', file_events db (zFile p) (cColSep p) (cRowSep p) nCol
                k (nLine p) rows)
    /\ inp p' = [] /\ cTerm p' = EOF.
Proof.
  intros Hg Ha Hw Hrows Hn Hi Hf.
  destruct (row_loop_file w db Hg nCol rows fuel k p [] Ha Hw Hrows Hn Hi Hf)
    as (p' & Hl & He). exists p'. split; [exact Hl|exact He].
Qed.

(** A file of three rows against a table of two columns: a row of two
    fields, a row whose first field is quoted and holds a line feed, and a
    row of one field, which begins on line 4. *)
Lemma rows_of_file_loaded_witness :
  exists p',
    row_loop (example_world []) (example_db 2 false) 20 MODE_Csv CsvReader
      2 0
      (example_ctx [97; 44; 98; 10; 34; 120; 10; 121; 34; 44; 50; 13; 10;
                    51; 10]) []
    = Ok (p', [BindText 1 (Some [97]); BindText 2 (Some [98]);
               StepStmt; ResetStmt;
               BindText 1 (Some [120; 10; 121]); BindText 2 (Some [50]);
               StepStmt; ResetStmt;
               BindText 1 (Some [51]); Diag [] 4 (ShortRow 2 1); BindNull 2;
               StepStmt; ResetStmt])
    /\ inp p' = [] /\ cTerm p' = EOF.
Proof.
  apply (rows_of_file_loaded (example_world []) (example_db 2 false) 20 2 0
           (example_ctx [97; 44; 98; 10; 34; 120; 10; 121; 34; 44; 50; 13; 10;
                         51; 10])
           [([Bare [97]; Bare [98]], EndRowSep);
            ([Quoted [120; 10; 121]; Bare [50]], EndCrLf);
            ([Bare [51]], EndRowSep)]).
  - intros; reflexivity.
  - exists (replicate 100 0). repeat split; reflexivity.
  - repeat split; discriminate.
  - cbn [wf_rows]. repeat split; try discriminate;
      repeat (constructor; try (unfold text_byte; simpl; lia);
              try discriminate).
  - lia.
  - reflexivity.
  - vm_compute. reflexivity.
Defined.

(** X14.  When the SELECT failed for want of the table, the fields of the
    first row of the stream, in order, are the columns of the table that is
    created; the row is taken from the stream, so that it is not loaded as
    data, and the SELECT is prepared again. *)
Theorem header_names_columns (w : World) (db : Db) (fuel : nat)
    (c : closer) (rc : Z) (p : ImportCtx) (tr : list event)
    (fds : list field) (e : row_end) (rest : list Z) :
  (forall size, realloc_ok w size = true) ->
  allocated p ->
  wf_seps (cColSep p) (cRowSep p) ->
  Forall (wf_field (cColSep p) (cRowSep p)) fds ->
  fds <> [] ->
  (e = EndStream -> rest = [] /\ last fds <> Some (Bare [])) ->
  Forall (fun b => 0 <= b < 256) rest ->
  inp p = encode_row (cColSep p) fds ++ end_bytes (cRowSep p) e ++ rest ->
  rc <> 0 -> no_such_table db = true ->
  create_rc db (map text fds) = 0 ->
  (length fds <= fuel)%nat ->
  exists p',
    resolve_table w db fuel CsvReader c rc p tr
    = Ok (None, reselect_rc db, p',
          tr ++ [CreateTable (map text fds); PrepareSelect])
    /\ inp p' = rest
    /\ nLine p' = nLine p
                  + count_sep (cRowSep p)
                      (encode_row (cColSep p) fds ++ end_bytes (cRowSep p) e).
Proof.
  intros Hg Ha Hw Hf Hne He Hrest Hi Hrc Hnt Hcr Hfuel.
  destruct (resolve_table_header w db Hg fuel c rc p tr fds e rest)
    as (p' & Hres & Hi' & Hl & _); auto.
  - eapply Forall_impl; [exact Hrest|]. unfold EOF. intros; lia.
  - exists p'. auto.
Qed.

(** The header id,name before a line feed and a row behind it. *)
Lemma header_names_columns_witness :
  exists p',
    resolve_table (example_world [])
      (mkDb 1 true (fun _ => 0) 0 2 0 true (fun _ => 0)) 5 CsvReader Fclose 1
      (example_ctx [105; 100; 44; 110; 97; 109; 101; 10; 49; 44; 97; 10])
      [PrepareSelect; Alloc]
    = Ok (None, 0, p',
          [PrepareSelect; Alloc;
           CreateTable [[105; 100]; [110; 97; 109; 101]]; PrepareSelect])
    /\ inp p' = [49; 44; 97; 10]
    /\ nLine p' = 2.
Proof.
  apply (header_names_columns (example_world [])
           (mkDb 1 true (fun _ => 0) 0 2 0 true (fun _ => 0)) 5 Fclose 1
           (example_ctx [105; 100; 44; 110; 97; 109; 101; 10; 49; 44; 97; 10])
           [PrepareSelect; Alloc]
           [Bare [105; 100]; Bare [110; 97; 109; 101]] EndRowSep
           [49; 44; 97; 10]).
  - intros; reflexivity.
  - exists (replicate 100 0). repeat split; reflexivity.
  - repeat split; discriminate.
  - repeat (constructor;
            [split; [|discriminate];
             repeat (constructor;
                     [unfold text_byte; simpl; unfold COMMA, LF, CR; lia|]);
             constructor|]); constructor.
  - discriminate.
  - discriminate.
  - repeat (constructor; [lia|]); constructor.
  - reflexivity.
  - discriminate.
  - reflexivity.
  - reflexivity.
  - simpl. lia.
Defined.

(** X15.  When the table is there, [sqlite_import] on a file of well-formed
    rows prepares the INSERT for the columns of the table, does for every
    row of the file, the first one included, what the row loop does for it,
    then closes the stream, frees the buffer and returns 0; the inserts
    stand between BEGIN and COMMIT when the database was in autocommit mode. *)
Theorem import_loads_file (w : World) (db : Db) (fuel : nat)
    (zFile0 name : list Z) (c : closer)
    (rows : list (list field * row_end)) :
  (forall size, realloc_ok w size = true) ->
  open_stream w zFile0 = (Some (encode_rows COMMA LF rows), name, c) ->
  mprintf_ok w = true -> malloc_ok w = true ->
  select_rc db = 0 -> insert_rc db = 0 -> column_count db <> O ->
  wf_rows COMMA LF rows ->
  (length (encode_rows COMMA LF rows) + column_count db < fuel)%nat ->
  sqlite_import w db fuel zFile0
  = Ok (0, [Open c; PrepareSelect; Alloc; FinalizeStmt;
            PrepareInsert (Z.of_nat (column_count db))]
           ++ (if autocommit db then [Begin] else [])
           ++ file_events db name COMMA LF (Z.of_nat (column_count db))
                0 1 rows
           ++ [Close c; FreeBuf; FinalizeStmt]
           ++ (if autocommit db then [Commit] else [])).
Proof.
  intros Hg Hopen Hm Hmal Hsel Hins Hcol Hrows Hf.
  rewrite sqlite_import_unfold, Hopen. unfold import_stream.
  rewrite Hm. cbn [negb].
  destruct (first_append w name (encode_rows COMMA LF rows) (Hg 100))
    as (p & Hap & Ha & Hi & Hz & Hc & Hr).
  pose proof (append_frame _ _ _ _ _ Hap) as (_ & _ & _ & _ & Hl & _).
  rewrite Hap. ctx_simpl. cbn [app].
  unfold resolve_table. rewrite Hsel. cbn [Z.eqb negb andb]. ctx_simpl.
  destruct (Z.eqb_spec (Z.of_nat (column_count db)) 0); [lia|].
  rewrite Hmal, Hins. cbn [Z.eqb negb].
  match goal with |- context [row_loop w db fuel MODE_Csv CsvReader ?nc 0 p ?t] =>
    destruct (row_loop_file w db Hg nc rows fuel 0 p t) as (p' & Hloop & _)
  end;
    [exact Ha | rewrite Hc, Hr; repeat split; discriminate
    | rewrite Hc, Hr; exact Hrows | lia | rewrite Hc, Hr; exact Hi
    | rewrite Hi; lia |].
  rewrite Hloop. ctx_simpl. rewrite Hz, Hc, Hr, Hl. cbn [nLine start_ctx].
  destruct (autocommit db); rewrite <- ?app_assoc; reflexivity.
Qed.

(** Two rows against a table of two columns that is there: both are
    loaded. *)
Lemma import_loads_file_witness :
  sqlite_import (example_world [105; 100; 44; 110; 10; 49; 44; 97; 10])
    (example_db 2 false) 20 [102]
  = Ok (0, [Open Fclose; PrepareSelect; Alloc; FinalizeStmt; PrepareInsert 2;
            Begin;
            BindText 1 (Some [105; 100]); BindText 2 (Some [110]);
            StepStmt; ResetStmt;
            BindText 1 (Some [49]); BindText 2 (Some [97]);
            StepStmt; ResetStmt;
            Close Fclose; FreeBuf; FinalizeStmt; Commit]).
Proof.
  apply (import_loads_file
           (example_world [105; 100; 44; 110; 10; 49; 44; 97; 10])
           (example_db 2 false) 20 [102] [102] Fclose
           [([Bare [105; 100]; Bare [110]], EndRowSep);
            ([Bare [49]; Bare [97]], EndRowSep)]).
  - intros; reflexivity.
  - reflexivity.
  - reflexivity.
  - reflexivity.
  - reflexivity.
  - reflexivity.
  - discriminate.
  - cbn [wf_rows]. repeat split; try discriminate;
      repeat (constructor;
              try (unfold text_byte; simpl; unfold COMMA, LF, CR; lia);
              try discriminate).
  - vm_compute. lia.
Defined.

(** X16.  When the table is missing, [sqlite_import] creates it with the
    fields of the first row as its columns and loads the rows behind the
    first one: the first row is not inserted, and the lines of the
    diagnostics count from the first row of the file. *)
Theorem import_creates_table (w : World) (db : Db) (fuel : nat)
    (zFile0 name : list Z) (c : closer) (header : list field) (e : row_end)
    (rows : list (list field * row_end)) :
  (forall size, realloc_ok w size = true) ->
  open_stream w zFile0
  = (Some (encode_row COMMA header ++ end_bytes LF e
           ++ encode_rows COMMA LF rows), name, c) ->
  mprintf_ok w = true -> malloc_ok w = true ->
  select_rc db <> 0 -> no_such_table db = true ->
  create_rc db (map text header) = 0 -> reselect_rc db = 0 ->
  insert_rc db = 0 -> column_count db <> O ->
  Forall (wf_field COMMA LF) header -> header <> [] ->
  (e = EndStream -> rows = [] /\ last header <> Some (Bare [])) ->
  wf_rows COMMA LF rows ->
  (length (encode_row COMMA header ++ end_bytes LF e
           ++ encode_rows COMMA LF rows) + column_count db < fuel)%nat ->
  sqlite_import w db fuel zFile0
  = Ok (0, [Open c; PrepareSelect; Alloc;
            CreateTable (map text header); PrepareSelect; FinalizeStmt;
            PrepareInsert (Z.of_nat (column_count db))]
           ++ (if autocommit db then [Begin] else [])
           ++ file_events db name COMMA LF (Z.of_nat (column_count db)) 0
                (1 + count_sep LF (encode_row COMMA header ++ end_bytes LF e))
                rows
           ++ [Close c; FreeBuf; FinalizeStmt]
           ++ (if autocommit db then [Commit] else [])).
Proof.
  intros Hg Hopen Hm Hmal Hsel Hnt Hcr Hre Hins Hcol Hhd Hne He Hrows Hf.
  assert (Hw : wf_seps COMMA LF) by (repeat split; discriminate).
  rewrite sqlite_import_unfold, Hopen. unfold import_stream.
  rewrite Hm. cbn [negb].
  destruct (first_append w name
              (encode_row COMMA header ++ end_bytes LF e
               ++ encode_rows COMMA LF rows) (Hg 100))
    as (p & Hap & Ha & Hi & Hz & Hc & Hr).
  pose proof (append_frame _ _ _ _ _ Hap) as (_ & _ & _ & _ & Hl & _).
  rewrite Hap. ctx_simpl. cbn [app].
  pose proof (encode_row_length COMMA header) as Hlen.
  rewrite !length_app in Hf.
  destruct (resolve_table_header w db Hg fuel c (select_rc db) p
              [PrepareSelect; Alloc] header e (encode_rows COMMA LF rows))
    as (p1 & Hres & Hi1 & Hl1 & Ha1 & (Ez & Ec & Er));
    [exact Ha | rewrite Hc, Hr; exact Hw | rewrite Hc, Hr; exact Hhd
    | exact Hne
    | intros E; destruct (He E) as [-> ?]; auto
    | apply encode_rows_no_eof; [discriminate..|exact Hrows]
    | rewrite Hc, Hr; exact Hi | exact Hsel | exact Hnt | exact Hcr | lia |].
  rewrite Hres. ctx_simpl. rewrite Hre. cbn [Z.eqb negb].
  destruct (Z.eqb_spec (Z.of_nat (column_count db)) 0); [lia|].
  rewrite Hmal, Hins. cbn [Z.eqb negb].
  rewrite Hz in Ez. rewrite Hc in Ec. rewrite Hr in Er.
  match goal with |- context [row_loop w db fuel MODE_Csv CsvReader ?nc 0 p1 ?t] =>
    destruct (row_loop_file w db Hg nc rows fuel 0 p1 t) as (p' & Hloop & _)
  end;
    [exact Ha1 | rewrite Ec, Er; exact Hw
    | rewrite Ec, Er; exact Hrows | lia | rewrite Ec, Er; exact Hi1
    | rewrite Hi1; lia |].
  rewrite Hloop. ctx_simpl. rewrite Ez, Ec, Er, Hl1, Hl, Hc, Hr.
  cbn [nLine start_ctx].
  destruct (autocommit db); rewrite <- ?app_assoc; reflexivity.
Qed.

(** A header of two names, a row of two fields and a row of one field,
    which begins on line 3. *)
Lemma import_creates_table_witness :
  sqlite_import
    (example_world [105; 100; 44; 110; 13; 10; 49; 44; 97; 10; 50; 10])
    (mkDb 1 true (fun _ => 0) 0 2 0 true (fun _ => 0)) 20 [102]
  = Ok (0, [Open Fclose; PrepareSelect; Alloc;
            CreateTable [[105; 100]; [110]]; PrepareSelect; FinalizeStmt;
            PrepareInsert 2; Begin;
            BindText 1 (Some [49]); BindText 2 (Some [97]);
            StepStmt; ResetStmt;
            BindText 1 (Some [50]); Diag [102] 3 (ShortRow 2 1); BindNull 2;
            StepStmt; ResetStmt;
            Close Fclose; FreeBuf; FinalizeStmt; Commit]).
Proof.
  apply (import_creates_table
           (example_world [105; 100; 44; 110; 13; 10; 49; 44; 97; 10; 50; 10])
           (mkDb 1 true (fun _ => 0) 0 2 0 true (fun _ => 0)) 20 [102] [102]
           Fclose [Bare [105; 100]; Bare [110]] EndCrLf
           [([Bare [49]; Bare [97]], EndRowSep); ([Bare [50]], EndRowSep)]).
  - intros; reflexivity.
  - reflexivity.
  - reflexivity.
  - reflexivity.
  - discriminate.
  - reflexivity.
  - reflexivity.
  - reflexivity.
  - reflexivity.
  - discriminate.
  - repeat (constructor;
            [split; [|discriminate];
             repeat (constructor;
                     [unfold text_byte; simpl; unfold COMMA, LF, CR; lia|]);
             constructor|]); constructor.
  - discriminate.
  - discriminate.
  - cbn [wf_rows]. repeat split; try discriminate;
      repeat (constructor;
              try (unfold text_byte; simpl; unfold COMMA, LF, CR; lia);
              try discriminate).
  - vm_compute. lia.
Defined.

(** X17.  When the table is missing and the CREATE TABLE built from the
    first row fails, [sqlite_import] reports the failure, frees the buffer,
    closes the stream and returns 1; it prepares no INSERT and loads no row. *)
Theorem create_failure_returns (w : World) (db : Db) (fuel : nat)
    (zFile0 name : list Z) (c : closer) (header : list field) (e : row_end)
    (rest : list Z) :
  (forall size, realloc_ok w size = true) ->
  open_stream w zFile0
  = (Some (encode_row COMMA header ++ end_bytes LF e ++ rest), name, c) ->
  mprintf_ok w = true ->
  select_rc db <> 0 -> no_such_table db = true ->
  create_rc db (map text header) <> 0 ->
  Forall (wf_field COMMA LF) header -> header <> [] ->
  (e = EndStream -> rest = [] /\ last header <> Some (Bare [])) ->
  (length header <= fuel)%nat ->
  sqlite_import w db fuel zFile0
  = Ok (1, [Open c; PrepareSelect; Alloc; CreateTable (map text header);
            Error CreateFailed; FreeBuf; Close c]).
Proof.
  intros Hg Hopen Hm Hsel Hnt Hcr Hhd Hne He Hf.
  assert (Hw : wf_seps COMMA LF) by (repeat split; discriminate).
  rewrite sqlite_import_unfold, Hopen. unfold import_stream.
  rewrite Hm. cbn [negb].
  destruct (first_append w name
              (encode_row COMMA header ++ end_bytes LF e ++ rest) (Hg 100))
    as (p & Hap & Ha & Hi & Hz & Hc & Hr).
  rewrite Hap. ctx_simpl. cbn [app].
  destruct (wf_row_reads w Hg header p e rest Hne Ha)
    as (p1 & Hrd & _);
    [rewrite Hc, Hr; exact Hw | rewrite Hc, Hr; exact Hhd
    | intros E; apply He; exact E | rewrite Hc, Hr; exact Hi |].
  rewrite row_values_texts in Hrd
    by (rewrite ?Hr; try discriminate; intros E; apply He; exact E).
  unfold resolve_table.
  rewrite (proj2 (Z.eqb_neq _ 0) Hsel), Hnt. cbn [negb andb].
  rewrite (read_header_row w CsvReader p _ p1 Hrd);
    [|clear; induction header; constructor; auto; discriminate
     |rewrite !length_map; exact Hf].
  ctx_simpl.
  assert (Ecols : omap fst (map silent (map (fun fd => Some (text fd)) header))
                  = map text header).
  { clear. induction header as [|fd fds IH]; [reflexivity|].
    simpl. f_equal. exact IH. }
  assert (Ed : concat (map snd (map silent
                 (map (fun fd => Some (text fd)) header))) = []).
  { clear. induction header as [|fd fds IH]; [reflexivity|]. exact IH. }
  cbn [app]. rewrite Ecols, Ed.
  destruct (map text header) as [|col cols] eqn:Em.
  { destruct header; [contradiction|discriminate]. }
  rewrite (proj2 (Z.eqb_neq _ 0) Hcr). cbn [negb app]. ctx_simpl.
  reflexivity.
Qed.

(** A header of two names and a database that refuses to create the
    table. *)
Lemma create_failure_returns_witness :
  sqlite_import (example_world [97; 44; 98; 10; 49; 44; 50; 10])
    (mkDb 1 true (fun _ => 1) 0 2 0 true (fun _ => 0)) 20 [102]
  = Ok (1, [Open Fclose; PrepareSelect; Alloc; CreateTable [[97]; [98]];
            Error CreateFailed; FreeBuf; Close Fclose]).
Proof.
  apply (create_failure_returns
           (example_world [97; 44; 98; 10; 49; 44; 50; 10])
           (mkDb 1 true (fun _ => 1) 0 2 0 true (fun _ => 0)) 20 [102] [102]
           Fclose [Bare [97]; Bare [98]] EndRowSep [49; 44; 50; 10]).
  - intros; reflexivity.
  - reflexivity.
  - reflexivity.
  - discriminate.
  - reflexivity.
  - discriminate.
  - repeat (constructor;
            [split; [|discriminate];
             repeat (constructor;
                     [unfold text_byte; simpl; unfold COMMA, LF, CR; lia|]);
             constructor|]); constructor.
  - discriminate.
  - discriminate.
  - simpl. lia.
Defined.

(** The cases of a trace of the import, with the lists of the diagnostics
    of the header and of the events of the rows in them. *)
Ltac trace_cases H :=
  apply sqlite_import_trace in H as [(-> & ->)|(tr0 & -> & H)];
  [|inversion H as [|dh Hdh|dh cols Hdh|pre st tl Hpre Htl]; subst; clear H;
    [| | |inversion Hpre as [|dh cols Hdh]; subst; clear Hpre;
          inversion Htl as [|Hnc| | |rows Hrows Hnc]; subst; clear Htl]].

Ltac split_lists :=
  repeat first [rewrite Forall_app | rewrite Forall_cons | rewrite Forall_nil
               | rewrite Exists_app | rewrite Exists_cons
               | rewrite Exists_nil].

(** X18.  [sqlite_import] returns 0 or 1.  It returns 1 exactly when it
    printed an error, and then it has bound no value, stepped no insert and
    neither begun nor committed a transaction: every error that ends the
    import comes before the first row is loaded. *)
Theorem failed_import_inserts_nothing (w : World) (db : Db) (fuel : nat)
    (zFile0 : list Z) (status : Z) (tr : list event) :
  sqlite_import w db fuel zFile0 = Ok (status, tr) ->
  (status = 0 \/ status = 1)
  /\ (status = 1 <-> Exists (fun e => is_error e = true) tr)
  /\ (status = 1 -> Forall (fun e => touches_rows e = false) tr).
Proof.
  intros H. trace_cases H;
    try pose proof (diags_no_error _ Hdh) as Hne;
    try pose proof (diags_touch_nothing _ Hdh) as Hnt;
    try pose proof (rows_no_error _ Hrows) as Hnr;
    (split; [auto|]);
    cbn [app]; split_lists; cbn [is_error touches_rows];
    try (destruct (autocommit db); cbn [app]; split_lists;
         cbn [is_error touches_rows]);
    intuition (try discriminate; try lia; auto).
Qed.

(** The table is missing and cannot be created. *)
Lemma failed_import_inserts_nothing_witness :
  exists status tr,
    sqlite_import (example_world [97; 44; 98; 10; 49; 44; 50; 10])
      (mkDb 1 true (fun _ => 1) 0 2 0 true (fun _ => 0)) 20 [102]
    = Ok (status, tr)
    /\ (status = 0 \/ status = 1)
    /\ (status = 1 <-> Exists (fun e => is_error e = true) tr)
    /\ (status = 1 -> Forall (fun e => touches_rows e = false) tr).
Proof.
  eexists _, _. split; [vm_compute; reflexivity|].
  apply (failed_import_inserts_nothing
           (example_world [97; 44; 98; 10; 49; 44; 50; 10])
           (mkDb 1 true (fun _ => 1) 0 2 0 true (fun _ => 0)) 20 [102]).
  vm_compute. reflexivity.
Defined.

(** X19.  Among the events of an import, the steps of the inserts stand
    between one BEGIN and one COMMIT when the database was in autocommit
    mode; when it was not, the import neither begins nor commits a
    transaction.  An import that returns before the row loop does none of
    these. *)
Theorem transaction_bracket (w : World) (db : Db) (fuel : nat)
    (zFile0 : list Z) (status : Z) (tr : list event) :
  sqlite_import w db fuel zFile0 = Ok (status, tr) ->
  List.filter txn_event tr = []
  \/ (status = 0
      /\ exists k,
           List.filter txn_event tr
           = (if autocommit db then [Begin] else [])
             ++ replicate k StepStmt
             ++ (if autocommit db then [Commit] else [])).
Proof.
  intros H.
  assert (Hd : forall dh, Forall (fun e => is_diag e = true) dh ->
                          List.filter txn_event dh = []).
  { intros dh. apply filter_diags. reflexivity. }
  trace_cases H; cbn [app];
    repeat (rewrite ?List.filter_app; cbn [List.filter txn_event app]);
    rewrite ?Hd by assumption; cbn [app]; auto.
  - right. split; [reflexivity|].
    destruct (filter_rows_txn rows Hrows) as (k & ->). exists k.
    destruct (autocommit db); cbn [List.filter txn_event app];
      rewrite ?app_nil_r; reflexivity.
  - right. split; [reflexivity|].
    destruct (filter_rows_txn rows Hrows) as (k & ->). exists k.
    destruct (autocommit db); cbn [List.filter txn_event app];
      rewrite ?app_nil_r; reflexivity.
Qed.

(** Two rows loaded in autocommit mode. *)
Lemma transaction_bracket_witness :
  exists status tr,
    sqlite_import (example_world [97; 44; 98; 10; 49; 44; 50; 10])
      (example_db 2 false) 20 [102]
    = Ok (status, tr)
    /\ (List.filter txn_event tr = []
        \/ (status = 0
            /\ exists k,
                 List.filter txn_event tr
                 = [Begin] ++ replicate k StepStmt ++ [Commit])).
Proof.
  eexists _, _. split; [vm_compute; reflexivity|].
  apply (transaction_bracket
           (example_world [97; 44; 98; 10; 49; 44; 50; 10])
           (example_db 2 false) 20 [102]).
  vm_compute. reflexivity.
Defined.

(** X20.  The stream is opened at most once and closed at most once, after
    it was opened and by the closer that goes with the name: [pclose] for a
    command, [fclose] for a file; it is left open only by the return for a
    table without columns.  The field buffer is freed at most once, and only
    after it was allocated.  An import that returns 0 for a table with
    columns has closed the stream and freed the buffer. *)
Theorem resources_released_once (w : World) (db : Db) (fuel : nat)
    (zFile0 : list Z) (status : Z) (tr : list event) :
  sqlite_import w db fuel zFile0 = Ok (status, tr) ->
  ((List.filter stream_event tr = [] /\ status = 1)
   \/ List.filter stream_event tr
      = [Open (closer_of zFile0); Close (closer_of zFile0)]
   \/ (List.filter stream_event tr = [Open (closer_of zFile0)]
       /\ status = 0 /\ column_count db = O))
  /\ (List.filter buffer_event tr = []
      \/ List.filter buffer_event tr = [Alloc]
      \/ List.filter buffer_event tr = [Alloc; FreeBuf])
  /\ (status = 0 -> column_count db <> O ->
      List.filter stream_event tr
      = [Open (closer_of zFile0); Close (closer_of zFile0)]
      /\ List.filter buffer_event tr = [Alloc; FreeBuf]).
Proof.
  intros H. rewrite <- (open_stream_closer w zFile0).
  assert (Hd : forall dh, Forall (fun e => is_diag e = true) dh ->
                          List.filter stream_event dh = []
                          /\ List.filter buffer_event dh = []).
  { intros dh Hdh. split; apply filter_diags; auto. }
  assert (Hr : forall rows, Forall (fun e => row_event e = true) rows ->
                            List.filter stream_event rows = []
                            /\ List.filter buffer_event rows = []).
  { intros rows Hrows. split; apply filter_rows_other; auto;
      intros e; destruct e; simpl; congruence. }
  trace_cases H;
    try destruct (Hd _ Hdh) as [Hd1 Hd2];
    try destruct (Hr _ Hrows) as [Hr1 Hr2];
    try (destruct (autocommit db));
    cbn [app];
    repeat (rewrite ?List.filter_app;
            cbn [List.filter stream_event buffer_event app]);
    rewrite ?Hd1, ?Hd2, ?Hr1, ?Hr2; cbn [app];
    (split; [auto 6|split; [auto|]]);
    intros E1 E2; first [discriminate E1 | contradiction | auto].
Qed.

(** A command whose output is loaded. *)
Lemma resources_released_once_witness :
  exists status tr,
    sqlite_import
      (mkWorld (fun _ => true) 0 (fun _ => None) (fun _ => Some [49; 10])
               true true)
      (example_db 1 false) 10 [124; 108; 115]
    = Ok (status, tr)
    /\ ((List.filter stream_event tr = [] /\ status = 1)
        \/ List.filter stream_event tr = [Open Pclose; Close Pclose]
        \/ (List.filter stream_event tr = [Open Pclose]
            /\ status = 0 /\ column_count (example_db 1 false) = O))
    /\ (List.filter buffer_event tr = []
        \/ List.filter buffer_event tr = [Alloc]
        \/ List.filter buffer_event tr = [Alloc; FreeBuf])
    /\ (status = 0 -> column_count (example_db 1 false) <> O ->
        List.filter stream_event tr = [Open Pclose; Close Pclose]
        /\ List.filter buffer_event tr = [Alloc; FreeBuf]).
Proof.
  eexists _, _. split; [vm_compute; reflexivity|].
  apply (resources_released_once
           (mkWorld (fun _ => true) 0 (fun _ => None)
                    (fun _ => Some [49; 10]) true true)
           (example_db 1 false) 10 [124; 108; 115]).
  vm_compute. reflexivity.
Defined.

(** X21.  Whatever the file holds, whatever the database answers and
    whatever the allocator grants, [sqlite_import] either stops the process
    on a refused allocation of the field buffer or returns: its loops end,
    within a number of rounds above the length of the stream plus the number
    of columns, and no read or write falls outside the buffer. *)
Theorem import_returns_or_exits (w : World) (db : Db) (fuel : nat)
    (zFile0 : list Z) :
  (forall bytes name c,
     open_stream w zFile0 = (Some bytes, name, c) ->
     (length bytes + column_count db < fuel)%nat) ->
  sqlite_import w db fuel zFile0 = OutOfMemory
  \/ exists status tr, sqlite_import w db fuel zFile0 = Ok (status, tr).
Proof.
  intros Hf.
  destruct (sqlite_import_refused w db fuel zFile0) as [E|E];
    [left; exact E|].
  right. rewrite E, sqlite_import_unfold.
  change (open_stream (grant w) zFile0) with (open_stream w zFile0).
  destruct (open_stream w zFile0) as [[[bytes|] name] c] eqn:Hopen;
    [|eauto].
  destruct (import_stream_total (grant w) db (fun _ => eq_refl) fuel c name
              bytes (Hf bytes name c eq_refl)) as (status & tr & Hs).
  rewrite Hs. ctx_simpl. eauto.
Qed.

(** A file whose second row does not fit the buffer when the allocator
    grants 100 bytes and no more. *)
Lemma import_returns_or_exits_witness :
  sqlite_import
    (mkWorld (fun size => size <=? 100) 0
             (fun _ => Some (49 :: 10 :: replicate 100 50)) (fun _ => None)
             true true)
    (example_db 1 false) 110 [102] = OutOfMemory
  \/ exists status tr,
       sqlite_import
         (mkWorld (fun size => size <=? 100) 0
                  (fun _ => Some (49 :: 10 :: replicate 100 50))
                  (fun _ => None) true true)
         (example_db 1 false) 110 [102] = Ok (status, tr).
Proof.
  apply (import_returns_or_exits
           (mkWorld (fun size => size <=? 100) 0
                    (fun _ => Some (49 :: 10 :: replicate 100 50))
                    (fun _ => None) true true)
           (example_db 1 false) 110 [102]).
  intros bytes name c H. injection H as <- _ _. vm_compute. lia.
Defined.

(** X22.  When the row loop ends, nothing is left of the stream: the loop
    ends on the terminator [EOF] only, and a read stores [EOF] only at the
    end of the stream. *)
Theorem row_loop_reads_all (w : World) (db : Db) (fuel : nat) (md : Z)
    (r : reader) (nCol : Z) (k : nat) (p : ImportCtx) (tr : list event)
    (p' : ImportCtx) (tr' : list event) :
  row_loop w db fuel md r nCol k p tr = Ok (p', tr') ->
  0 < nCol ->
  Forall (fun b => 0 <= b < 256) (inp p) ->
  cRowSep p <> EOF -> (r = CsvReader -> cRowSep p <> QUOTE) ->
  inp p' = [] /\ cTerm p' = EOF.
Proof.
  intros H Hn Hs Hr Hq.
  eapply row_loop_end; eauto.
  eapply Forall_impl; [exact Hs|]. unfold EOF. intros; lia.
Qed.

(** A file with a row that is too long and a row that is cut short by the
    end of the stream, inside a quoted field. *)
Lemma row_loop_reads_all_witness :
  exists p' tr',
    row_loop (example_world []) (example_db 1 false) 20 MODE_Csv CsvReader
      1 0 (example_ctx [97; 44; 98; 44; 99; 10; 34; 100; 10]) []
    = Ok (p', tr')
    /\ inp p' = [] /\ cTerm p' = EOF.
Proof.
  eexists _, _. split; [vm_compute; reflexivity|].
  eapply (row_loop_reads_all (example_world []) (example_db 1 false) 20
            MODE_Csv CsvReader 1 0
            (example_ctx [97; 44; 98; 44; 99; 10; 34; 100; 10]) []).
  - vm_compute. reflexivity.
  - lia.
  - repeat (constructor; [lia|]); constructor.
  - discriminate.
  - discriminate.
Defined.

(** X23.  In CSV mode an empty line is not skipped: it is read as a row of
    one empty field, so that the empty string is bound to the first column,
    the other columns are bound to NULL behind a diagnostic of a short row,
    and the row is inserted. *)
Theorem blank_line_loaded (w : World) (db : Db) (fuel : nat) (nCol : Z)
    (k : nat) (p : ImportCtx) (rest : list Z) :
  (forall size, realloc_ok w size = true) ->
  allocated p ->
  wf_seps (cColSep p) (cRowSep p) ->
  inp p = cRowSep p :: rest ->
  0 < nCol -> nCol <= Z.of_nat fuel ->
  exists p',
    import_row w db fuel MODE_Csv CsvReader nCol k p
    = Ok (p', S k,
          BindText 1 (Some [])
          :: (if nCol =? 1 then []
              else Diag (zFile p) (nLine p) (ShortRow nCol 1)
                   :: map BindNull (seqZ 2 (nCol - 1)))
          ++ insert_events (zFile p) (nLine p) (reset_rc db k))
    /\ inp p' = rest /\ nLine p' = nLine p + 1.
Proof.
  intros Hg Ha Hw Hi Hn Hf.
  pose proof Hw as (Hcr & Hcq & Hrq & Hcc & Hrc & Hce & Hre).
  destruct (csv_read_text (realloc_ok w) (junk w) Hg p [] (cRowSep p :: rest))
    as (p' & Hx & Hi' & Hc' & Hl');
    [exact Ha | exact Hw | constructor | simpl; discriminate
    | right; reflexivity | exact Hi | rewrite Hi; discriminate |].
  cbn [hd tl] in *. rewrite Z.eqb_refl in *. cbn [strip_last_cr] in Hx.
  assert (Hr : row_reads w CsvReader p [silent (Some [])] p').
  { apply row_reads_last; [exact Hx|].
    apply csv_read_frame in Hx as ((_ & -> & _) & _). congruence. }
  exists p'. split; [|auto].
  rewrite (import_row_reads w db CsvReader fuel nCol k p _ p' Hr);
    [|discriminate|exact Hn|exact Hf|simpl; lia].
  unfold row_events. cbv zeta. cbn [length silent bind_events app].
  change (Z.of_nat 1) with 1. change (0 + 1) with 1. change (1 + 1) with 2.
  destruct (Z.ltb_spec 1 nCol).
  - rewrite (proj2 (Z.eqb_neq nCol 1)) by lia. reflexivity.
  - replace nCol with 1 by lia. reflexivity.
Qed.

(** An empty line before a row, against a table of three columns. *)
Lemma blank_line_loaded_witness :
  exists p',
    import_row (example_world []) (example_db 3 false) 3 MODE_Csv CsvReader
      3 0 (example_ctx [10; 97; 10])
    = Ok (p', 1%nat,
          [BindText 1 (Some []); Diag [] 1 (ShortRow 3 1);
           BindNull 2; BindNull 3; StepStmt; ResetStmt])
    /\ inp p' = [97; 10] /\ nLine p' = 2.
Proof.
  apply (blank_line_loaded (example_world []) (example_db 3 false) 3 3 0
           (example_ctx [10; 97; 10]) [97; 10]).
  - intros; reflexivity.
  - exists (replicate 100 0). repeat split; reflexivity.
  - repeat split; discriminate.
  - reflexivity.
  - lia.
  - simpl. lia.
Defined.

(** X24.  In ASCII mode a row whose first field is empty and ended by the
    row separator is dropped: the row loop binds nothing, steps no insert
    and prints nothing for it, and goes on behind the separator. *)
Theorem ascii_empty_record_skipped (w : World) (db : Db) (fuel : nat)
    (nCol : Z) (k : nat) (p : ImportCtx) (rest : list Z) :
  (forall size, realloc_ok w size = true) ->
  allocated p ->
  cColSep p <> cRowSep p -> cColSep p <> EOF -> cRowSep p <> EOF ->
  inp p = cRowSep p :: rest ->
  0 < nCol -> (0 < fuel)%nat ->
  exists p',
    import_row w db fuel MODE_Ascii AsciiReader nCol k p = Ok (p', k, [])
    /\ inp p' = rest /\ nLine p' = nLine p + 1 /\ cTerm p' = cRowSep p.
Proof.
  intros Hg Ha Hne Hce Hre Hi Hn Hf.
  destruct (ascii_read_text (realloc_ok w) (junk w) Hg p []
              (cRowSep p :: rest))
    as (p' & Hx & Hi' & Hc' & Hl');
    [exact Ha | exact Hce | exact Hre | constructor
    | right; reflexivity | exact Hi | rewrite Hi; discriminate |].
  cbn [hd tl] in *. rewrite Z.eqb_refl in *.
  exists p'. split; [|auto].
  unfold import_row. cbv zeta.
  destruct fuel as [|fuel]; [lia|]. cbn [read_columns].
  destruct (Z.ltb_spec 0 nCol); [|lia].
  cbn [xRead]. rewrite Hx. ctx_simpl. cbn [app].
  rewrite bool_decide_eq_false_2 by discriminate.
  cbn [andb null_or_empty Z.eqb].
  change (MODE_Ascii =? MODE_Ascii) with true. cbn [andb]. ctx_simpl.
  pose proof (ascii_read_frame _ _ _ _ _ _ _ Hx) as ((_ & Ec & _) & _).
  rewrite Hc', Ec, (proj2 (Z.eqb_neq (cRowSep p) (cColSep p))) by auto.
  ctx_simpl. destruct (Z.geb_spec 0 nCol); [lia|]. reflexivity.
Qed.

(** An empty record before a record, with the separators of ASCII
    mode. *)
Lemma ascii_empty_record_skipped_witness :
  exists p',
    import_row (example_world []) (example_db 2 false) 1 MODE_Ascii
      AsciiReader 2 0
      (mkCtx [] [30; 97; 31; 98; 30] (Some (replicate 100 0)) 0 100 1 0 31 30)
    = Ok (p', O, [])
    /\ inp p' = [97; 31; 98; 30] /\ nLine p' = 2 /\ cTerm p' = 30.
Proof.
  apply (ascii_empty_record_skipped (example_world []) (example_db 2 false)
           1 2 0
           (mkCtx [] [30; 97; 31; 98; 30] (Some (replicate 100 0))
                  0 100 1 0 31 30)
           [97; 31; 98; 30]).
  - intros; reflexivity.
  - exists (replicate 100 0). repeat split; reflexivity.
  - discriminate.
  - discriminate.
  - discriminate.
  - reflexivity.
  - lia.
  - lia.
Defined.

(** X25.  Every diagnostic of an import names the file that was given to
    [sqlite_import], or [<pipe>] when the name is a command, and a line of
    the stream, counted from 1. *)
Theorem diagnostics_name_the_file (w : World) (db : Db) (fuel : nat)
    (zFile0 : list Z) (status : Z) (tr : list event) :
  sqlite_import w db fuel zFile0 = Ok (status, tr) ->
  Forall (diag_from (message_name zFile0) 1) tr.
Proof.
  rewrite sqlite_import_unfold. unfold open_stream, message_name.
  destruct (first_char zFile0 =? PIPE).
  - destruct (popen w (tl zFile0)) as [bytes|]; intros H.
    + apply rbind_ok in H as ([st t] & Hs & H). inv_ok.
      apply import_stream_from in Hs. constructor; [exact I|exact Hs].
    + inv_ok. repeat constructor.
  - destruct (fopen w zFile0) as [bytes|]; intros H.
    + apply rbind_ok in H as ([st t] & Hs & H). inv_ok.
      apply import_stream_from in Hs. constructor; [exact I|exact Hs].
    + inv_ok. repeat constructor.
Qed.

(** The output of a command with a row that is too short on its second
    line. *)
Lemma diagnostics_name_the_file_witness :
  exists status tr,
    sqlite_import
      (mkWorld (fun _ => true) 0 (fun _ => None)
               (fun _ => Some [49; 44; 50; 10; 51; 10]) true true)
      (example_db 2 false) 10 [124; 108; 115]
    = Ok (status, tr)
    /\ Forall (diag_from pipe_name 1) tr
    /\ In (Diag pipe_name 2 (ShortRow 2 1)) tr.
Proof.
  eexists _, _. split; [vm_compute; reflexivity|]. split.
  - eapply (diagnostics_name_the_file
             (mkWorld (fun _ => true) 0 (fun _ => None)
                      (fun _ => Some [49; 44; 50; 10; 51; 10]) true true)
             (example_db 2 false) 10 [124; 108; 115]).
    vm_compute. reflexivity.
  - vm_compute. tauto.
Defined.
